(** * Crunch: the normalisation, filtering and view-state core of the
      restaurant directory (crunch_prototype.tsx)

    A shallow embedding of the client-side pipeline: the field normaliser
    ([splitToArray], [mapRestaurantRow]), the city and diet canonicalisation
    tables ([canonicalCity], [canonicalDiet], [getCity]), the filter/sort
    engine ([filteredRestaurants]), the paged fetch coordinator ([fetchData]),
    the hash/persisted view resolution ([getInitialView], [viewFromHash], the
    effects of the first commit and the [hashchange] listener) and
    the moderation workflow ([approveSubmission], [rejectSubmission]); and of
    what surrounds it: the filter selection ([handleFilterChange],
    [clearFilters]), the home page figures ([homeFeatured], [dbCities],
    [homeStats], the verified and coverage counters), navigation
    ([navigate]), the suggestion, newsletter and contact forms
    ([normalizeUrl], [handleSubmission], [isValidEmail], [handleSubscribe],
    [handleSubmit]) and the detail view ([normalizeRecommendedDishes],
    [normalizeSocialLinks]).

    Conventions.
    - A JavaScript string is a [string]: a sequence of code units below 256
      (ASCII and the Latin-1 block).  [toLowerCase], [trim] and the regular
      expression classes are those of ECMAScript restricted to that range.
    - A JavaScript number is a binary64 [float]; integers that only count or
      index (page cursor, offsets, row count, identifiers) are in [Z].
    - What the browser or the hosted backend provides (JSON.parse, the clock,
      Date parsing, query answers) is a parameter: the class [Host] and the
      record [Backend].  A reference [Host] is defined to run the examples. *)

From Stdlib Require Import List String Ascii ZArith Bool Lia Permutation.
From Stdlib Require Import PrimFloat FloatOps SpecFloat FloatAxioms DecimalString Sorted.
Import ListNotations.

Local Open Scope string_scope.
Local Open Scope list_scope.

(* ================================================================== *)
(** ** Strings as the code uses them *)

(** ECMAScript WhiteSpace and LineTerminator code units below 256: TAB, LF,
    VT, FF, CR, SP and NBSP.  This is what [String.prototype.trim] strips and
    what the class [\s] matches. *)
Definition isWhiteSpace (c : ascii) : bool :=
  match nat_of_ascii c with
  | 9 | 10 | 11 | 12 | 13 | 32 | 160 => true
  | _ => false
  end.

(** [toLowerCase] on one code unit: A-Z, and the Latin-1 capitals U+00C0 to
    U+00DE except the multiplication sign U+00D7. *)
Definition toLowerChar (c : ascii) : ascii :=
  let n := nat_of_ascii c in
  if ((65 <=? n) && (n <=? 90) || (192 <=? n) && (n <=? 222) && negb (n =? 215))%nat
  then ascii_of_nat (n + 32)
  else c.

Fixpoint mapString (f : ascii -> ascii) (s : string) : string :=
  match s with
  | EmptyString => EmptyString
  | String c r => String (f c) (mapString f r)
  end.

Definition toLowerCase (s : string) : string := mapString toLowerChar s.

Fixpoint trimStart (s : string) : string :=
  match s with
  | EmptyString => EmptyString
  | String c r => if isWhiteSpace c then trimStart r else s
  end.

Fixpoint trimEnd (s : string) : string :=
  match s with
  | EmptyString => EmptyString
  | String c r =>
      let r' := trimEnd r in
      if isWhiteSpace c && (r' =? "") then EmptyString else String c r'
  end.

(** [s.trim()] *)
Definition trim (s : string) : string := trimEnd (trimStart s).

Fixpoint startsWith (s p : string) : bool :=
  match p, s with
  | EmptyString, _ => true
  | String _ _, EmptyString => false
  | String a p', String b s' => Ascii.eqb a b && startsWith s' p'
  end.

(** [s.includes(sub)] *)
Fixpoint includes (s sub : string) : bool :=
  startsWith s sub ||
  match s with
  | EmptyString => false
  | String _ r => includes r sub
  end.

(** [s.split(re)] for a regular expression [re] that matches exactly the
    single code units satisfying [sep]. *)
Fixpoint split (sep : ascii -> bool) (s : string) : list string :=
  match s with
  | EmptyString => [EmptyString]
  | String c r =>
      if sep c then EmptyString :: split sep r
      else match split sep r with
           | h :: t => String c h :: t
           | [] => [String c EmptyString]
           end
  end.

(** [s.replace(/\s+/g, ' ')]: every maximal run of white space becomes one
    space.  [inRun] tells that the previous code unit was white space. *)
Fixpoint collapseFrom (inRun : bool) (s : string) : string :=
  match s with
  | EmptyString => EmptyString
  | String c r =>
      if isWhiteSpace c
      then (if inRun then collapseFrom true r else String " " (collapseFrom true r))
      else String c (collapseFrom false r)
  end.

Definition collapseWhitespace (s : string) : string := collapseFrom false s.

(** The class of the second [replace] of [canonicalDiet], as the source file
    holds it: the hyphen followed by the code points U+00E2, U+20AC, U+201C,
    U+00E2, U+20AC, U+201D.  Below 256 that is the hyphen and U+00E2. *)
Definition isDashClass (c : ascii) : bool :=
  match nat_of_ascii c with
  | 45 | 226 => true
  | _ => false
  end.

(** [s.replace(/[-...]/g, '-')] *)
Definition replaceDashes (s : string) : string :=
  mapString (fun c => if isDashClass c then "-"%char else c) s.

(** [/^https?:\/\//i.test(s)] for a string [s]. *)
Definition isAbsoluteUrl (s : string) : bool :=
  let l := toLowerCase s in
  startsWith l "http://" || startsWith l "https://".

(** [Boolean(s)] for a string. *)
Definition nonEmpty (s : string) : bool := negb (s =? "").

(* ================================================================== *)
(** ** Synonym tables and property lookup *)

(** The value of an expression [map[v] || fallback] where [map] is an object
    literal: a string, or a built-in that the literal inherits from
    [Object.prototype] ([Builtin "constructor"] is the function [Object],
    [Builtin "__proto__"] is [Object.prototype] itself).  Two such values are
    [===] exactly when they are equal here. *)
Inductive jsvalue : Type :=
| Text (s : string)
| Builtin (name : string).

(** Property names every object literal inherits. *)
Definition objectPrototypeNames : list string :=
  [ "constructor"; "__defineGetter__"; "__defineSetter__"; "hasOwnProperty";
    "__lookupGetter__"; "__lookupSetter__"; "isPrototypeOf";
    "propertyIsEnumerable"; "toString"; "valueOf"; "__proto__";
    "toLocaleString" ].

Definition inb (k : string) (l : list string) : bool :=
  existsb (String.eqb k) l.

Fixpoint ownProperty (table : list (string * string)) (k : string) : option string :=
  match table with
  | [] => None
  | (k', v) :: rest => if k =? k' then Some v else ownProperty rest k
  end.

(** [table[k]]: the own entry, else what the prototype chain holds, else
    [undefined] ([None]). *)
Definition getProperty (table : list (string * string)) (k : string) : option jsvalue :=
  match ownProperty table k with
  | Some v => Some (Text v)
  | None => if inb k objectPrototypeNames then Some (Builtin k) else None
  end.

Definition truthy (v : jsvalue) : bool :=
  match v with
  | Text s => nonEmpty s
  | Builtin _ => true
  end.

(** [a || b] where [a] may be [undefined]. *)
Definition orElse (a : option jsvalue) (b : jsvalue) : jsvalue :=
  match a with
  | Some v => if truthy v then v else b
  | None => b
  end.

Definition cityMap : list (string * string) :=
  [ ("nyc", "New York");
    ("new york", "New York");
    ("new york city", "New York");
    ("los angeles", "Los Angeles");
    ("la", "Los Angeles");
    ("san francisco", "San Francisco");
    ("sf", "San Francisco");
    ("san fran", "San Francisco");
    ("houston", "Houston");
    ("austin", "Austin") ].

(** The key [canonicalCity] looks up: [(value || '').trim().toLowerCase()]. *)
Definition cityKey (s : string) : string := toLowerCase (trim s).

Definition fromNullable (value : option string) : string :=
  match value with
  | Some s => s
  | None => EmptyString
  end.

(** [canonicalCity(value)] for [value : string | null | undefined]. *)
Definition canonicalCity (value : option string) : jsvalue :=
  let v := cityKey (fromNullable value) in
  orElse (getProperty cityMap v) (Text (trim (fromNullable value))).

(** [canonicalCity] applied to a value it returned itself.  On a built-in,
    [(value || '')] is the built-in, which has no [trim]: the call throws a
    TypeError ([None]). *)
Definition canonicalCityOfValue (x : jsvalue) : option jsvalue :=
  match x with
  | Text s => Some (canonicalCity (Some s))
  | Builtin _ => None
  end.

Definition dietMap : list (string * string) :=
  [ ("seed oil free", "seed-oil free");
    ("seed-oil-free", "seed-oil free");
    ("no seed oils", "seed-oil free");
    ("no seed oil", "seed-oil free");
    ("no seed-oils", "seed-oil free");
    ("no seed-oil", "seed-oil free");
    ("no-industrial-seed-oils", "seed-oil free");
    ("no-industrial-seed-oil", "seed-oil free");
    ("seed oil-free", "seed-oil free");
    ("seed-oil- free", "seed-oil free");
    ("plant based", "plant-based");
    ("low fodmap", "low fodmap");
    ("diabetic friendly", "diabetic-friendly");
    ("heart healthy", "heart-healthy");
    ("gluten free", "gluten-free");
    ("dairy free", "dairy-free");
    ("nut free", "nut-free");
    ("soy free", "soy-free");
    ("egg free", "egg-free");
    ("shellfish free", "shellfish-free");
    ("sesame free", "sesame-free");
    ("no added sugar", "no added sugar");
    ("no artificial sweeteners", "no artificial sweeteners");
    ("organic ingredients", "organic ingredients");
    ("locally sourced", "locally sourced") ].

(** The key [canonicalDiet] looks up:
    [value.trim().toLowerCase().replace(/\s+/g, ' ').replace(/[-...]/g, '-')]. *)
Definition dietKey (s : string) : string :=
  replaceDashes (collapseWhitespace (toLowerCase (trim s))).

(** [canonicalDiet(value)] *)
Definition canonicalDiet (value : string) : jsvalue :=
  if negb (nonEmpty value) then Text EmptyString
  else
    let v := dietKey value in
    orElse (getProperty dietMap v) (Text v).

(* ================================================================== *)
(** ** Dynamically typed data: the row fields declared [any] *)

(** A JavaScript value as the backend delivers it (JSON), plus [undefined]
    for an absent property. *)
#[warnings="-register-all"]
Inductive value : Type :=
| Undefined
| Null
| Bool (b : bool)
| Num (x : float)
| Str (s : string)
| Arr (items : list value)
| Obj (props : list (string * value)).

Inductive jstype : Type :=
| TUndefined | TObject | TBoolean | TNumber | TString.

(** [typeof v]; [typeof null] is ['object'], and so is an array's. *)
Definition typeOf (v : value) : jstype :=
  match v with
  | Undefined => TUndefined
  | Null | Arr _ | Obj _ => TObject
  | Bool _ => TBoolean
  | Num _ => TNumber
  | Str _ => TString
  end.

Definition isString (v : value) : bool :=
  match v with Str _ => true | _ => false end.

Definition isObjectType (v : value) : bool :=
  match v with Null | Arr _ | Obj _ => true | _ => false end.

(** [Boolean(v)]: [undefined], [null], [false], [0], [-0], [NaN] and [''] are
    falsy. *)
Definition toBoolean (v : value) : bool :=
  match v with
  | Undefined | Null => false
  | Bool b => b
  | Num x => negb (PrimFloat.eqb x 0 || PrimFloat.is_nan x)
  | Str s => nonEmpty s
  | Arr _ | Obj _ => true
  end.

(** [a || b] *)
Definition vor (a b : value) : value := if toBoolean a then a else b.

Fixpoint lookupProp (props : list (string * value)) (k : string) : value :=
  match props with
  | [] => Undefined
  | (k', v) :: rest => if k =? k' then v else lookupProp rest k
  end.

Definition hasOwn (props : list (string * value)) (k : string) : bool :=
  existsb (fun p => k =? fst p) props.

(** [v.k] for one of the names the code reads off dynamic data ([url],
    [src], [images]), none of which a prototype defines: [None] is the
    TypeError of reading a property of [undefined] or [null]. *)
Definition getField (v : value) (k : string) : option value :=
  match v with
  | Undefined | Null => None
  | Obj props => Some (lookupProp props k)
  | Bool _ | Num _ | Str _ | Arr _ => Some Undefined
  end.

(** [v?.k] *)
Definition getFieldOpt (v : value) (k : string) : value :=
  match getField v k with
  | Some x => x
  | None => Undefined
  end.

(** What the browser provides. *)
Class Host : Type := {
  (** [JSON.parse(text)]; [None] when it throws a SyntaxError. *)
  JSON_parse : string -> option value;
  (** [String(x)] for a number. *)
  numberToString : float -> string;
  (** [new Date().toISOString().split('T')[0]] *)
  todayISO : string;
  (** [new Date(s).getTime()] *)
  dateTime : string -> float
}.

Definition joinComma (parts : list string) : string :=
  String.concat "," parts.

Section Coercion.
Context {host : Host}.

(** [String(v)] as a regular expression's [test] applies it to its
    argument; [None] when the conversion throws.  An array is joined with
    commas, [undefined] and [null] elements giving the empty string; a plain
    object gives ["[object Object]"], unless it has a [toString] entry of its
    own: parsed data is never callable, so the conversion finds no primitive
    and throws a TypeError. *)
Fixpoint toStringValue (v : value) : option string :=
  match v with
  | Undefined => Some "undefined"
  | Null => Some "null"
  | Bool true => Some "true"
  | Bool false => Some "false"
  | Num x => Some (numberToString x)
  | Str s => Some s
  | Arr items =>
      let fix each (l : list value) : option (list string) :=
        match l with
        | [] => Some []
        | x :: rest =>
            match (match x with
                   | Undefined | Null => Some EmptyString
                   | _ => toStringValue x
                   end), each rest with
            | Some s, Some ss => Some (s :: ss)
            | _, _ => None
            end
        end in
      option_map joinComma (each items)
  | Obj props => if hasOwn props "toString" then None else Some "[object Object]"
  end.

(** [/^https?:\/\//i.test(v)] returned [true] (and did not throw). *)
Definition testAbsoluteUrl (v : value) : bool :=
  match toStringValue v with
  | Some s => isAbsoluteUrl s
  | None => false
  end.

End Coercion.

(* ================================================================== *)
(** ** The data model *)

Inductive View : Type :=
| home | results | admin | about | contact | suggest.

Inductive VerificationMethod : Type :=
| CrunchTeamCalled     (* 'Crunch Team Called' *)
| OwnerSubmitted       (* 'Owner Submitted' *)
| CrunchTeamVisited.   (* 'Crunch Team Visited' *)

(** The canonical, UI-facing restaurant ([interface Restaurant]).  [imageUrl]
    is a [value]: the code returns whatever passed the URL test, which is a
    string on every path but one (see [resolvePrimaryImage]). *)
Module Restaurant.
Record t : Type := mk {
  id : Z;
  name : string;
  address : string;
  neighborhood : string;
  city : string;
  oilsUsed : list string;
  oilsAvoided : list string;
  dietaryTags : list string;
  verified : bool;
  verificationDate : option string;
  verificationMethod : option VerificationMethod;
  website : string;
  instagram : string;
  menuLink : string;
  priceRange : string;
  orderType : string;
  sourcingNotes : string;
  imageUrl : value;
  imageUrls : list string;
  rating : float;
  reviewCount : float;
  hours : string;
  cuisine : string;
  lastUpdated : string;
  phone : string;
  email : string;
  latitude : option float;
  longitude : option float;
  outdoorSeating : option bool;
  delivery : option bool;
  familyFriendly : option bool;
  celiacSafe : option bool;
  recommendedDishes : value;
  socialLinks : value
}.
End Restaurant.

(** [oils_used] and [oils_avoided]: [string | string[] | null]; an element
    of the array may itself be null. *)
Inductive OilsField : Type :=
| OilsNull
| OilsString (s : string)
| OilsArray (items : list (option string)).

(** [location]: [string | number | null] *)
Inductive LocationField : Type :=
| LocationNull
| LocationString (s : string)
| LocationNumber (x : float).

(** One row of the join [restaurant_dietary_tags(dietary_tags(name))]; the
    code guards every level with [?.]. *)
Module JoinRow.
Record t : Type := mk {
  dietary_tags : option (option string)   (* dietary_tags?.name *)
}.
End JoinRow.

(** A backend row ([interface RestaurantRow]); [None] is null or absent. *)
Module RestaurantRow.
Record t : Type := mk {
  id : Z;
  name : option string;
  address : option string;
  neighborhood : option string;
  city : option string;
  location : LocationField;
  oils_used : OilsField;
  oils_avoided : OilsField;
  restaurant_dietary_tags : option (list (option JoinRow.t));
  city_rel : option (option string)       (* city_rel?.name *);
  verified : option bool;
  verification_date : option string;
  verification_method : option string;
  website : option string;
  instagram : option string;
  menu_link : option string;
  price_range : option string;
  order_type : option string;
  sourcing_notes : option string;
  image_url : option string;
  image_urls : value;
  rating : option float;
  review_count : option float;
  hours : option string;
  cuisine : option string;
  last_updated : option string;
  phone : option string;
  email : option string;
  latitude : option float;
  longitude : option float;
  outdoor_seating : option bool;
  delivery : option bool;
  family_friendly : option bool;
  celiac_safe : option bool;
  recommended_dishes : value;
  social_links : value
}.
End RestaurantRow.

Inductive SubmissionStatus : Type :=
| pending | approved | rejected.

Module PendingRow.
Record t : Type := mk {
  id : Z;
  name : option string;
  address : option string;
  neighborhood : option string;
  city : option string;
  website : option string;
  notes : option string;
  submitted_date : option string;
  status : option SubmissionStatus
}.
End PendingRow.

Module PendingSubmission.
Record t : Type := mk {
  id : Z;
  name : string;
  address : string;
  neighborhood : string;
  city : string;
  website : string;
  notes : string;
  submittedDate : string;
  status : SubmissionStatus
}.
End PendingSubmission.

(** The payload [toRestaurantInsertFromPending] builds. *)
Module RestaurantInsert.
Record t : Type := mk {
  name : string;
  address : string;
  neighborhood : string;
  city : string;
  oils_used : list string;
  oils_avoided : list string;
  dietary_tags : list string;
  verified : bool;
  verification_date : option string;
  verification_method : option string;
  website : string;
  instagram : string;
  price_range : string;
  order_type : string;
  sourcing_notes : string;
  image_url : string;
  rating : float;
  review_count : float;
  hours : string;
  cuisine : string;
  last_updated : string;
  phone : string;
  email : string
}.
End RestaurantInsert.

Module CityRow.
Record t : Type := mk {
  id : Z;
  name : string
}.
End CityRow.

Module Filters.
Record t : Type := mk {
  diet : list string;
  oils : list string;
  neighborhood : string;
  priceRange : string;
  verified : bool
}.
End Filters.

Inductive SortBy : Type :=
| ByRating | ByName | ByRecent | ByPrice | ByVerified | ByUpdated.

(* ================================================================== *)
(** ** Field normaliser *)

(** The separators of [/[;,]|\n/]. *)
Definition isFieldSeparator (c : ascii) : bool :=
  match nat_of_ascii c with
  | 59 | 44 | 10 => true
  | _ => false
  end.

(** [array.filter(Boolean)] on strings that may be null. *)
Fixpoint filterTruthy (items : list (option string)) : list string :=
  match items with
  | [] => []
  | Some s :: rest => if nonEmpty s then s :: filterTruthy rest else filterTruthy rest
  | None :: rest => filterTruthy rest
  end.

Definition splitToArray (v : OilsField) : list string :=
  match v with
  | OilsArray items => filterTruthy items
  | OilsString s => filter nonEmpty (map trim (split isFieldSeparator s))
  | OilsNull => []
  end.

(** [(row.restaurant_dietary_tags || [])?.map((j) => j?.dietary_tags?.name).filter(Boolean)]
    on a join of the declared type, an array or null; [tagsFromJoinAny] below
    is the expression on a value of any shape, where [map] can throw. *)
Definition tagsFromJoin (row : RestaurantRow.t) : list string :=
  let joins :=
    match RestaurantRow.restaurant_dietary_tags row with
    | Some l => l
    | None => []
    end in
  filterTruthy
    (map (fun j : option JoinRow.t =>
            match j with
            | Some jr =>
                match JoinRow.dietary_tags jr with
                | Some tagName => tagName
                | None => None
                end
            | None => None
            end) joins).

Definition fallbackImage : string :=
  "https://images.unsplash.com/photo-1490474418585-ba9bad8fd0ea?q=80&w=1600&auto=format&fit=crop".

Definition isAbsoluteUrlString (v : value) : bool :=
  match v with
  | Str s => isAbsoluteUrl s
  | _ => false
  end.

Definition isArray (v : value) : bool :=
  match v with Arr _ => true | _ => false end.

(** The keyword lists of the verification classifier. *)
Definition visitedKeywords : list string :=
  [ "crunch team visited"; "visited"; "visit"; "site visit"; "in person";
    "in-person"; "team visited" ].

Definition calledKeywords : list string :=
  [ "crunch team called"; "called"; "call"; "phone"; "phone call";
    "phone-call"; "phone verified"; "phone-verified"; "called by crunch";
    "team called" ].

(** [keywords.some(t => m.includes(t))] *)
Definition matchesAny (keywords : list string) (m : string) : bool :=
  existsb (fun t => includes m t) keywords.

(** The [verificationMethod] field of [mapRestaurantRow]: the raw column is
    free text. *)
Definition classifyVerification (raw : option string) : option VerificationMethod :=
  match raw with
  | None => None
  | Some text =>
      if negb (nonEmpty text) then None
      else
        let m := toLowerCase (trim text) in
        if matchesAny visitedKeywords m then Some CrunchTeamVisited
        else if matchesAny calledKeywords m then Some CrunchTeamCalled
        else Some OwnerSubmitted
  end.

Definition methodText (m : VerificationMethod) : string :=
  match m with
  | CrunchTeamCalled => "Crunch Team Called"
  | OwnerSubmitted => "Owner Submitted"
  | CrunchTeamVisited => "Crunch Team Visited"
  end.

(** [getVerifyLabel(method)] for a raw or canonical method, or null. *)
Definition getVerifyLabel (method : option string) : string :=
  let m := toLowerCase (trim (fromNullable method)) in
  if negb (nonEmpty m) then EmptyString
  else
    let visitMatch := matchesAny visitedKeywords m in
    let callMatch := matchesAny calledKeywords m in
    if visitMatch || callMatch then "Verified By Crunch" else EmptyString.

(** The badge of a canonical restaurant:
    [getVerifyLabel(restaurant.verificationMethod)]. *)
Definition verifyBadge (m : option VerificationMethod) : string :=
  getVerifyLabel (option_map methodText m).

Section Normalizer.
Context {host : Host}.

(** [x.url || x.src] for a truthy [x] *)
Definition urlOrSrc (x : value) : value :=
  vor (getFieldOpt x "url") (getFieldOpt x "src").

(** The [try] block of [resolvePrimaryImage]: [Some v] when it returns [v],
    [None] when it runs to its end or throws (the [catch] is empty). *)
Definition resolveFromImageUrls (iu : value) : option value :=
  let parsed :=
    match iu with
    | Str text => JSON_parse text
    | _ => Some iu
    end in
  match parsed with
  | None => None
  | Some (Arr items) =>
      match find isAbsoluteUrlString items with
      | Some fromString => Some fromString
      | None =>
          match find (fun x => toBoolean x && isObjectType x &&
                               (isString (getFieldOpt x "url") || isString (getFieldOpt x "src")))
                     items with
          | Some fromObj =>
              let cand := urlOrSrc fromObj in
              if testAbsoluteUrl cand then Some cand else None
          | None => None
          end
      end
  | Some (Obj props) =>
      let direct := urlOrSrc (Obj props) in
      if isAbsoluteUrlString direct then Some direct
      else
        match lookupProp props "images" with
        | Arr images =>
            match find (fun x => isAbsoluteUrlString x ||
                                 (toBoolean x && isObjectType x &&
                                  isAbsoluteUrlString (urlOrSrc x)))
                       images with
            | Some (Str s) => Some (Str s)
            | Some cand =>
                let c := urlOrSrc cand in
                if testAbsoluteUrl c then Some c else None
            | None => None
            end
        | _ => None
        end
  | Some (Str s) => if isAbsoluteUrl s then Some (Str s) else None
  | Some _ => None
  end.

Definition resolvePrimaryImage (row : RestaurantRow.t) : value :=
  let primary := trim (fromNullable (RestaurantRow.image_url row)) in
  if nonEmpty primary && isAbsoluteUrl primary then Str primary
  else
    let iuRaw := RestaurantRow.image_urls row in
    let iu := match iuRaw with Str s => Str (trim s) | _ => iuRaw end in
    if negb (toBoolean iu) then Str fallbackImage
    else
      match resolveFromImageUrls iu with
      | Some url => url
      | None =>
          match iu with
          | Str s =>
              let trimmed := trim s in
              if isAbsoluteUrl trimmed then Str trimmed else Str fallbackImage
          | _ => Str fallbackImage
          end
      end.

(** The URLs one array contributes to the gallery. *)
Definition galleryUrls (items : list value) : list string :=
  flat_map (fun x =>
              let url := match x with
                         | Str _ => x
                         | _ => vor (getFieldOpt x "url") (getFieldOpt x "src")
                         end in
              match url with
              | Str s => if isAbsoluteUrl s then [s] else []
              | _ => []
              end) items.

(** [Array.from(new Set(out))]: first occurrences, in order. *)
Fixpoint dedupe (seen : list string) (l : list string) : list string :=
  match l with
  | [] => []
  | x :: rest => if inb x seen then dedupe seen rest else x :: dedupe (x :: seen) rest
  end.

Definition resolveImageArray (row : RestaurantRow.t) : list string :=
  let primary := trim (fromNullable (RestaurantRow.image_url row)) in
  let fromPrimary := if nonEmpty primary && isAbsoluteUrl primary then [primary] else [] in
  let iuRaw := RestaurantRow.image_urls row in
  let fromUrls :=
    if toBoolean iuRaw then
      match (match iuRaw with Str text => JSON_parse text | _ => Some iuRaw end) with
      | Some (Arr items) => galleryUrls items
      | Some (Obj props) =>
          match lookupProp props "images" with
          | Arr images => galleryUrls images
          | _ => []
          end
      | Some _ => []          (* [null.images] throws inside the try *)
      | None => []            (* JSON.parse threw *)
      end
    else [] in
  dedupe [] (fromPrimary ++ fromUrls).

(** [recommendedDishes] and [socialLinks]: parsed when a string, the raw
    value when parsing throws. *)
Definition parseExtra (v : value) : value :=
  if negb (toBoolean v) then Undefined
  else
    match v with
    | Str text =>
        match JSON_parse text with
        | Some parsed => parsed
        | None => v
        end
    | _ => v
    end.

Definition orEmpty (v : option string) : string := fromNullable v.

Definition mapRestaurantRow (row : RestaurantRow.t) : Restaurant.t :=
  {| Restaurant.id := RestaurantRow.id row;
     Restaurant.name := orEmpty (RestaurantRow.name row);
     Restaurant.address := orEmpty (RestaurantRow.address row);
     Restaurant.neighborhood := orEmpty (RestaurantRow.neighborhood row);
     Restaurant.city :=
       match RestaurantRow.city_rel row with
       | Some (Some relName) => relName
       | _ =>
           let c := fromNullable (RestaurantRow.city row) in
           if nonEmpty c then c
           else match RestaurantRow.location row with
                | LocationString s => s
                | _ => EmptyString
                end
       end;
     Restaurant.oilsUsed := splitToArray (RestaurantRow.oils_used row);
     Restaurant.oilsAvoided := splitToArray (RestaurantRow.oils_avoided row);
     Restaurant.dietaryTags := tagsFromJoin row;
     Restaurant.verified :=
       match RestaurantRow.verified row with Some b => b | None => false end;
     Restaurant.verificationDate := RestaurantRow.verification_date row;
     Restaurant.verificationMethod :=
       classifyVerification (RestaurantRow.verification_method row);
     Restaurant.website := orEmpty (RestaurantRow.website row);
     Restaurant.instagram := orEmpty (RestaurantRow.instagram row);
     Restaurant.menuLink := orEmpty (RestaurantRow.menu_link row);
     Restaurant.priceRange :=
       match RestaurantRow.price_range row with Some p => p | None => "$$" end;
     Restaurant.orderType :=
       match RestaurantRow.order_type row with Some o => o | None => "Dine-in" end;
     Restaurant.sourcingNotes := orEmpty (RestaurantRow.sourcing_notes row);
     Restaurant.imageUrl := resolvePrimaryImage row;
     Restaurant.imageUrls := resolveImageArray row;
     Restaurant.rating :=
       match RestaurantRow.rating row with Some x => x | None => 0%float end;
     Restaurant.reviewCount :=
       match RestaurantRow.review_count row with Some x => x | None => 0%float end;
     Restaurant.hours := orEmpty (RestaurantRow.hours row);
     Restaurant.cuisine := orEmpty (RestaurantRow.cuisine row);
     Restaurant.lastUpdated :=
       match RestaurantRow.last_updated row with Some d => d | None => todayISO end;
     Restaurant.phone := orEmpty (RestaurantRow.phone row);
     Restaurant.email := orEmpty (RestaurantRow.email row);
     Restaurant.latitude := RestaurantRow.latitude row;
     Restaurant.longitude := RestaurantRow.longitude row;
     Restaurant.outdoorSeating := RestaurantRow.outdoor_seating row;
     Restaurant.delivery := RestaurantRow.delivery row;
     Restaurant.familyFriendly := RestaurantRow.family_friendly row;
     Restaurant.celiacSafe := RestaurantRow.celiac_safe row;
     Restaurant.recommendedDishes := parseExtra (RestaurantRow.recommended_dishes row);
     Restaurant.socialLinks := parseExtra (RestaurantRow.social_links row) |}.

Definition mapPendingRow (row : PendingRow.t) : PendingSubmission.t :=
  {| PendingSubmission.id := PendingRow.id row;
     PendingSubmission.name := orEmpty (PendingRow.name row);
     PendingSubmission.address := orEmpty (PendingRow.address row);
     PendingSubmission.neighborhood := orEmpty (PendingRow.neighborhood row);
     PendingSubmission.city := orEmpty (PendingRow.city row);
     PendingSubmission.website := orEmpty (PendingRow.website row);
     PendingSubmission.notes := orEmpty (PendingRow.notes row);
     PendingSubmission.submittedDate :=
       match PendingRow.submitted_date row with Some d => d | None => todayISO end;
     PendingSubmission.status :=
       match PendingRow.status row with Some s => s | None => pending end |}.

Definition toRestaurantInsertFromPending (submission : PendingSubmission.t)
  : RestaurantInsert.t :=
  {| RestaurantInsert.name := PendingSubmission.name submission;
     RestaurantInsert.address := PendingSubmission.address submission;
     RestaurantInsert.neighborhood :=
       if nonEmpty (PendingSubmission.neighborhood submission)
       then PendingSubmission.neighborhood submission else "TBD";
     RestaurantInsert.city := PendingSubmission.city submission;
     RestaurantInsert.oils_used := ["To Be Verified"];
     RestaurantInsert.oils_avoided := ["To Be Verified"];
     RestaurantInsert.dietary_tags := ["Pending Review"];
     RestaurantInsert.verified := false;
     RestaurantInsert.verification_date := None;
     RestaurantInsert.verification_method := None;
     RestaurantInsert.website := PendingSubmission.website submission;
     RestaurantInsert.instagram := EmptyString;
     RestaurantInsert.price_range := "$$";
     RestaurantInsert.order_type := "Dine-in";
     RestaurantInsert.sourcing_notes := PendingSubmission.notes submission;
     RestaurantInsert.image_url :=
       "https://images.unsplash.com/photo-1590846406792-0adc7f938f1d?w=400&h=300&fit=crop";
     RestaurantInsert.rating := 0%float;
     RestaurantInsert.review_count := 0%float;
     RestaurantInsert.hours := "TBD";
     RestaurantInsert.cuisine := "TBD";
     RestaurantInsert.last_updated := todayISO;
     RestaurantInsert.phone := EmptyString;
     RestaurantInsert.email := EmptyString |}.

End Normalizer.

(* ================================================================== *)
(** ** The field normaliser on a record of any shape *)

(** [mapRestaurantRow(rowAny: any)] casts its argument to [RestaurantRow]
    without a check.  [mapRestaurantRow] above is the function on the rows
    the interface describes; here it is on whatever the backend returns: a
    [value].  [None] is an exception that leaves the function.  On a row of
    the declared type the two agree ([mapRestaurantRowAny_typed]). *)

(** [a ?? b] *)
Definition coalesce (a b : value) : value :=
  match a with
  | Undefined | Null => b
  | _ => a
  end.

(** [splitToArray(v)] for a [v] of any shape. *)
Definition splitToArrayAny (v : value) : list value :=
  match v with
  | Arr items => filter toBoolean items
  | Str s => map Str (filter nonEmpty (map trim (split isFieldSeparator s)))
  | _ => []
  end.

(** [(row.restaurant_dietary_tags || [])?.map((j) => j?.dietary_tags?.name).filter(Boolean)]:
    the operand of [?.] is never null, so [map] is called on it; a truthy
    value that is not an array has no [map], and the call throws a
    TypeError. *)
Definition tagsFromJoinAny (field : value) : option (list value) :=
  match vor field (Arr []) with
  | Arr joins =>
      Some (filter toBoolean
              (map (fun j => getFieldOpt (getFieldOpt j "dietary_tags") "name") joins))
  | _ => None
  end.

Section NormalizerAny.
Context {host : Host}.

(** [Number(s)] for a string [s]. *)
Variable stringToNumber : string -> float.

(** [Number(v)]; an array or an object is converted to a string first, which
    can throw. *)
Definition toNumber (v : value) : option float :=
  match v with
  | Undefined => Some PrimFloat.nan
  | Null => Some 0%float
  | Bool b => Some (if b then 1%float else 0%float)
  | Num x => Some x
  | Str s => Some (stringToNumber s)
  | Arr _ | Obj _ => option_map stringToNumber (toStringValue v)
  end.

(** [(row.image_url || '').trim()]: only a string has [trim]. *)
Definition primaryImage (image_url : value) : option string :=
  match vor image_url (Str EmptyString) with
  | Str s => Some (trim s)
  | _ => None
  end.

Definition resolvePrimaryImageAny (image_url image_urls : value) : option value :=
  match primaryImage image_url with
  | None => None
  | Some primary =>
      Some (if nonEmpty primary && isAbsoluteUrl primary then Str primary
            else
              let iuRaw := image_urls in
              let iu := match iuRaw with Str s => Str (trim s) | _ => iuRaw end in
              if negb (toBoolean iu) then Str fallbackImage
              else
                match resolveFromImageUrls iu with
                | Some url => url
                | None =>
                    match iu with
                    | Str s =>
                        let trimmed := trim s in
                        if isAbsoluteUrl trimmed then Str trimmed else Str fallbackImage
                    | _ => Str fallbackImage
                    end
                end)
  end.

Definition resolveImageArrayAny (image_url image_urls : value) : option (list string) :=
  match primaryImage image_url with
  | None => None
  | Some primary =>
      let fromPrimary := if nonEmpty primary && isAbsoluteUrl primary then [primary] else [] in
      let iuRaw := image_urls in
      let fromUrls :=
        if toBoolean iuRaw then
          match (match iuRaw with Str text => JSON_parse text | _ => Some iuRaw end) with
          | Some (Arr items) => galleryUrls items
          | Some (Obj props) =>
              match lookupProp props "images" with
              | Arr images => galleryUrls images
              | _ => []
              end
          | Some _ => []
          | None => []
          end
        else [] in
      Some (dedupe [] (fromPrimary ++ fromUrls))
  end.

(** The [verificationMethod] field; [String(raw)] can throw. *)
Definition classifyVerificationAny (field : value) : option value :=
  let raw := coalesce field Null in
  if negb (toBoolean raw) then Some Null
  else
    match toStringValue raw with
    | None => None
    | Some text =>
        let m := toLowerCase (trim text) in
        Some (Str (methodText
                     (if matchesAny visitedKeywords m then CrunchTeamVisited
                      else if matchesAny calledKeywords m then CrunchTeamCalled
                      else OwnerSubmitted)))
    end.

(** [typeof v === 'string' ? v : ''] *)
Definition stringOrEmpty (v : value) : value :=
  if isString v then v else Str EmptyString.

(** [typeof v === 'number' ? v : undefined] *)
Definition numberOrUndefined (v : value) : value :=
  match v with
  | Num _ => v
  | _ => Undefined
  end.

(** [mapRestaurantRow(rowAny)]: the object it returns, property by
    property.  Reading a property of [undefined] or [null] throws. *)
Definition mapRestaurantRowAny (rowAny : value) : option value :=
  match rowAny with
  | Undefined | Null => None
  | _ =>
      let row := getFieldOpt rowAny in
      match tagsFromJoinAny (row "restaurant_dietary_tags"),
            classifyVerificationAny (row "verification_method"),
            resolvePrimaryImageAny (row "image_url") (row "image_urls"),
            resolveImageArrayAny (row "image_url") (row "image_urls"),
            toNumber (coalesce (row "rating") (Num 0%float)),
            toNumber (coalesce (row "review_count") (Num 0%float)) with
      | Some tagsFromJoin, Some verificationMethod, Some imageUrl, Some imageUrls,
        Some rating, Some reviewCount =>
          Some (Obj
            [ ("id", row "id");
              ("name", coalesce (row "name") (Str EmptyString));
              ("address", coalesce (row "address") (Str EmptyString));
              ("neighborhood", coalesce (row "neighborhood") (Str EmptyString));
              ("city", coalesce (getFieldOpt (row "city_rel") "name")
                         (vor (stringOrEmpty (row "city")) (stringOrEmpty (row "location"))));
              ("oilsUsed", Arr (splitToArrayAny (row "oils_used")));
              ("oilsAvoided", Arr (splitToArrayAny (row "oils_avoided")));
              ("dietaryTags", Arr tagsFromJoin);
              ("verified", Bool (toBoolean (row "verified")));
              ("verificationDate", coalesce (row "verification_date") Null);
              ("verificationMethod", verificationMethod);
              ("website", coalesce (row "website") (Str EmptyString));
              ("instagram", coalesce (row "instagram") (Str EmptyString));
              ("menuLink", coalesce (row "menu_link") (Str EmptyString));
              ("priceRange", coalesce (row "price_range") (Str "$$"));
              ("orderType", coalesce (row "order_type") (Str "Dine-in"));
              ("sourcingNotes", coalesce (row "sourcing_notes") (Str EmptyString));
              ("imageUrl", imageUrl);
              ("imageUrls", Arr (map Str imageUrls));
              ("rating", Num rating);
              ("reviewCount", Num reviewCount);
              ("hours", coalesce (row "hours") (Str EmptyString));
              ("cuisine", coalesce (row "cuisine") (Str EmptyString));
              ("lastUpdated", coalesce (row "last_updated") (Str todayISO));
              ("phone", coalesce (row "phone") (Str EmptyString));
              ("email", coalesce (row "email") (Str EmptyString));
              ("latitude", numberOrUndefined (row "latitude"));
              ("longitude", numberOrUndefined (row "longitude"));
              ("outdoorSeating", coalesce (row "outdoor_seating") Undefined);
              ("delivery", coalesce (row "delivery") Undefined);
              ("familyFriendly", coalesce (row "family_friendly") Undefined);
              ("celiacSafe", coalesce (row "celiac_safe") Undefined);
              ("recommendedDishes", parseExtra (row "recommended_dishes"));
              ("socialLinks", parseExtra (row "social_links")) ])
      | _, _, _, _, _, _ => None
      end
  end.

End NormalizerAny.

(** How a typed collection field reads as a [value]. *)
Definition encodeOils (v : OilsField) : value :=
  match v with
  | OilsNull => Null
  | OilsString s => Str s
  | OilsArray items =>
      Arr (map (fun o => match o with Some s => Str s | None => Null end) items)
  end.

Definition encodeJoin (j : option JoinRow.t) : value :=
  match j with
  | None => Null
  | Some jr =>
      Obj [ ("dietary_tags",
             match JoinRow.dietary_tags jr with
             | None => Null
             | Some tagName =>
                 Obj [ ("name", match tagName with Some s => Str s | None => Null end) ]
             end) ]
  end.

Definition encodeJoins (v : option (list (option JoinRow.t))) : value :=
  match v with
  | None => Null
  | Some joins => Arr (map encodeJoin joins)
  end.

(** How a row of the declared type, and the restaurant made from it, read as
    values; a null and an absent column are both [null]. *)
Definition encodeText (v : option string) : value :=
  match v with Some s => Str s | None => Null end.

Definition encodeNumber (v : option float) : value :=
  match v with Some x => Num x | None => Null end.

Definition encodeFlag (v : option bool) : value :=
  match v with Some b => Bool b | None => Null end.

Definition encodeLocation (v : LocationField) : value :=
  match v with
  | LocationNull => Null
  | LocationString s => Str s
  | LocationNumber x => Num x
  end.

Definition encodeCityRel (v : option (option string)) : value :=
  match v with
  | None => Null
  | Some relName => Obj [ ("name", encodeText relName) ]
  end.

Definition orUndefined (v : value) : value :=
  match v with Null => Undefined | _ => v end.

Section Encoding.

(** The number that is an identifier. *)
Variable idNumber : Z -> float.

Definition encodeRow (row : RestaurantRow.t) : value :=
  Obj [ ("id", Num (idNumber (RestaurantRow.id row)));
        ("name", encodeText (RestaurantRow.name row));
        ("address", encodeText (RestaurantRow.address row));
        ("neighborhood", encodeText (RestaurantRow.neighborhood row));
        ("city", encodeText (RestaurantRow.city row));
        ("location", encodeLocation (RestaurantRow.location row));
        ("oils_used", encodeOils (RestaurantRow.oils_used row));
        ("oils_avoided", encodeOils (RestaurantRow.oils_avoided row));
        ("restaurant_dietary_tags", encodeJoins (RestaurantRow.restaurant_dietary_tags row));
        ("city_rel", encodeCityRel (RestaurantRow.city_rel row));
        ("verified", encodeFlag (RestaurantRow.verified row));
        ("verification_date", encodeText (RestaurantRow.verification_date row));
        ("verification_method", encodeText (RestaurantRow.verification_method row));
        ("website", encodeText (RestaurantRow.website row));
        ("instagram", encodeText (RestaurantRow.instagram row));
        ("menu_link", encodeText (RestaurantRow.menu_link row));
        ("price_range", encodeText (RestaurantRow.price_range row));
        ("order_type", encodeText (RestaurantRow.order_type row));
        ("sourcing_notes", encodeText (RestaurantRow.sourcing_notes row));
        ("image_url", encodeText (RestaurantRow.image_url row));
        ("image_urls", RestaurantRow.image_urls row);
        ("rating", encodeNumber (RestaurantRow.rating row));
        ("review_count", encodeNumber (RestaurantRow.review_count row));
        ("hours", encodeText (RestaurantRow.hours row));
        ("cuisine", encodeText (RestaurantRow.cuisine row));
        ("last_updated", encodeText (RestaurantRow.last_updated row));
        ("phone", encodeText (RestaurantRow.phone row));
        ("email", encodeText (RestaurantRow.email row));
        ("latitude", encodeNumber (RestaurantRow.latitude row));
        ("longitude", encodeNumber (RestaurantRow.longitude row));
        ("outdoor_seating", encodeFlag (RestaurantRow.outdoor_seating row));
        ("delivery", encodeFlag (RestaurantRow.delivery row));
        ("family_friendly", encodeFlag (RestaurantRow.family_friendly row));
        ("celiac_safe", encodeFlag (RestaurantRow.celiac_safe row));
        ("recommended_dishes", RestaurantRow.recommended_dishes row);
        ("social_links", RestaurantRow.social_links row) ].

Definition encodeRestaurant (r : Restaurant.t) : value :=
  Obj [ ("id", Num (idNumber (Restaurant.id r)));
        ("name", Str (Restaurant.name r));
        ("address", Str (Restaurant.address r));
        ("neighborhood", Str (Restaurant.neighborhood r));
        ("city", Str (Restaurant.city r));
        ("oilsUsed", Arr (map Str (Restaurant.oilsUsed r)));
        ("oilsAvoided", Arr (map Str (Restaurant.oilsAvoided r)));
        ("dietaryTags", Arr (map Str (Restaurant.dietaryTags r)));
        ("verified", Bool (Restaurant.verified r));
        ("verificationDate", encodeText (Restaurant.verificationDate r));
        ("verificationMethod",
         encodeText (option_map methodText (Restaurant.verificationMethod r)));
        ("website", Str (Restaurant.website r));
        ("instagram", Str (Restaurant.instagram r));
        ("menuLink", Str (Restaurant.menuLink r));
        ("priceRange", Str (Restaurant.priceRange r));
        ("orderType", Str (Restaurant.orderType r));
        ("sourcingNotes", Str (Restaurant.sourcingNotes r));
        ("imageUrl", Restaurant.imageUrl r);
        ("imageUrls", Arr (map Str (Restaurant.imageUrls r)));
        ("rating", Num (Restaurant.rating r));
        ("reviewCount", Num (Restaurant.reviewCount r));
        ("hours", Str (Restaurant.hours r));
        ("cuisine", Str (Restaurant.cuisine r));
        ("lastUpdated", Str (Restaurant.lastUpdated r));
        ("phone", Str (Restaurant.phone r));
        ("email", Str (Restaurant.email r));
        ("latitude", orUndefined (encodeNumber (Restaurant.latitude r)));
        ("longitude", orUndefined (encodeNumber (Restaurant.longitude r)));
        ("outdoorSeating", orUndefined (encodeFlag (Restaurant.outdoorSeating r)));
        ("delivery", orUndefined (encodeFlag (Restaurant.delivery r)));
        ("familyFriendly", orUndefined (encodeFlag (Restaurant.familyFriendly r)));
        ("celiacSafe", orUndefined (encodeFlag (Restaurant.celiacSafe r)));
        ("recommendedDishes", Restaurant.recommendedDishes r);
        ("socialLinks", Restaurant.socialLinks r) ].

End Encoding.

(* ================================================================== *)
(** ** City derivation and the filter/sort engine *)

(** The ordered synonym list of [getCity]. *)
Definition syns : list (string * string) :=
  [ ("nyc", "New York");
    ("new york city", "New York");
    ("new york", "New York");
    ("los angeles", "Los Angeles");
    ("la", "Los Angeles");
    ("san francisco", "San Francisco");
    ("san fran", "San Francisco");
    ("sf", "San Francisco");
    ("houston", "Houston");
    ("austin", "Austin") ].

Definition knownCities : list string :=
  [ "New York"; "Los Angeles"; "San Francisco"; "Houston"; "Austin" ].

Definition getCity (r : Restaurant.t) : jsvalue :=
  if nonEmpty (Restaurant.city r) && nonEmpty (trim (Restaurant.city r))
  then canonicalCity (Some (Restaurant.city r))
  else
    let src :=
      toLowerCase (Restaurant.address r ++ " " ++ Restaurant.neighborhood r)%string in
    match find (fun entry => includes src (fst entry)) syns with
    | Some (_, cityName) => Text cityName
    | None =>
        match find (fun c => includes src (toLowerCase c)) knownCities with
        | Some c => Text c
        | None => Text EmptyString
        end
    end.

(** [a === b] on values of lookups. *)
Definition jsvalue_eqb (a b : jsvalue) : bool :=
  match a, b with
  | Text s, Text t => s =? t
  | Builtin m, Builtin n => m =? n
  | _, _ => false
  end.

(** [set.has(d)] for [set = new Set(values)] *)
Definition setHas (values : list jsvalue) (d : jsvalue) : bool :=
  existsb (jsvalue_eqb d) values.

(** The predicate of [restaurants.filter(...)] in [filteredRestaurants]. *)
Definition matchesFilters (selectedCity searchQuery : string) (selectedFilters : Filters.t)
    (restaurant : Restaurant.t) : bool :=
  let city := getCity restaurant in
  let matchesCity := jsvalue_eqb city (canonicalCity (Some selectedCity)) in
  let q := toLowerCase searchQuery in
  let matchesSearch :=
    includes (toLowerCase (Restaurant.name restaurant)) q ||
    includes (toLowerCase (Restaurant.cuisine restaurant)) q ||
    includes (toLowerCase (Restaurant.neighborhood restaurant)) q in
  let dbDietSet := map canonicalDiet (Restaurant.dietaryTags restaurant) in
  let selectedDiet := map canonicalDiet (Filters.diet selectedFilters) in
  let matchesDiet :=
    (Nat.eqb (List.length selectedDiet) 0) || existsb (setHas dbDietSet) selectedDiet in
  let matchesOils :=
    (Nat.eqb (List.length (Filters.oils selectedFilters)) 0) ||
    existsb (fun oil => inb oil (Restaurant.oilsUsed restaurant))
            (Filters.oils selectedFilters) in
  let matchesNeighborhood :=
    negb (nonEmpty (Filters.neighborhood selectedFilters)) ||
    (Restaurant.neighborhood restaurant =? Filters.neighborhood selectedFilters) in
  let matchesPrice :=
    negb (nonEmpty (Filters.priceRange selectedFilters)) ||
    (Restaurant.priceRange restaurant =? Filters.priceRange selectedFilters) in
  let matchesVerified :=
    negb (Filters.verified selectedFilters) || Restaurant.verified restaurant in
  matchesCity && matchesSearch && matchesDiet && matchesOils &&
  matchesNeighborhood && matchesPrice && matchesVerified.

(** The sign of a comparator's result: negative puts [a] first, positive
    puts [b] first, zero and NaN leave the pair as it is. *)
Definition signOfFloat (x : float) : comparison :=
  if PrimFloat.ltb x 0 then Lt
  else if PrimFloat.ltb 0 x then Gt
  else Eq.

Definition signOfZ (z : Z) : comparison := Z.compare z 0.

Definition boolToZ (b : bool) : Z := if b then 1%Z else 0%Z.

Section Engine.
Context {host : Host}.

(** The comparator handed to [filtered.sort]. *)
Definition compareBy (sortBy : SortBy) (a b : Restaurant.t) : comparison :=
  match sortBy with
  | ByRating => signOfFloat (Restaurant.rating b - Restaurant.rating a)%float
  | ByPrice =>
      signOfZ (Z.of_nat (String.length (Restaurant.priceRange a)) -
               Z.of_nat (String.length (Restaurant.priceRange b)))
  | ByVerified =>
      signOfZ (boolToZ (Restaurant.verified b) - boolToZ (Restaurant.verified a))
  | ByUpdated =>
      signOfFloat (dateTime (Restaurant.lastUpdated b) -
                   dateTime (Restaurant.lastUpdated a))%float
  | ByName | ByRecent => Eq
  end.

(** [Array.prototype.sort] is stable: for a consistent comparator its
    result is this insertion sort's. *)
Fixpoint insertSorted {A : Type} (cmp : A -> A -> comparison) (x : A) (l : list A)
  : list A :=
  match l with
  | [] => [x]
  | y :: rest =>
      match cmp x y with
      | Gt => y :: insertSorted cmp x rest
      | _ => x :: l
      end
  end.

Definition sortWith {A : Type} (cmp : A -> A -> comparison) (l : list A) : list A :=
  fold_right (insertSorted cmp) [] l.

(** The memoised [filteredRestaurants]. *)
Definition filteredRestaurants (restaurants : list Restaurant.t) (searchQuery : string)
    (selectedFilters : Filters.t) (selectedCity : string) (sortBy : SortBy)
  : list Restaurant.t :=
  let filtered := filter (matchesFilters selectedCity searchQuery selectedFilters) restaurants in
  sortWith (compareBy sortBy) filtered.

End Engine.

(* ================================================================== *)
(** ** View state: persisted value and URL fragment *)

Definition viewName (v : View) : string :=
  match v with
  | home => "home"
  | results => "results"
  | admin => "admin"
  | about => "about"
  | contact => "contact"
  | suggest => "suggest"
  end.

Definition View_eqb (a b : View) : bool := viewName a =? viewName b.

(** [hash.replace(/^#\/?/, '')] *)
Definition stripHashPrefix (hash : string) : string :=
  match hash with
  | String "#" (String "/" rest) => rest
  | String "#" rest => rest
  | _ => hash
  end.

Definition viewFromHash (hash : string) : View :=
  let h := toLowerCase (stripHashPrefix hash) in
  if h =? "home" then home
  else if h =? "results" then results
  else if h =? "about" then about
  else if h =? "contact" then contact
  else if h =? "suggest" then suggest
  else if h =? "admin" then admin
  else home.

(** What [localStorage.getItem('crunch.currentView')] does: it throws, or
    returns the stored string or null. *)
Inductive StorageRead : Type :=
| StorageThrows
| StorageValue (saved : option string).

Definition allowed : list View := [home; results; about; contact; suggest; admin].

Definition getInitialView (read : StorageRead) : View :=
  match read with
  | StorageValue (Some saved) =>
      match find (fun v => viewName v =? saved) allowed with
      | Some v => v
      | None => home
      end
  | StorageValue None | StorageThrows => home
  end.

(** The [hashchange] listener. *)
Definition onHashChange (hash : string) : View := viewFromHash hash.

(* ================================================================== *)
(** ** Backend answers and application state *)

(** The city clause of the restaurants query: [.eq('location', cityId)] or
    [.eq('cities.name', targetCity)]. *)
Inductive CityFilter : Type :=
| ByLocation (cityId : Z)
| ByCityName (targetCity : jsvalue).

(** [.range(from, to).order('last_updated', { ascending: false })] with the
    city clause. *)
Module RestaurantsQuery.
Record t : Type := mk {
  from : Z;
  to : Z;
  cityFilter : CityFilter
}.
End RestaurantsQuery.

(** [{ data, error, count }]; [error] carries the message. *)
Module RestaurantsResponse.
Record t : Type := mk {
  data : option (list RestaurantRow.t);
  error : option string;
  count : option Z
}.
End RestaurantsResponse.

Module PendingResponse.
Record t : Type := mk {
  data : option (list PendingRow.t);
  error : option string
}.
End PendingResponse.

Module InsertResponse.
Record t : Type := mk {
  data : option RestaurantRow.t;
  error : option string
}.
End InsertResponse.

(** The answers of the hosted backend to the requests of one operation. *)
Record Backend : Type := mkBackend {
  selectRestaurants : RestaurantsQuery.t -> RestaurantsResponse.t;
  selectPending : PendingResponse.t;
  insertRestaurant : RestaurantInsert.t -> InsertResponse.t;
  (** [Some message] when the delete fails *)
  deletePending : Z -> option string
}.

Inductive ToastType : Type :=
| success | error | info.

(** What an operation does to the outside, in order. *)
Inductive Effect : Type :=
| InsertRestaurantRequest (payload : RestaurantInsert.t)
| DeletePendingRequest (submissionId : Z)
| RestaurantsRequest (query : RestaurantsQuery.t)
| PendingRequest
| ShowToast (message : string) (type : ToastType).

Module AppState.
Record t : Type := mk {
  restaurants : list Restaurant.t;
  page : Z;
  hasMore : bool;
  loading : bool;
  loadError : option string;
  pendingSubmissions : list PendingSubmission.t;
  selectedCity : string;
  cityOptions : list CityRow.t
}.

Definition setRestaurants (v : list Restaurant.t) (st : t) : t :=
  mk v (page st) (hasMore st) (loading st) (loadError st)
     (pendingSubmissions st) (selectedCity st) (cityOptions st).

Definition setPage (v : Z) (st : t) : t :=
  mk (restaurants st) v (hasMore st) (loading st) (loadError st)
     (pendingSubmissions st) (selectedCity st) (cityOptions st).

Definition setHasMore (v : bool) (st : t) : t :=
  mk (restaurants st) (page st) v (loading st) (loadError st)
     (pendingSubmissions st) (selectedCity st) (cityOptions st).

Definition setLoading (v : bool) (st : t) : t :=
  mk (restaurants st) (page st) (hasMore st) v (loadError st)
     (pendingSubmissions st) (selectedCity st) (cityOptions st).

Definition setLoadError (v : option string) (st : t) : t :=
  mk (restaurants st) (page st) (hasMore st) (loading st) v
     (pendingSubmissions st) (selectedCity st) (cityOptions st).

Definition setPendingSubmissions (v : list PendingSubmission.t) (st : t) : t :=
  mk (restaurants st) (page st) (hasMore st) (loading st) (loadError st)
     v (selectedCity st) (cityOptions st).
End AppState.

(* ================================================================== *)
(** ** Pagination / fetch coordinator *)

Definition pageSize : Z := 20.

(** The query [fetchData(reset)] builds from the state it closes over. *)
Definition fetchQuery (reset : bool) (st : AppState.t) : RestaurantsQuery.t :=
  let nextPage := if reset then 0%Z else AppState.page st in
  let from := (nextPage * pageSize)%Z in
  let to := (from + pageSize - 1)%Z in
  let targetCity := canonicalCity (Some (AppState.selectedCity st)) in
  let matched :=
    find (fun c => jsvalue_eqb (canonicalCity (Some (CityRow.name c))) targetCity)
         (AppState.cityOptions st) in
  {| RestaurantsQuery.from := from;
     RestaurantsQuery.to := to;
     RestaurantsQuery.cityFilter :=
       match matched with
       | Some c => ByLocation (CityRow.id c)
       | None => ByCityName targetCity
       end |}.

(** What [fetchData] does before its first [await]. *)
Definition beginFetch (st : AppState.t) : AppState.t :=
  AppState.setLoadError None (AppState.setLoading true st).

Section Coordinator.
Context {host : Host}.

(** The branch on the restaurants answer. *)
Definition applyRestaurants (reset : bool) (query : RestaurantsQuery.t)
    (answer : RestaurantsResponse.t) (st : AppState.t) : AppState.t :=
  match RestaurantsResponse.error answer with
  | Some message =>
      AppState.setLoadError (Some ("Failed to load restaurants: " ++ message)%string) st
  | None =>
      match RestaurantsResponse.data answer with
      | Some restaurantsData =>
          let mapped := map mapRestaurantRow restaurantsData in
          let st1 :=
            AppState.setRestaurants
              (if reset then mapped else AppState.restaurants st ++ mapped) st in
          let st2 :=
            AppState.setHasMore
              (match RestaurantsResponse.count answer with
               | Some count => (RestaurantsQuery.to query + 1 <? count)%Z
               | None => (Z.of_nat (List.length restaurantsData) =? pageSize)%Z
               end) st1 in
          AppState.setPage (if reset then 1%Z else (AppState.page st2 + 1)%Z) st2
      | None => st
      end
  end.

(** The branch on the pending-submissions answer. *)
Definition applyPending (answer : PendingResponse.t) (st : AppState.t) : AppState.t :=
  match PendingResponse.error answer with
  | Some message =>
      AppState.setLoadError
        (match AppState.loadError st with
         | Some previous => Some previous
         | None => Some ("Failed to load pending submissions: " ++ message)%string
         end) st
  | None =>
      match PendingResponse.data answer with
      | Some pendingData => AppState.setPendingSubmissions (map mapPendingRow pendingData) st
      | None => st
      end
  end.

(** The rest of [fetchData], from the first answer on. *)
Definition completeFetch (backend : Backend) (reset : bool) (st : AppState.t) : AppState.t :=
  let query := fetchQuery reset st in
  let st1 := applyRestaurants reset query (selectRestaurants backend query) st in
  let st2 := applyPending (selectPending backend) st1 in
  AppState.setLoading false st2.

(** [fetchData(reset)] run to its end against the backend's answers. *)
Definition fetchData (backend : Backend) (reset : bool) (st : AppState.t) : AppState.t :=
  completeFetch backend reset (beginFetch st).

(* ================================================================== *)
(** ** Moderation *)

Definition samePendingId (submissionId : Z) (s : PendingSubmission.t) : bool :=
  (PendingSubmission.id s =? submissionId)%Z.

(** [approveSubmission(submissionId)]: the state when the function returns
    and what it did.  Its last statement starts [fetchData(true)] without
    awaiting it; that call's answers are handled by [completeFetch] later. *)
Definition approveSubmission (backend : Backend) (submissionId : Z) (st : AppState.t)
  : AppState.t * list Effect :=
  match find (samePendingId submissionId) (AppState.pendingSubmissions st) with
  | None => (st, [])
  | Some submission =>
      let newRestaurantInsert := toRestaurantInsertFromPending submission in
      let inserted := insertRestaurant backend newRestaurantInsert in
      match InsertResponse.error inserted with
      | Some message =>
          (st, [ InsertRestaurantRequest newRestaurantInsert;
                 ShowToast ("Approve failed: " ++ message)%string error ])
      | None =>
          let deleteErr := deletePending backend submissionId in
          let warning :=
            match deleteErr with
            | Some message =>
                [ ShowToast ("Warning: added to restaurants but failed to remove pending: "
                             ++ message)%string error ]
            | None => []
            end in
          let st1 :=
            match InsertResponse.data inserted with
            | Some row =>
                AppState.setRestaurants
                  (AppState.restaurants st ++ [mapRestaurantRow row]) st
            | None => st
            end in
          let st2 :=
            AppState.setPendingSubmissions
              (filter (fun s => negb (samePendingId submissionId s))
                      (AppState.pendingSubmissions st1)) st1 in
          (beginFetch st2,
           [ InsertRestaurantRequest newRestaurantInsert;
             DeletePendingRequest submissionId ] ++ warning ++
           [ ShowToast "Submission approved and added to listings!" success;
             RestaurantsRequest (fetchQuery true st) ])
      end
  end.

End Coordinator.

(* ================================================================== *)
(** ** Filter selection and the home page *)

(** [keyof Filters] *)
Inductive FilterKey : Type :=
| KeyDiet | KeyOils | KeyNeighborhood | KeyPriceRange | KeyVerified.

(** [value: string | boolean] *)
Inductive FilterValue : Type :=
| StringValue (s : string)
| BooleanValue (b : bool).

(** [exists ? arr.filter(item => item !== strVal) : [...arr, strVal]] *)
Definition nextArr (arr : list string) (strVal : string) : list string :=
  if inb strVal arr then filter (fun item => negb (item =? strVal)) arr
  else arr ++ [strVal].

(** The updater [handleFilterChange(type, value)] hands to
    [setSelectedFilters].  The casts [value as string] are unchecked: a
    boolean passed for a string-typed key would be stored as it is, and the
    object would no longer be a [Filters]; that is [None]. *)
Definition handleFilterChange (type : FilterKey) (value : FilterValue) (prev : Filters.t)
  : option Filters.t :=
  match type, value with
  | KeyDiet, StringValue strVal =>
      Some (Filters.mk (nextArr (Filters.diet prev) strVal) (Filters.oils prev)
              (Filters.neighborhood prev) (Filters.priceRange prev) (Filters.verified prev))
  | KeyOils, StringValue strVal =>
      Some (Filters.mk (Filters.diet prev) (nextArr (Filters.oils prev) strVal)
              (Filters.neighborhood prev) (Filters.priceRange prev) (Filters.verified prev))
  | KeyVerified, _ =>
      Some (Filters.mk (Filters.diet prev) (Filters.oils prev)
              (Filters.neighborhood prev) (Filters.priceRange prev)
              (match value with
               | StringValue s => nonEmpty s
               | BooleanValue b => b
               end))
  | KeyPriceRange, StringValue s =>
      Some (Filters.mk (Filters.diet prev) (Filters.oils prev)
              (Filters.neighborhood prev) s (Filters.verified prev))
  | KeyNeighborhood, StringValue s =>
      Some (Filters.mk (Filters.diet prev) (Filters.oils prev)
              s (Filters.priceRange prev) (Filters.verified prev))
  | _, BooleanValue _ => None
  end.

Definition clearAllDietFilters (prev : Filters.t) : Filters.t :=
  Filters.mk [] (Filters.oils prev) (Filters.neighborhood prev)
             (Filters.priceRange prev) (Filters.verified prev).

(** [clearFilters()]: the new [selectedFilters] and the new [searchQuery]. *)
Definition clearFilters : Filters.t * string :=
  ({| Filters.diet := [];
      Filters.oils := [];
      Filters.neighborhood := EmptyString;
      Filters.priceRange := EmptyString;
      Filters.verified := false |},
   EmptyString).

(** [restaurants.filter(r => getCity(r) === canonicalCity(selectedCity))] *)
Definition inCity (restaurants : list Restaurant.t) (selectedCity : string)
  : list Restaurant.t :=
  filter (fun r => jsvalue_eqb (getCity r) (canonicalCity (Some selectedCity))) restaurants.

(** [homeFeatured]: the copy sorted by [b.rating - a.rating], cut after
    three. *)
Definition homeFeatured (restaurants : list Restaurant.t) (selectedCity : string)
  : list Restaurant.t :=
  let sorted :=
    sortWith (fun a b => signOfFloat (Restaurant.rating b - Restaurant.rating a)%float)
             (inCity restaurants selectedCity) in
  firstn 3 sorted.

(** [set.add(c)] on a [Set] kept in insertion order. *)
Definition setAdd (set : list jsvalue) (c : jsvalue) : list jsvalue :=
  if setHas set c then set else set ++ [c].

(** [dbCities]: [Array.from(set)] after the loop over the restaurants. *)
Definition dbCities (restaurants : list Restaurant.t) : list jsvalue :=
  fold_left (fun set r => let c := getCity r in if truthy c then setAdd set c else set)
            restaurants [].

Module HomeStats.
Record t : Type := mk {
  totalInCity : nat;
  verifiedInCity : nat;
  citiesCovered : nat;
  avgRating : float
}.
End HomeStats.

(** [r.rating || 0] *)
Definition ratingOrZero (x : float) : float :=
  if PrimFloat.eqb x 0 || PrimFloat.is_nan x then 0%float else x.

(** An array length as a number. *)
Definition lengthToFloat (n : nat) : float :=
  SF2Prim (binary_normalize prec emax (Z.of_nat n) 0 false).

Definition homeStats (restaurants : list Restaurant.t) (selectedCity : string)
    (coverageCities : list string) (verifiedInSelectedCity : nat) : HomeStats.t :=
  let inCity := inCity restaurants selectedCity in
  let totalInCity := List.length inCity in
  let avg :=
    if (0 <? totalInCity)%nat
    then (fold_left (fun acc r => acc + ratingOrZero (Restaurant.rating r)) inCity 0
          / lengthToFloat totalInCity)%float
    else 0%float in
  {| HomeStats.totalInCity := totalInCity;
     HomeStats.verifiedInCity := verifiedInSelectedCity;
     HomeStats.citiesCovered :=
       if Nat.eqb (List.length coverageCities) 0
       then List.length (dbCities restaurants)
       else List.length coverageCities;
     HomeStats.avgRating := avg |}.

(** [cityAliases(canon)] *)
Definition cityAliases (canon : string) : list string :=
  if canon =? "New York" then ["New York"; "NYC"; "New York City"]
  else if canon =? "Los Angeles" then ["Los Angeles"; "LA"]
  else if canon =? "San Francisco" then ["San Francisco"; "SF"; "San Fran"]
  else if canon =? "Houston" then ["Houston"]
  else if canon =? "Austin" then ["Austin"]
  else filter nonEmpty [canon].

(* ================================================================== *)
(** ** Home page counters *)

(** The answer to [select('id, verification_method')]: a row as the counting
    code reads it, [(row as any)?.verification_method ?? null], a null row
    being [None]. *)
Module VerificationResponse.
Record t : Type := mk {
  data : option (list (option (option string)));
  error : option string
}.
End VerificationResponse.




(** A row of [select('location, cities!inner(name)')], read through
    [row?.cities?.name]. *)
Module CoverageRow.
Record t : Type := mk {
  cities : option (option string)   (* cities?.name *)
}.
End CoverageRow.

Module CoverageResponse.
Record t : Type := mk {
  data : option (list (option CoverageRow.t));
  error : option string
}.
End CoverageResponse.

(** [set.add(n)] on a [Set<string>] kept in insertion order. *)
Definition addName (set : list string) (n : string) : list string :=
  if inb n set then set else set ++ [n].

(** [refreshCoverageCities]: the new [coverageCities],
    [Array.from(set).sort()]; the default sort compares code units. *)
Definition refreshCoverageCities (answer : CoverageResponse.t)
    (coverageCities : list string) : list string :=
  match CoverageResponse.error answer, CoverageResponse.data answer with
  | None, Some rows =>
      let set :=
        fold_left
          (fun set row =>
             match row with
             | Some (CoverageRow.mk (Some (Some n))) =>
                 if nonEmpty n then addName set n else set
             | _ => set
             end)
          rows [] in
      sortWith String.compare set
  | _, _ => coverageCities
  end.

(* ================================================================== *)
(** ** Suggesting a restaurant *)

(** [normalizeUrl(value)]: the scheme is added when missing. *)
Definition normalizeUrl (value : string) : string :=
  let v := trim value in
  if negb (nonEmpty v) then EmptyString
  else if isAbsoluteUrl v then v
  else ("https://" ++ v)%string.

(** [interface Submission], the state of the suggestion form. *)
Module Submission.
Record t : Type := mk {
  name : string;
  address : string;
  neighborhood : string;
  city : string;
  website : string;
  notes : string
}.
End Submission.

(** The row [handleSubmission] inserts into [restaurant_suggestions]. *)
Module SuggestionPayload.
Record t : Type := mk {
  name : string;
  address : string;
  neighborhood : string;
  city : string;
  website : option string;
  notes : string
}.
End SuggestionPayload.

Module SuggestState.
Record t : Type := mk {
  newSubmission : Submission.t;
  showSubmissionForm : bool
}.
End SuggestState.

Inductive SuggestEffect : Type :=
| InsertSuggestionRequest (payload : SuggestionPayload.t)
| Notify (message : string) (type : ToastType).

(** [handleSubmission()]: the promised boolean, the state and what was done.
    [insertSuggestion] is the backend's answer to the insert: [Some message]
    is its error. *)
Definition handleSubmission (insertSuggestion : SuggestionPayload.t -> option string)
    (st : SuggestState.t) : bool * SuggestState.t * list SuggestEffect :=
  let newSubmission := SuggestState.newSubmission st in
  if negb (nonEmpty (trim (Submission.name newSubmission))) ||
     negb (nonEmpty (trim (Submission.address newSubmission)))
  then (false, st, [ Notify "Please fill in the restaurant name and address." error ])
  else
    let payload :=
      {| SuggestionPayload.name := Submission.name newSubmission;
         SuggestionPayload.address := Submission.address newSubmission;
         SuggestionPayload.neighborhood := Submission.neighborhood newSubmission;
         SuggestionPayload.city := Submission.city newSubmission;
         SuggestionPayload.website :=
           (let url := normalizeUrl (Submission.website newSubmission) in
            if nonEmpty url then Some url else None);
         SuggestionPayload.notes := Submission.notes newSubmission |} in
    match insertSuggestion payload with
    | Some message =>
        (false, st,
         [ InsertSuggestionRequest payload;
           Notify ("Failed to submit: " ++ message)%string error ])
    | None =>
        (true,
         {| SuggestState.newSubmission :=
              {| Submission.name := EmptyString;
                 Submission.address := EmptyString;
                 Submission.neighborhood := EmptyString;
                 Submission.city := "NYC";
                 Submission.website := EmptyString;
                 Submission.notes := EmptyString |};
            SuggestState.showSubmissionForm := false |},
         [ InsertSuggestionRequest payload;
           Notify "Thank you for your submission! We will review it and add it to our directory."
                  success ])
    end.

(* ================================================================== *)
(** ** Rejecting a pending submission *)

(** [rejectSubmission(submissionId)]: the state when the function returns
    and what it did; as in [approveSubmission], the trailing [fetchData(true)]
    is started and not awaited. *)
Definition rejectSubmission (backend : Backend) (submissionId : Z) (st : AppState.t)
  : AppState.t * list Effect :=
  match deletePending backend submissionId with
  | Some message =>
      (st, [ DeletePendingRequest submissionId;
             ShowToast ("Failed to reject: " ++ message)%string error ])
  | None =>
      let st1 :=
        AppState.setPendingSubmissions
          (filter (fun s => negb (samePendingId submissionId s))
                  (AppState.pendingSubmissions st)) st in
      (beginFetch st1,
       [ DeletePendingRequest submissionId;
         ShowToast "Submission rejected and removed." success;
         RestaurantsRequest (fetchQuery true st) ])
  end.

(* ================================================================== *)
(** ** Navigation *)

(** What the view code reads and writes in the browser: the URL fragment
    ([window.location.hash]) and the entry ['crunch.currentView'] of
    [localStorage]. *)
Module Browser.
Record t : Type := mk {
  hash : string;
  stored : option string
}.
End Browser.

(** The effect that keeps the fragment in step with the view, which is also
    the second half of [navigate]:
    [const target = `#/${view}`; if (hash !== target) hash = target]. *)
Definition syncHash (currentView : View) (b : Browser.t) : Browser.t :=
  let target := ("#/" ++ viewName currentView)%string in
  if negb (Browser.hash b =? target) then Browser.mk target (Browser.stored b) else b.

(** [navigate(view)]: the view it sets and the browser it leaves. *)
Definition navigate (view : View) (b : Browser.t) : View * Browser.t :=
  (view, syncHash view b).

(** The effect [try { localStorage.setItem('crunch.currentView', currentView) } catch {}];
    [throws] tells whether [setItem] throws. *)
Definition persistView (throws : bool) (currentView : View) (b : Browser.t) : Browser.t :=
  if throws then b else Browser.mk (Browser.hash b) (Some (viewName currentView)).

(* ================================================================== *)
(** ** The view after mount: commits, effects and [hashchange] events *)

(** [localStorage.getItem('crunch.currentView')] as [getInitialView] sees it;
    [getThrows] tells whether [getItem] throws. *)
Definition readStorage (getThrows : bool) (b : Browser.t) : StorageRead :=
  if getThrows then StorageThrows else StorageValue (Browser.stored b).

(** The component between two steps: the committed [currentView], the
    [setCurrentView] calls not yet rendered (oldest first), the browser, and
    the [hashchange] events fired and not yet delivered. *)
Module ViewState.
Record t : Type := mk {
  currentView : View;
  queued : list View;
  browser : Browser.t;
  hashchanges : nat
}.
End ViewState.

(** The two effects with the dependency [[currentView]], in the order of the
    source: the hash-sync effect, then the persist effect.  Assigning a
    fragment that differs from the present one fires one [hashchange]. *)
Definition viewEffects (setThrows : bool) (currentView : View) (b : Browser.t) (fired : nat)
  : Browser.t * nat :=
  let target := ("#/" ++ viewName currentView)%string in
  (persistView setThrows currentView (syncHash currentView b),
   if negb (Browser.hash b =? target) then S fired else fired).

(** The first commit.  [useState(getInitialView)] gives the view of the
    first render; then its effects run in the order of the source: the mount
    effect, which reads the fragment, calls [setCurrentView(initial)] when
    [initial !== currentView] and registers the listener; the hash-sync
    effect and the persist effect, both with the [currentView] of this
    render. *)
Definition mount (getThrows setThrows : bool) (b : Browser.t) : ViewState.t :=
  let currentView := getInitialView (readStorage getThrows b) in
  let initial := viewFromHash (Browser.hash b) in
  let queued := if negb (View_eqb initial currentView) then [initial] else [] in
  let (b', fired) := viewEffects setThrows currentView b 0 in
  ViewState.mk currentView queued b' fired.

(** A re-render: the queued values are applied in order, the last one
    stands; when [currentView] changed, its two effects run again. *)
Definition render (setThrows : bool) (st : ViewState.t) : ViewState.t :=
  let next := last (ViewState.queued st) (ViewState.currentView st) in
  if View_eqb next (ViewState.currentView st)
  then ViewState.mk (ViewState.currentView st) [] (ViewState.browser st)
                    (ViewState.hashchanges st)
  else
    let (b', fired) := viewEffects setThrows next (ViewState.browser st)
                                   (ViewState.hashchanges st) in
    ViewState.mk next [] b' fired.

(** The delivery of one [hashchange] event: the listener reads the fragment
    as it is then and calls [setCurrentView]. *)
Definition deliver (st : ViewState.t) : ViewState.t :=
  ViewState.mk (ViewState.currentView st)
               (ViewState.queued st ++ [onHashChange (Browser.hash (ViewState.browser st))])
               (ViewState.browser st)
               (pred (ViewState.hashchanges st)).

(** What can happen next: React renders the queued updates, or the browser
    delivers a pending event.  Nothing in the source orders the two. *)
Inductive viewStep (setThrows : bool) : ViewState.t -> ViewState.t -> Prop :=
| viewStep_render (st : ViewState.t) :
    ViewState.queued st <> [] -> viewStep setThrows st (render setThrows st)
| viewStep_deliver (st : ViewState.t) :
    ViewState.hashchanges st <> 0 -> viewStep setThrows st (deliver st).

Inductive viewSteps (setThrows : bool) : ViewState.t -> ViewState.t -> Prop :=
| viewSteps_refl (st : ViewState.t) : viewSteps setThrows st st
| viewSteps_step (a b c : ViewState.t) :
    viewStep setThrows a b -> viewSteps setThrows b c -> viewSteps setThrows a c.

(** Nothing is left to render or to deliver. *)
Definition settled (st : ViewState.t) : Prop :=
  ViewState.queued st = [] /\ ViewState.hashchanges st = 0.

(** The view the component can come to rest in after mounting. *)
Definition settlesAt (getThrows setThrows : bool) (b : Browser.t) (view : View) : Prop :=
  exists st : ViewState.t,
    viewSteps setThrows (mount getThrows setThrows b) st /\
    settled st /\ ViewState.currentView st = view.

(** A state in which every pending update and every pending event leads to
    the committed view. *)
Definition atRest (view : View) (st : ViewState.t) : Prop :=
  ViewState.currentView st = view /\
  Forall (eq view) (ViewState.queued st) /\
  viewFromHash (Browser.hash (ViewState.browser st)) = view.

(** A state with no event pending in which the pending updates end with the
    committed view. *)
Definition quiet (view : View) (st : ViewState.t) : Prop :=
  ViewState.currentView st = view /\
  last (ViewState.queued st) view = view /\
  ViewState.hashchanges st = 0.

(* ================================================================== *)
(** ** E-mail forms: the newsletter box and the contact form *)

(** The pieces of an anchored pattern such as
    [/^[^\s@]+@[^\s@]+\.[^\s@]+$/]: a class repeated once or more, or one
    literal code unit. *)
Inductive Piece : Type :=
| OneOrMore (class : ascii -> bool)
| Literal (c : ascii).

(** Whether the whole text matches the pieces in sequence, trying every
    length of each repetition. *)
Fixpoint matchPieces (pieces : list Piece) (s : string) {struct s} : bool :=
  match pieces, s with
  | [], EmptyString => true
  | [], String _ _ => false
  | _ :: _, EmptyString => false
  | Literal c :: rest, String d s' => Ascii.eqb c d && matchPieces rest s'
  | OneOrMore class :: rest, String d s' =>
      class d && (matchPieces pieces s' || matchPieces rest s')
  end.

(** The class [[^\s@]]. *)
Definition notSpaceOrAt (c : ascii) : bool :=
  negb (isWhiteSpace c) && negb (Ascii.eqb c "@").

(** [/^[^\s@]+@[^\s@]+\.[^\s@]+$/.test(email)] *)
Definition isValidEmail (email : string) : bool :=
  matchPieces [ OneOrMore notSpaceOrAt; Literal "@"; OneOrMore notSpaceOrAt;
                Literal "."; OneOrMore notSpaceOrAt ] email.

(** An awaited backend call: its answer, or the exception it throws, of
    which the handlers read [e?.message]. *)
Inductive Awaited (A : Type) : Type :=
| Answered (answer : A)
| Threw (message : option string).

Arguments Answered {A} answer.
Arguments Threw {A} message.

(** [x || fallback] for a message that may be absent or empty. *)
Definition messageOr (message : option string) (fallback : string) : string :=
  match message with
  | Some m => if nonEmpty m then m else fallback
  | None => fallback
  end.

Module Newsletter.
Record t : Type := mk {
  newsletterEmail : string;
  newsletterLoading : bool;
  newsletterError : option string;
  newsletterSuccess : bool
}.
End Newsletter.

(** [{ count, error }] of the uniqueness check. *)
Module CountAnswer.
Record t : Type := mk {
  count : option Z;
  error : option string
}.
End CountAnswer.

(** The error of an insert: [code] and [message]. *)
Module InsertError.
Record t : Type := mk {
  code : option string;
  message : string
}.
End InsertError.

Record NewsletterBackend : Type := mkNewsletterBackend {
  countSubscriptions : string -> Awaited CountAnswer.t;
  insertSubscription : string -> Awaited (option InsertError.t)
}.

Inductive NewsletterEffect : Type :=
| CountRequest (email : string)
| SubscribeRequest (email : string)
| SubscribeToast (message : string) (type : ToastType).

(** [handleSubscribe()]: the state when it returns and what it did. *)
Definition handleSubscribe (backend : NewsletterBackend) (st : Newsletter.t)
  : Newsletter.t * list NewsletterEffect :=
  let entered := Newsletter.newsletterEmail st in
  let loading := Newsletter.newsletterLoading st in
  let failed (stillLoading : bool) (message : string) :=
    Newsletter.mk entered stillLoading (Some message) false in
  let email := trim entered in
  if negb (nonEmpty email) then (failed loading "Email is required", [])
  else if negb (isValidEmail email)
  then (failed loading "Please enter a valid email address", [])
  else
    match countSubscriptions backend email with
    | Threw message =>
        (failed false (messageOr message "Unexpected error"), [ CountRequest email ])
    | Answered counted =>
        if match CountAnswer.count counted with
           | Some n => (0 <? n)%Z
           | None => false
           end
        then (failed false "This email is already subscribed", [ CountRequest email ])
        else
          match insertSubscription backend email with
          | Threw message =>
              (failed false (messageOr message "Unexpected error"),
               [ CountRequest email; SubscribeRequest email ])
          | Answered (Some insertErr) =>
              (failed false
                 (match InsertError.code insertErr with
                  | Some code =>
                      if code =? "23505" then "This email is already subscribed"
                      else messageOr (Some (InsertError.message insertErr))
                                     "Failed to subscribe"
                  | None =>
                      messageOr (Some (InsertError.message insertErr)) "Failed to subscribe"
                  end),
               [ CountRequest email; SubscribeRequest email ])
          | Answered None =>
              (Newsletter.mk EmptyString false None true,
               [ CountRequest email; SubscribeRequest email;
                 SubscribeToast "Subscribed! Check your inbox for updates." success ])
          end
    end.

(** The state of the contact form. *)
Module ContactForm.
Record t : Type := mk {
  name : string;
  email : string;
  subject : string;
  message : string;
  loading : bool;
  error : option string;
  success : bool
}.
End ContactForm.

(** The row inserted into [contact_messages]. *)
Module ContactPayload.
Record t : Type := mk {
  name : string;
  email : string;
  subject : option string;
  message : string
}.
End ContactPayload.

Inductive ContactEffect : Type :=
| InsertMessageRequest (payload : ContactPayload.t)
| OnNotify (message : string) (type : ToastType).

(** [handleSubmit] of the contact form; [insertMessage] answers the insert
    with [insertErr.message], if any.  [OnNotify] is the call
    [onNotify?.(message, type)], which reaches the handler the form was given,
    if any. *)
Definition handleSubmit (insertMessage : ContactPayload.t -> Awaited (option string))
    (st : ContactForm.t) : ContactForm.t * list ContactEffect :=
  let failed (stillLoading : bool) (msg : string) :=
    (ContactForm.mk (ContactForm.name st) (ContactForm.email st) (ContactForm.subject st)
                    (ContactForm.message st) stillLoading (Some msg) false) in
  if negb (nonEmpty (trim (ContactForm.name st))) ||
     negb (nonEmpty (trim (ContactForm.email st))) ||
     negb (nonEmpty (trim (ContactForm.message st)))
  then
    let msg := "All required fields must be filled" in
    (failed (ContactForm.loading st) msg, [ OnNotify msg error ])
  else if negb (isValidEmail (ContactForm.email st))
  then
    let msg := "Please enter a valid email address" in
    (failed (ContactForm.loading st) msg, [ OnNotify msg error ])
  else
    let insertPayload :=
      {| ContactPayload.name := trim (ContactForm.name st);
         ContactPayload.email := trim (ContactForm.email st);
         ContactPayload.subject :=
           (let subject := trim (ContactForm.subject st) in
            if nonEmpty subject then Some subject else None);
         ContactPayload.message := trim (ContactForm.message st) |} in
    match insertMessage insertPayload with
    | Answered (Some insertErrMessage) =>
        let msg := messageOr (Some insertErrMessage) "Failed to send your message" in
        (failed false msg, [ InsertMessageRequest insertPayload; OnNotify msg error ])
    | Answered None =>
        (ContactForm.mk EmptyString EmptyString EmptyString EmptyString false None true,
         [ InsertMessageRequest insertPayload;
           OnNotify "Message sent successfully!" success ])
    | Threw message =>
        let msg := messageOr message "Unexpected error" in
        (failed false msg, [ InsertMessageRequest insertPayload; OnNotify msg error ])
    end.

(* ================================================================== *)
(** ** A reference host, to run the model on concrete inputs *)

(** The double quote, and a JSON string literal. *)
Definition dq : string := String (ascii_of_nat 34) EmptyString.

Definition quoted (s : string) : string := (dq ++ s ++ dq)%string.

(** The binary64 nearest to [(-1)^neg * m * 10^e], ties to even. *)
Definition decimalToFloat (neg : bool) (m e : Z) : float :=
  match m with
  | Zpos p =>
      let magnitude :=
        if (0 <=? e)%Z
        then binary_normalize prec emax (m * 10 ^ e) 0 false
        else SFdiv prec emax (S754_finite false p 0)
                   (S754_finite false (Z.to_pos (10 ^ (- e))) 0) in
      let x := SF2Prim magnitude in
      if neg then (- x)%float else x
  | _ => if neg then neg_zero else zero
  end.

Definition digitOf (c : ascii) : option Z :=
  let n := nat_of_ascii c in
  if ((48 <=? n) && (n <=? 57))%nat then Some (Z.of_nat (n - 48)) else None.

(** Reads a run of digits: the number read so far, how many digits, the
    rest of the text. *)
Fixpoint takeDigits (acc : Z) (n : Z) (s : string) : Z * Z * string :=
  match s with
  | EmptyString => (acc, n, s)
  | String c r =>
      match digitOf c with
      | Some d => takeDigits (acc * 10 + d) (n + 1) r
      | None => (acc, n, s)
      end
  end.

(** A JSON number: an optional minus sign; zero, or digits that do not
    start with zero; an optional fraction; an optional exponent. *)
Definition parseNumber (s : string) : option (float * string) :=
  let (neg, s1) :=
    match s with
    | String "-" r => (true, r)
    | _ => (false, s)
    end in
  let intPart :=
    match s1 with
    | String "0" r => Some (0%Z, r)
    | _ =>
        let '(m, n, r) := takeDigits 0 0 s1 in
        if (0 <? n)%Z then Some (m, r) else None
    end in
  match intPart with
  | None => None
  | Some (m, s2) =>
      let fracPart :=
        match s2 with
        | String "." r =>
            let '(m', n, r') := takeDigits m 0 r in
            if (0 <? n)%Z then Some (m', n, r') else None
        | _ => Some (m, 0%Z, s2)
        end in
      match fracPart with
      | None => None
      | Some (m2, fracDigits, s3) =>
          let expPart :=
            match s3 with
            | String c r =>
                if Ascii.eqb c "e" || Ascii.eqb c "E" then
                  let (negExp, r1) :=
                    match r with
                    | String "-" r' => (true, r')
                    | String "+" r' => (false, r')
                    | _ => (false, r)
                    end in
                  let '(e, n, r2) := takeDigits 0 0 r1 in
                  if (0 <? n)%Z then Some ((if negExp then - e else e)%Z, r2) else None
                else Some (0%Z, s3)
            | EmptyString => Some (0%Z, s3)
            end in
          match expPart with
          | None => None
          | Some (e, s4) => Some (decimalToFloat neg m2 (e - fracDigits), s4)
          end
      end
  end.

Definition hexOf (c : ascii) : option nat :=
  let n := nat_of_ascii c in
  if ((48 <=? n) && (n <=? 57))%nat then Some (n - 48)%nat
  else if ((65 <=? n) && (n <=? 70))%nat then Some (n - 55)%nat
  else if ((97 <=? n) && (n <=? 102))%nat then Some (n - 87)%nat
  else None.

(** The characters of a JSON string literal after its opening quote.  An
    escape [\uXXXX] of a code unit above 255 is outside this model's strings
    and is refused. *)
Fixpoint parseChars (s : string) : option (string * string) :=
  match s with
  | EmptyString => None
  | String c r =>
      if Ascii.eqb c (ascii_of_nat 34) then Some (EmptyString, r)
      else if Ascii.eqb c "\" then
        match r with
        | String e r' =>
            let continue (ch : ascii) (rest : option (string * string)) :=
              match rest with
              | Some (body, tail) => Some (String ch body, tail)
              | None => None
              end in
            if Ascii.eqb e (ascii_of_nat 34) then continue (ascii_of_nat 34) (parseChars r')
            else if Ascii.eqb e "\" then continue "\"%char (parseChars r')
            else if Ascii.eqb e "/" then continue "/"%char (parseChars r')
            else if Ascii.eqb e "b" then continue (ascii_of_nat 8) (parseChars r')
            else if Ascii.eqb e "f" then continue (ascii_of_nat 12) (parseChars r')
            else if Ascii.eqb e "n" then continue (ascii_of_nat 10) (parseChars r')
            else if Ascii.eqb e "r" then continue (ascii_of_nat 13) (parseChars r')
            else if Ascii.eqb e "t" then continue (ascii_of_nat 9) (parseChars r')
            else if Ascii.eqb e "u" then
              match r' with
              | String h1 (String h2 (String h3 (String h4 r''))) =>
                  match hexOf h1, hexOf h2, hexOf h3, hexOf h4 with
                  | Some 0%nat, Some 0%nat, Some a, Some b =>
                      continue (ascii_of_nat (16 * a + b)) (parseChars r'')
                  | _, _, _, _ => None
                  end
              | _ => None
              end
            else None
        | EmptyString => None
        end
      else if (nat_of_ascii c <? 32)%nat then None
      else
        match parseChars r with
        | Some (body, tail) => Some (String c body, tail)
        | None => None
        end
  end.

Definition isJsonSpace (c : ascii) : bool :=
  match nat_of_ascii c with
  | 9 | 10 | 13 | 32 => true
  | _ => false
  end.

Fixpoint skipSpace (s : string) : string :=
  match s with
  | EmptyString => EmptyString
  | String c r => if isJsonSpace c then skipSpace r else s
  end.

(** A repeated key keeps its first position and takes the last value. *)
Fixpoint setProp (props : list (string * value)) (k : string) (v : value)
  : list (string * value) :=
  match props with
  | [] => [(k, v)]
  | (k', v') :: rest =>
      if k =? k' then (k, v) :: rest else (k', v') :: setProp rest k v
  end.

Definition dropPrefix (p s : string) : option string :=
  if startsWith s p
  then Some (substring (String.length p) (String.length s - String.length p) s)
  else None.

Fixpoint parseValue (fuel : nat) (s : string) {struct fuel} : option (value * string) :=
  match fuel with
  | O => None
  | S fuel' =>
      match skipSpace s with
      | EmptyString => None
      | String c r as text =>
          if Ascii.eqb c "[" then
            match skipSpace r with
            | String "]" r' => Some (Arr [], r')
            | _ =>
                match parseElements fuel' r with
                | Some (items, r') => Some (Arr items, r')
                | None => None
                end
            end
          else if Ascii.eqb c "{" then
            match skipSpace r with
            | String "}" r' => Some (Obj [], r')
            | _ =>
                match parseMembers fuel' [] r with
                | Some (props, r') => Some (Obj props, r')
                | None => None
                end
            end
          else if Ascii.eqb c (ascii_of_nat 34) then
            match parseChars r with
            | Some (body, r') => Some (Str body, r')
            | None => None
            end
          else if Ascii.eqb c "t" then option_map (pair (Bool true)) (dropPrefix "true" text)
          else if Ascii.eqb c "f" then option_map (pair (Bool false)) (dropPrefix "false" text)
          else if Ascii.eqb c "n" then option_map (pair Null) (dropPrefix "null" text)
          else
            match parseNumber text with
            | Some (x, r') => Some (Num x, r')
            | None => None
            end
      end
  end
with parseElements (fuel : nat) (s : string) {struct fuel} : option (list value * string) :=
  match fuel with
  | O => None
  | S fuel' =>
      match parseValue fuel' s with
      | Some (v, r) =>
          match skipSpace r with
          | String "," r' =>
              match parseElements fuel' r' with
              | Some (vs, r'') => Some (v :: vs, r'')
              | None => None
              end
          | String "]" r' => Some ([v], r')
          | _ => None
          end
      | None => None
      end
  end
with parseMembers (fuel : nat) (acc : list (string * value)) (s : string) {struct fuel}
  : option (list (string * value) * string) :=
  match fuel with
  | O => None
  | S fuel' =>
      match skipSpace s with
      | String c r =>
          if Ascii.eqb c (ascii_of_nat 34) then
            match parseChars r with
            | Some (key, r1) =>
                match skipSpace r1 with
                | String ":" r2 =>
                    match parseValue fuel' r2 with
                    | Some (v, r3) =>
                        let acc' := setProp acc key v in
                        match skipSpace r3 with
                        | String "," r4 => parseMembers fuel' acc' r4
                        | String "}" r4 => Some (acc', r4)
                        | _ => None
                        end
                    | None => None
                    end
                | _ => None
                end
            | None => None
            end
          else None
      | EmptyString => None
      end
  end.

(** [JSON.parse] on texts within this model's strings. *)
Definition parseJSON (text : string) : option value :=
  match parseValue (2 * String.length text + 2) text with
  | Some (v, rest) =>
      match skipSpace rest with
      | EmptyString => Some v
      | _ => None
      end
  | None => None
  end.

Definition digitsOf (z : Z) : string :=
  NilZero.string_of_uint (N.to_uint (Z.to_N z)).

Definition zeros (n : Z) : string :=
  String.concat EmptyString (repeat "0" (Z.to_nat n)).

(** [num / den < 10 ^ n] *)
Definition below (num den n : Z) : bool :=
  if (0 <=? n)%Z then (num <? den * 10 ^ n)%Z else (num * 10 ^ (- n) <? den)%Z.

Fixpoint searchExponent (fuel : nat) (num den n : Z) : Z :=
  match fuel with
  | O => n
  | S f => if below num den n then n else searchExponent f num den (n + 1)
  end.

(** The [n] with [10 ^ (n - 1) <= num / den < 10 ^ n]; the guess is at most
    three below it. *)
Definition decimalExponent (num den : Z) : Z :=
  let guess := ((Z.log2 num - Z.log2 den) * 30103 / 100000 - 1)%Z in
  searchExponent 8 num den guess.

(** The [k]-digit decimal nearest to [num / den] when it reads back as [x],
    with its exponent. *)
Definition shortestWith (x : float) (num den n k : Z) : option (Z * Z) :=
  let p := (n - k)%Z in
  let '(a, b) :=
    if (0 <=? p)%Z then (num, den * 10 ^ p)%Z else (num * 10 ^ (- p), den)%Z in
  let (lo, r) := Z.div_eucl a b in
  let hi := (lo + 1)%Z in
  let okLo := PrimFloat.eqb (decimalToFloat false lo p) x in
  let okHi := PrimFloat.eqb (decimalToFloat false hi p) x in
  let preferLo :=
    match (2 * r ?= b)%Z with
    | Lt => true
    | Gt => false
    | Eq => Z.even lo
    end in
  let norm s := if (s =? 10 ^ k)%Z then (10 ^ (k - 1), n + 1)%Z else (s, n) in
  if (r =? 0)%Z then (if okLo then Some (norm lo) else None)
  else if okLo && okHi then Some (norm (if preferLo then lo else hi))
  else if okLo then Some (norm lo)
  else if okHi then Some (norm hi)
  else None.

Fixpoint firstShortest (x : float) (num den n : Z) (ks : list Z) : option (Z * Z * Z) :=
  match ks with
  | [] => None
  | k :: rest =>
      match shortestWith x num den n k with
      | Some (s, n') => Some (s, n', k)
      | None => firstShortest x num den n rest
      end
  end.

(** The digits [s] (there are [k]) placed by the exponent [n], as
    Number::toString lays them out. *)
Definition formatDecimal (s n k : Z) : string :=
  let ds := digitsOf s in
  (if (k <=? n)%Z && (n <=? 21)%Z then ds ++ zeros (n - k)
   else if (0 <? n)%Z && (n <=? 21)%Z then
     substring 0 (Z.to_nat n) ds ++ "." ++ substring (Z.to_nat n) (Z.to_nat (k - n)) ds
   else if (-6 <? n)%Z && (n <=? 0)%Z then "0." ++ zeros (- n) ++ ds
   else
     let e := (n - 1)%Z in
     let es := (if (e <? 0)%Z then "-" else "+") ++ digitsOf (Z.abs e) in
     if (k =? 1)%Z then ds ++ "e" ++ es
     else substring 0 1 ds ++ "." ++ substring 1 (Z.to_nat (k - 1)) ds ++ "e" ++ es)%string.

(** Number::toString: the shortest decimal that reads back as [x]. *)
Definition numberToDecimal (x : float) : string :=
  match Prim2SF x with
  | S754_nan => "NaN"
  | S754_zero _ => "0"
  | S754_infinity false => "Infinity"
  | S754_infinity true => "-Infinity"
  | S754_finite neg m e =>
      let '(num, den) :=
        if (0 <=? e)%Z then (Zpos m * 2 ^ e, 1)%Z else (Zpos m, 2 ^ (- e))%Z in
      let n := decimalExponent num den in
      match firstShortest (abs x) num den n (map Z.of_nat (seq 1 17)) with
      | Some (s, n', k) => ((if neg then "-" else "") ++ formatDecimal s n' k)%string
      | None => "NaN"
      end
  end.

Definition isLeapYear (y : Z) : bool :=
  ((y mod 4 =? 0) && negb (y mod 100 =? 0) || (y mod 400 =? 0))%Z.

Definition daysInMonth (y m : Z) : Z :=
  if (m =? 2)%Z then (if isLeapYear y then 29 else 28)%Z
  else if ((m =? 4) || (m =? 6) || (m =? 9) || (m =? 11))%Z then 30%Z
  else 31%Z.

(** Days from 1970-01-01 to the civil date [y]-[m]-[d]. *)
Definition daysFromCivil (y m d : Z) : Z :=
  let y' := (if m <=? 2 then y - 1 else y)%Z in
  let era := (y' / 400)%Z in
  let yoe := (y' - era * 400)%Z in
  let mp := ((m + 9) mod 12)%Z in
  let doy := ((153 * mp + 2) / 5 + d - 1)%Z in
  let doe := (yoe * 365 + yoe / 4 - yoe / 100 + doy)%Z in
  (era * 146097 + doe - 719468)%Z.

(** [new Date(s).getTime()] for the date-only form [YYYY-MM-DD] that the
    application writes (UTC midnight, in milliseconds); NaN otherwise. *)
Definition dateOnlyTime (s : string) : float :=
  match s with
  | String y1 (String y2 (String y3 (String y4 (String "-" (String m1 (String m2
      (String "-" (String d1 (String d2 EmptyString))))))))) =>
      match digitOf y1, digitOf y2, digitOf y3, digitOf y4,
            digitOf m1, digitOf m2, digitOf d1, digitOf d2 with
      | Some a, Some b, Some c, Some d, Some e, Some f, Some g, Some h =>
          let y := (a * 1000 + b * 100 + c * 10 + d)%Z in
          let m := (e * 10 + f)%Z in
          let day := (g * 10 + h)%Z in
          if ((1 <=? m) && (m <=? 12) && (1 <=? day) && (day <=? daysInMonth y m))%Z
          then SF2Prim (binary_normalize prec emax (daysFromCivil y m day * 86400000) 0 false)
          else nan
      | _, _, _, _, _, _, _, _ => nan
      end
  | _ => nan
  end.

Definition referenceHost : Host := {|
  JSON_parse := parseJSON;
  numberToString := numberToDecimal;
  todayISO := "2025-01-15";
  dateTime := dateOnlyTime
|}.

(* ================================================================== *)
(** ** Detail view: diet labels, recommended dishes, social links *)

(** [displayDiet(value)] *)
Definition displayDiet (value : string) : string :=
  let canon := canonicalDiet value in
  if jsvalue_eqb canon (Text "seed-oil free") then "Seed-Oil Free" else value.

(** [type RecDish = { title: string; note?: string; tags?: string[] }] *)
Module RecDish.
Record t : Type := mk {
  title : string;
  note : option string;
  tags : option (list string)
}.
End RecDish.

(** [type SocialLink = { label: string; url: string }] *)
Module SocialLink.
Record t : Type := mk {
  label : string;
  url : string
}.
End SocialLink.

(** The results of a list of conversions, [None] as soon as one throws. *)
Fixpoint allSome {A : Type} (l : list (option A)) : option (list A) :=
  match l with
  | [] => Some []
  | Some x :: rest => option_map (cons x) (allSome rest)
  | None :: _ => None
  end.

(** The final [filter] of [normalizeRecommendedDishes], with its [seen] set:
    [(d.title && !seen.has(d.title) && seen.add(d.title)) || false || true].
    [seen.add] returns the set, which is truthy. *)
Fixpoint filterSeen (seen : list string) (out : list RecDish.t) : list RecDish.t :=
  match out with
  | [] => []
  | d :: rest =>
      let fresh := nonEmpty (RecDish.title d) && negb (inb (RecDish.title d) seen) in
      let seen' := if fresh then RecDish.title d :: seen else seen in
      if (fresh && true) || false || true
      then d :: filterSeen seen' rest
      else filterSeen seen' rest
  end.

(** [s.replace('@', '')]: the first '@' is removed. *)
Fixpoint removeFirstAt (s : string) : string :=
  match s with
  | EmptyString => EmptyString
  | String c r => if Ascii.eqb c "@" then r else String c (removeFirstAt r)
  end.

(** The value of a property name that is an array index (a canonical
    decimal below 2^32 - 1); [Object.entries] lists such names first, in
    ascending order. *)
Fixpoint digitsValue (acc : Z) (s : string) : option Z :=
  match s with
  | EmptyString => Some acc
  | String c r =>
      match digitOf c with
      | Some d => digitsValue (acc * 10 + d) r
      | None => None
      end
  end.

Definition arrayIndex (k : string) : option Z :=
  match k with
  | EmptyString => None
  | String c r =>
      if Ascii.eqb c "0" && nonEmpty r then None
      else
        match digitsValue 0 k with
        | Some n => if (n <? 4294967295)%Z then Some n else None
        | None => None
        end
  end.

(** [Object.entries(v)] for an object or an array; an object's properties
    are listed as parsing delivers them, each name once. *)
Definition objectEntries (v : value) : list (string * value) :=
  match v with
  | Obj props =>
      let indexed :=
        flat_map (fun p => match arrayIndex (fst p) with
                           | Some n => [(n, p)]
                           | None => []
                           end) props in
      let named :=
        filter (fun p => match arrayIndex (fst p) with
                         | Some _ => false
                         | None => true
                         end) props in
      map snd (sortWith (fun a b => Z.compare (fst a) (fst b)) indexed) ++ named
  | Arr items =>
      map (fun p => (digitsOf (Z.of_nat (fst p)), snd p))
          (combine (seq 0 (List.length items)) items)
  | _ => []
  end.

Definition socialOrder : list string :=
  [ "Website"; "Instagram"; "Facebook"; "Twitter"; "X"; "TikTok"; "YouTube"; "Yelp";
    "OpenTable"; "Linktree" ].

(** [order.indexOf(label) === -1 ? 999 : order.indexOf(label)] *)
Fixpoint rankIn (order : list string) (label : string) (i : Z) : Z :=
  match order with
  | [] => 999
  | x :: rest => if x =? label then i else rankIn rest label (i + 1)
  end.

Section DetailView.
Context {host : Host}.
(** [a.localeCompare(b)], as the browser's locale orders strings. *)
Variable localeCompare : string -> string -> comparison.

(** [pushObj(o)]: the dishes it pushes, [None] when a [String(...)]
    conversion throws. *)
Definition pushObj (o : value) : option (list RecDish.t) :=
  if negb (toBoolean o) then Some []
  else
    let title :=
      vor (getFieldOpt o "title")
          (vor (getFieldOpt o "name")
               (vor (getFieldOpt o "dish")
                    (match o with Str _ => o | _ => Str EmptyString end))) in
    if negb (toBoolean title) then Some []
    else
      let note :=
        vor (getFieldOpt o "note")
            (vor (getFieldOpt o "description") (vor (getFieldOpt o "desc") Undefined)) in
      let rawTags :=
        vor (getFieldOpt o "tags")
            (vor (getFieldOpt o "labels") (vor (getFieldOpt o "categories") Undefined)) in
      let tags :=
        match rawTags with
        | Arr items => option_map Some (allSome (map toStringValue (filter toBoolean items)))
        | Str s =>
            Some (Some (filter nonEmpty (map trim (split (fun c => Ascii.eqb c ",") s))))
        | _ => Some None
        end in
      match tags, toStringValue title,
            (if toBoolean note then option_map Some (toStringValue note) else Some None) with
      | Some tags', Some title', Some note' => Some [ RecDish.mk title' note' tags' ]
      | _, _, _ => None
      end.

(** The loop body over an array of dishes. *)
Definition pushItems (items : list value) : option (list RecDish.t) :=
  option_map (@List.concat RecDish.t)
    (allSome (map (fun item =>
                     match item with
                     | Str s => Some [ RecDish.mk s None None ]
                     | _ => pushObj item
                     end) items)).

(** [normalizeRecommendedDishes(val)]; [None] when it throws: a [String(...)]
    conversion, or the property read on [null] when the text parses to
    null. *)
Definition normalizeRecommendedDishes (val : value) : option (list RecDish.t) :=
  if negb (toBoolean val) then Some []
  else
    let data :=
      match val with
      | Str text =>
          match JSON_parse text with
          | Some parsed => parsed
          | None => val
          end
      | _ => val
      end in
    let out :=
      match data with
      | Arr items => pushItems items
      | Null => None
      | Obj props =>
          let arr :=
            vor (lookupProp props "items")
                (vor (lookupProp props "dishes")
                     (vor (lookupProp props "recommendations")
                          (vor (lookupProp props "list")
                               (vor (lookupProp props "menu") (Arr []))))) in
          match arr with
          | Arr items => pushItems items
          | _ => pushObj data
          end
      | _ => Some []
      end in
    option_map (filterSeen []) out.

(** [add(label, v)]: the links it pushes. *)
Definition add (label : string) (v : value) : option (list SocialLink.t) :=
  if negb (toBoolean v) then Some []
  else
    match toStringValue v with
    | None => None
    | Some text =>
        let s := trim text in
        if negb (nonEmpty s) then Some []
        else
          let l := toLowerCase label in
          let url :=
           (if isAbsoluteUrl s then s
            else if includes l "instagram" then "https://instagram.com/" ++ removeFirstAt s
            else if includes l "facebook" then "https://facebook.com/" ++ s
            else if includes l "twitter" || (l =? "x")
                 then "https://twitter.com/" ++ removeFirstAt s
            else if includes l "tiktok" then "https://tiktok.com/@" ++ removeFirstAt s
            else if includes l "youtube" then "https://youtube.com/" ++ s
            else if includes l "yelp" then "https://yelp.com/biz/" ++ s
            else if includes l "opentable" then "https://www.opentable.com/r/" ++ s
            else "https://" ++ s)%string in
          Some [ SocialLink.mk label url ]
    end.

Definition addEntries (entries : list (string * value)) : option (list SocialLink.t) :=
  option_map (@List.concat SocialLink.t)
    (allSome (map (fun kv => add (fst kv) (snd kv)) entries)).

(** The comparator of the final sort. *)
Definition compareLinks (a b : SocialLink.t) : comparison :=
  match signOfZ (rankIn socialOrder (SocialLink.label a) 0 -
                 rankIn socialOrder (SocialLink.label b) 0) with
  | Eq => localeCompare (SocialLink.label a) (SocialLink.label b)
  | c => c
  end.

(** [normalizeSocialLinks(val)]; [None] when it throws: a [String(...)]
    conversion, or [Object.entries(null)] when the text parses to null. *)
Definition normalizeSocialLinks (val : value) : option (list SocialLink.t) :=
  if negb (toBoolean val) then Some []
  else
    let data :=
      match val with
      | Str text =>
          match JSON_parse text with
          | Some parsed => parsed
          | None => val
          end
      | _ => val
      end in
    let out :=
      match data with
      | Arr items =>
          option_map (@List.concat SocialLink.t)
            (allSome (map (fun item =>
                             match item with
                             | Str _ => add "Link" item
                             | Arr _ | Obj _ => addEntries (objectEntries item)
                             | _ => Some []
                             end) items))
      | Null => None
      | Obj _ => addEntries (objectEntries data)
      | Str _ => add "Link" data
      | _ => Some []
      end in
    option_map (sortWith compareLinks) out.

End DetailView.

(* ================================================================== *)
(** ** Concrete inputs for the examples *)

(** A row whose columns are all null. *)
Definition blankRow (rowId : Z) : RestaurantRow.t :=
  {| RestaurantRow.id := rowId;
     RestaurantRow.name := None;
     RestaurantRow.address := None;
     RestaurantRow.neighborhood := None;
     RestaurantRow.city := None;
     RestaurantRow.location := LocationNull;
     RestaurantRow.oils_used := OilsNull;
     RestaurantRow.oils_avoided := OilsNull;
     RestaurantRow.restaurant_dietary_tags := None;
     RestaurantRow.city_rel := None;
     RestaurantRow.verified := None;
     RestaurantRow.verification_date := None;
     RestaurantRow.verification_method := None;
     RestaurantRow.website := None;
     RestaurantRow.instagram := None;
     RestaurantRow.menu_link := None;
     RestaurantRow.price_range := None;
     RestaurantRow.order_type := None;
     RestaurantRow.sourcing_notes := None;
     RestaurantRow.image_url := None;
     RestaurantRow.image_urls := Null;
     RestaurantRow.rating := None;
     RestaurantRow.review_count := None;
     RestaurantRow.hours := None;
     RestaurantRow.cuisine := None;
     RestaurantRow.last_updated := None;
     RestaurantRow.phone := None;
     RestaurantRow.email := None;
     RestaurantRow.latitude := None;
     RestaurantRow.longitude := None;
     RestaurantRow.outdoor_seating := None;
     RestaurantRow.delivery := None;
     RestaurantRow.family_friendly := None;
     RestaurantRow.celiac_safe := None;
     RestaurantRow.recommended_dishes := Null;
     RestaurantRow.social_links := Null |}.

(** A row that only has its two image columns. *)
Definition imageRow (primary : option string) (secondary : value) : RestaurantRow.t :=
  let b := blankRow 1 in
  RestaurantRow.mk
    (RestaurantRow.id b) (RestaurantRow.name b) (RestaurantRow.address b)
    (RestaurantRow.neighborhood b) (RestaurantRow.city b) (RestaurantRow.location b)
    (RestaurantRow.oils_used b) (RestaurantRow.oils_avoided b)
    (RestaurantRow.restaurant_dietary_tags b) (RestaurantRow.city_rel b)
    (RestaurantRow.verified b) (RestaurantRow.verification_date b)
    (RestaurantRow.verification_method b) (RestaurantRow.website b)
    (RestaurantRow.instagram b) (RestaurantRow.menu_link b) (RestaurantRow.price_range b)
    (RestaurantRow.order_type b) (RestaurantRow.sourcing_notes b)
    primary secondary
    (RestaurantRow.rating b) (RestaurantRow.review_count b) (RestaurantRow.hours b)
    (RestaurantRow.cuisine b) (RestaurantRow.last_updated b) (RestaurantRow.phone b)
    (RestaurantRow.email b) (RestaurantRow.latitude b) (RestaurantRow.longitude b)
    (RestaurantRow.outdoor_seating b) (RestaurantRow.delivery b)
    (RestaurantRow.family_friendly b) (RestaurantRow.celiac_safe b)
    (RestaurantRow.recommended_dishes b) (RestaurantRow.social_links b).

(** A row that only has its [oils_used] column. *)
Definition oilsRow (oils : OilsField) : RestaurantRow.t :=
  let b := blankRow 1 in
  RestaurantRow.mk
    (RestaurantRow.id b) (RestaurantRow.name b) (RestaurantRow.address b)
    (RestaurantRow.neighborhood b) (RestaurantRow.city b) (RestaurantRow.location b)
    oils (RestaurantRow.oils_avoided b)
    (RestaurantRow.restaurant_dietary_tags b) (RestaurantRow.city_rel b)
    (RestaurantRow.verified b) (RestaurantRow.verification_date b)
    (RestaurantRow.verification_method b) (RestaurantRow.website b)
    (RestaurantRow.instagram b) (RestaurantRow.menu_link b) (RestaurantRow.price_range b)
    (RestaurantRow.order_type b) (RestaurantRow.sourcing_notes b)
    (RestaurantRow.image_url b) (RestaurantRow.image_urls b)
    (RestaurantRow.rating b) (RestaurantRow.review_count b) (RestaurantRow.hours b)
    (RestaurantRow.cuisine b) (RestaurantRow.last_updated b) (RestaurantRow.phone b)
    (RestaurantRow.email b) (RestaurantRow.latitude b) (RestaurantRow.longitude b)
    (RestaurantRow.outdoor_seating b) (RestaurantRow.delivery b)
    (RestaurantRow.family_friendly b) (RestaurantRow.celiac_safe b)
    (RestaurantRow.recommended_dishes b) (RestaurantRow.social_links b).

(** A listed restaurant with the fields the filter and the sort read. *)
Definition listing (rid : Z) (rname rcity : string) (tags : list string) (stars : float)
  : Restaurant.t :=
  {| Restaurant.id := rid;
     Restaurant.name := rname;
     Restaurant.address := EmptyString;
     Restaurant.neighborhood := EmptyString;
     Restaurant.city := rcity;
     Restaurant.oilsUsed := [];
     Restaurant.oilsAvoided := [];
     Restaurant.dietaryTags := tags;
     Restaurant.verified := false;
     Restaurant.verificationDate := None;
     Restaurant.verificationMethod := None;
     Restaurant.website := EmptyString;
     Restaurant.instagram := EmptyString;
     Restaurant.menuLink := EmptyString;
     Restaurant.priceRange := "$$";
     Restaurant.orderType := "Dine-in";
     Restaurant.sourcingNotes := EmptyString;
     Restaurant.imageUrl := Str fallbackImage;
     Restaurant.imageUrls := [];
     Restaurant.rating := stars;
     Restaurant.reviewCount := 0%float;
     Restaurant.hours := EmptyString;
     Restaurant.cuisine := EmptyString;
     Restaurant.lastUpdated := "2025-01-15";
     Restaurant.phone := EmptyString;
     Restaurant.email := EmptyString;
     Restaurant.latitude := None;
     Restaurant.longitude := None;
     Restaurant.outdoorSeating := None;
     Restaurant.delivery := None;
     Restaurant.familyFriendly := None;
     Restaurant.celiacSafe := None;
     Restaurant.recommendedDishes := Undefined;
     Restaurant.socialLinks := Undefined |}.

Definition noFilters : Filters.t :=
  {| Filters.diet := [];
     Filters.oils := [];
     Filters.neighborhood := EmptyString;
     Filters.priceRange := EmptyString;
     Filters.verified := false |}.

Definition dietFilter (tags : list string) : Filters.t :=
  {| Filters.diet := tags;
     Filters.oils := [];
     Filters.neighborhood := EmptyString;
     Filters.priceRange := EmptyString;
     Filters.verified := false |}.

(** The row a backend holds after storing a payload: the columns echoed,
    the arrays as arrays, no joined relation. *)
Definition storedRow (newId : Z) (p : RestaurantInsert.t) : RestaurantRow.t :=
  {| RestaurantRow.id := newId;
     RestaurantRow.name := Some (RestaurantInsert.name p);
     RestaurantRow.address := Some (RestaurantInsert.address p);
     RestaurantRow.neighborhood := Some (RestaurantInsert.neighborhood p);
     RestaurantRow.city := Some (RestaurantInsert.city p);
     RestaurantRow.location := LocationNull;
     RestaurantRow.oils_used := OilsArray (map Some (RestaurantInsert.oils_used p));
     RestaurantRow.oils_avoided := OilsArray (map Some (RestaurantInsert.oils_avoided p));
     RestaurantRow.restaurant_dietary_tags := None;
     RestaurantRow.city_rel := None;
     RestaurantRow.verified := Some (RestaurantInsert.verified p);
     RestaurantRow.verification_date := RestaurantInsert.verification_date p;
     RestaurantRow.verification_method := RestaurantInsert.verification_method p;
     RestaurantRow.website := Some (RestaurantInsert.website p);
     RestaurantRow.instagram := Some (RestaurantInsert.instagram p);
     RestaurantRow.menu_link := None;
     RestaurantRow.price_range := Some (RestaurantInsert.price_range p);
     RestaurantRow.order_type := Some (RestaurantInsert.order_type p);
     RestaurantRow.sourcing_notes := Some (RestaurantInsert.sourcing_notes p);
     RestaurantRow.image_url := Some (RestaurantInsert.image_url p);
     RestaurantRow.image_urls := Null;
     RestaurantRow.rating := Some (RestaurantInsert.rating p);
     RestaurantRow.review_count := Some (RestaurantInsert.review_count p);
     RestaurantRow.hours := Some (RestaurantInsert.hours p);
     RestaurantRow.cuisine := Some (RestaurantInsert.cuisine p);
     RestaurantRow.last_updated := Some (RestaurantInsert.last_updated p);
     RestaurantRow.phone := Some (RestaurantInsert.phone p);
     RestaurantRow.email := Some (RestaurantInsert.email p);
     RestaurantRow.latitude := None;
     RestaurantRow.longitude := None;
     RestaurantRow.outdoor_seating := None;
     RestaurantRow.delivery := None;
     RestaurantRow.family_friendly := None;
     RestaurantRow.celiac_safe := None;
     RestaurantRow.recommended_dishes := Null;
     RestaurantRow.social_links := Null |}.

(** The rows at offsets [from] to [to] of a table. *)
Definition rangeOf {A : Type} (from to : Z) (table : list A) : list A :=
  firstn (Z.to_nat (to - from + 1)) (skipn (Z.to_nat from) table).

(** A backend over one city's table that answers every page with an exact
    count, stores what is inserted under the identifier [newId], and answers
    deletes with [deleteAnswer]. *)
Definition tableBackend (table : list RestaurantRow.t) (pendingRows : list PendingRow.t)
    (newId : Z) (deleteAnswer : option string) : Backend :=
  {| selectRestaurants := fun q =>
       RestaurantsResponse.mk
         (Some (rangeOf (RestaurantsQuery.from q) (RestaurantsQuery.to q) table))
         None
         (Some (Z.of_nat (List.length table)));
     selectPending := PendingResponse.mk (Some pendingRows) None;
     insertRestaurant := fun p => InsertResponse.mk (Some (storedRow newId p)) None;
     deletePending := fun _ => deleteAnswer |}.

(** A backend whose restaurants query fails. *)
Definition failingBackend (message : string) (pendingRows : list PendingRow.t) : Backend :=
  {| selectRestaurants := fun _ => RestaurantsResponse.mk None (Some message) None;
     selectPending := PendingResponse.mk (Some pendingRows) None;
     insertRestaurant := fun _ => InsertResponse.mk None (Some message);
     deletePending := fun _ => Some message |}.

Definition numberedRows (n : nat) : list RestaurantRow.t :=
  map (fun i => blankRow (Z.of_nat i)) (seq 0 n).

Definition emptyState (city : string) : AppState.t :=
  {| AppState.restaurants := [];
     AppState.page := 0;
     AppState.hasMore := true;
     AppState.loading := false;
     AppState.loadError := None;
     AppState.pendingSubmissions := [];
     AppState.selectedCity := city;
     AppState.cityOptions := [] |}.


(** The JSON texts of the examples. *)
Definition twoStrings : string :=
  "[" ++ quoted "https://x/a.jpg" ++ "," ++ quoted "not-a-url" ++ "]".

Definition twoObjects : string :=
  "[{" ++ quoted "url" ++ ":" ++ quoted "not-a-url" ++ "},{"
       ++ quoted "url" ++ ":" ++ quoted "https://x/b.jpg" ++ "}]".

Definition malformedOils : string :=
  "[" ++ quoted "Olive Oil" ++ ", " ++ quoted "Ghee".

(** The first page of a table of 45 rows, and the state once it is loaded. *)
Definition demoBackend : Backend := tableBackend (numberedRows 45) [] 1000 None.

Definition afterFirstPage : AppState.t :=
  @fetchData referenceHost demoBackend true (emptyState "NYC").



(** A stored [social_links] value. *)
Definition storedLinks : value :=
  Obj [ ("Instagram", Str "@crunch"); ("Website", Str " crunch.example ") ].

(* ================================================================== *)
(** ** Vocabulary of the statements *)

(** Some code unit of [s] satisfies [f]. *)
Fixpoint anyChar (f : ascii -> bool) (s : string) : bool :=
  match s with
  | EmptyString => false
  | String c r => f c || anyChar f r
  end.

(** The pieces put back together around the separators that were between
    them. *)
Fixpoint interleave (pieces : list string) (seps : list ascii) : string :=
  match pieces, seps with
  | p :: rest, c :: cs => (p ++ String c (interleave rest cs))%string
  | p :: _, [] => p
  | [], _ => EmptyString
  end.

(** [(row.image_url || '').trim()] *)
Definition primaryOf (row : RestaurantRow.t) : string :=
  trim (fromNullable (RestaurantRow.image_url row)).

(** Closes a goal whose premise equates two different constructors. *)
(** The "Load more" button pressed [n] times after a first load. *)
Definition loadPages {host : Host} (backend : Backend) (n : nat) (st : AppState.t)
  : AppState.t :=
  Nat.iter n (fetchData backend false) (fetchData backend true st).

(** The city name a coverage row contributes, if any. *)
Definition coverageName (row : option CoverageRow.t) : option string :=
  match row with
  | Some (CoverageRow.mk (Some (Some n))) => if nonEmpty n then Some n else None
  | _ => None
  end.

(** Every code unit of the text satisfies [f]. *)
Fixpoint allChars (f : ascii -> bool) (s : string) : bool :=
  match s with
  | EmptyString => true
  | String c r => f c && allChars f r
  end.

Ltac pick_alias :=
  first [ exists "New York"; split; [simpl; tauto|reflexivity]
        | exists "NYC"; split; [simpl; tauto|reflexivity]
        | exists "New York City"; split; [simpl; tauto|reflexivity]
        | exists "Los Angeles"; split; [simpl; tauto|reflexivity]
        | exists "LA"; split; [simpl; tauto|reflexivity]
        | exists "San Francisco"; split; [simpl; tauto|reflexivity]
        | exists "SF"; split; [simpl; tauto|reflexivity]
        | exists "San Fran"; split; [simpl; tauto|reflexivity]
        | exists "Houston"; split; [simpl; tauto|reflexivity]
        | exists "Austin"; split; [simpl; tauto|reflexivity] ].

Ltac split_effects :=
  repeat match goal with
         | H : In _ (_ :: _) |- _ => destruct H as [H|H]
         | H : In _ [] |- _ => destruct H
         | H : False |- _ => destruct H
         | H : _ \/ _ |- _ => destruct H as [H|H]
         | H : CountRequest _ = CountRequest _ |- _ => injection H as <-
         | H : SubscribeRequest _ = SubscribeRequest _ |- _ => injection H as <-
         | H : InsertMessageRequest _ = InsertMessageRequest _ |- _ => injection H as <-
         | H : _ = _ |- _ => discriminate H
         end.

Ltac form_cases :=
  repeat split; intros; split_effects; try discriminate; try tauto; auto;
  try (match goal with H : _ /\ _ |- _ => destruct H end; split_effects);
  try discriminate; auto.

Ltac no_result := let H := fresh in intros H; discriminate H.

(* ================================================================== *)
(** * Properties *)

(** ** Strings *)

Lemma trimStart_fixed (s : string) :
  match s with String c _ => isWhiteSpace c = false | EmptyString => True end ->
  trimStart s = s.
Proof.
  destruct s as [|c r]; simpl; intros H; [reflexivity|]. now rewrite H.
Qed.

Lemma trimStart_head (s : string) :
  match trimStart s with String c _ => isWhiteSpace c = false | EmptyString => True end.
Proof.
  induction s as [|c r IH]; simpl; [exact I|].
  destruct (isWhiteSpace c) eqn:E; [exact IH|]. exact E.
Qed.

Lemma trimEnd_head (s : string) :
  match s with String c _ => isWhiteSpace c = false | EmptyString => True end ->
  match trimEnd s with String c _ => isWhiteSpace c = false | EmptyString => True end.
Proof.
  destruct s as [|c r]; simpl; intros H; [exact I|]. rewrite H. simpl. exact H.
Qed.

Lemma trimEnd_idempotent (s : string) : trimEnd (trimEnd s) = trimEnd s.
Proof.
  induction s as [|c r IH]; simpl; [reflexivity|].
  destruct (isWhiteSpace c && (trimEnd r =? "")) eqn:E; [reflexivity|].
  simpl. rewrite IH, E. reflexivity.
Qed.

Lemma trim_idempotent (s : string) : trim (trim s) = trim s.
Proof.
  unfold trim.
  rewrite (trimStart_fixed (trimEnd (trimStart s))).
  - apply trimEnd_idempotent.
  - apply trimEnd_head, trimStart_head.
Qed.

Lemma includes_empty (s : string) : includes s "" = true.
Proof. destruct s; simpl; reflexivity. Qed.

Lemma nonEmpty_true (s : string) : nonEmpty s = true <-> s <> "".
Proof.
  unfold nonEmpty. rewrite negb_true_iff. split.
  - intros H E. subst. discriminate.
  - intros H. apply String.eqb_neq. exact H.
Qed.

Lemma nonEmpty_false (s : string) : nonEmpty s = false <-> s = "".
Proof.
  unfold nonEmpty. rewrite negb_false_iff. apply String.eqb_eq.
Qed.

(** [split] loses nothing: the pieces, put back around separators, are the
    text, and no piece holds a separator. *)
Lemma split_decomposes (sep : ascii -> bool) (s : string) :
  exists seps : list ascii,
    List.length (split sep s) = S (List.length seps) /\
    forallb sep seps = true /\
    interleave (split sep s) seps = s /\
    forallb (fun piece => negb (anyChar sep piece)) (split sep s) = true.
Proof.
  induction s as [|c r IH].
  - exists []. repeat split.
  - destruct IH as [seps [Hlen [Hseps [Hjoin Hpieces]]]]. simpl.
    destruct (sep c) eqn:Hc.
    + exists (c :: seps). simpl. rewrite Hlen, Hc, Hseps, Hjoin, Hpieces. repeat split.
    + destruct (split sep r) as [|h t] eqn:Hsplit; [discriminate Hlen|].
      exists seps. simpl in *. rewrite Hc. simpl.
      apply andb_true_iff in Hpieces. destruct Hpieces as [Hh Ht].
      rewrite Hh, Ht. repeat split; try assumption.
      destruct seps as [|c0 cs]; simpl in *; now rewrite <- Hjoin.
Qed.

(* ------------------------------------------------------------------ *)
(** ** City and diet canonicalisation *)

Lemma cityKey_trim (s : string) : cityKey (trim s) = cityKey s.
Proof. unfold cityKey. now rewrite trim_idempotent. Qed.

(** Every value of the city table is canonical: looking it up gives it
    back. *)
Lemma cityMap_values (k v : string) :
  ownProperty cityMap k = Some v -> canonicalCity (Some v) = Text v.
Proof.
  unfold cityMap. simpl.
  repeat match goal with
         | |- (if ?b then _ else _) = _ -> _ => destruct b
         end;
    intros H; inversion H; subst; reflexivity.
Qed.

Lemma cityMap_values_truthy (k v : string) :
  ownProperty cityMap k = Some v -> truthy (Text v) = true.
Proof.
  unfold cityMap. simpl.
  repeat match goal with
         | |- (if ?b then _ else _) = _ -> _ => destruct b
         end;
    intros H; inversion H; subst; reflexivity.
Qed.

Lemma canonicalCity_known (s v : string) :
  ownProperty cityMap (cityKey s) = Some v -> canonicalCity (Some s) = Text v.
Proof.
  intros Hown. unfold canonicalCity, getProperty. simpl fromNullable.
  rewrite Hown. unfold orElse. now rewrite (cityMap_values_truthy _ _ Hown).
Qed.

Lemma canonicalCity_unknown (s : string) :
  ownProperty cityMap (cityKey s) = None ->
  inb (cityKey s) objectPrototypeNames = false ->
  canonicalCity (Some s) = Text (trim s).
Proof.
  intros Hown Hplain. unfold canonicalCity, getProperty. simpl fromNullable.
  now rewrite Hown, Hplain.
Qed.


(** X1: wherever the looked-up key is not a name inherited from
    [Object.prototype], [canonicalCity] is idempotent: a table value maps to
    itself, and an unknown city to its trimmed text, which trims to itself. *)
Theorem canonicalCity_idempotent_on_plain_keys (s : string) :
  inb (cityKey s) objectPrototypeNames = false ->
  canonicalCityOfValue (canonicalCity (Some s)) = Some (canonicalCity (Some s)).
Proof.
  intros Hplain.
  destruct (ownProperty cityMap (cityKey s)) as [v|] eqn:Hown.
  - rewrite (canonicalCity_known _ _ Hown). simpl. f_equal.
    exact (cityMap_values _ _ Hown).
  - rewrite (canonicalCity_unknown _ Hown Hplain). simpl. f_equal.
    rewrite canonicalCity_unknown; rewrite ?cityKey_trim; auto.
    now rewrite trim_idempotent.
Qed.

Lemma canonicalCity_idempotent_on_plain_keys_witness :
  canonicalCityOfValue (canonicalCity (Some "  Portland ")) = Some (Text "Portland") /\
  canonicalCityOfValue (canonicalCity (Some "SF")) = Some (Text "San Francisco").
Proof.
  split.
  - exact (canonicalCity_idempotent_on_plain_keys "  Portland " eq_refl).
  - exact (canonicalCity_idempotent_on_plain_keys "SF" eq_refl).
Defined.

(** C5 (idempotence of [canonicalCity] on every input string) fails on the
    code at the input "constructor": the object literal that serves as the
    synonym table inherits a property of that name, so the lookup
    [map[v]] yields the built-in function [Object] instead of [undefined],
    and [canonicalCity] returns that function.  Applied to its own result it
    calls [trim] on a function and throws; the result is neither a fixed
    point nor the trimmed input. *)
Theorem canonicalCity_constructor_not_idempotent :
  ownProperty cityMap (cityKey "constructor") = None /\
  canonicalCity (Some "constructor") = Builtin "constructor" /\
  canonicalCity (Some "constructor") <> Text (trim "constructor") /\
  canonicalCityOfValue (canonicalCity (Some "constructor")) = None.
Proof. repeat split; try reflexivity. discriminate. Qed.




(* ------------------------------------------------------------------ *)
(** ** Verification method and badge *)

Lemma matchesAny_true (keywords : list string) (m : string) :
  matchesAny keywords m = true <-> exists t, In t keywords /\ includes m t = true.
Proof. unfold matchesAny. apply existsb_exists. Qed.

Lemma matchesAny_false (keywords : list string) (m : string) :
  matchesAny keywords m = false <-> forall t, In t keywords -> includes m t = false.
Proof.
  unfold matchesAny. split.
  - intros H t Ht. destruct (includes m t) eqn:E; [|reflexivity].
    assert (existsb (fun t0 => includes m t0) keywords = true) as Hex
      by (apply existsb_exists; eauto).
    congruence.
  - intros H. destruct (existsb _ keywords) eqn:E; [|reflexivity].
    apply existsb_exists in E. destruct E as [t [Ht Hi]].
    rewrite (H t Ht) in Hi. discriminate.
Qed.

Lemma classifyVerification_nonempty (text : string) :
  text <> "" ->
  classifyVerification (Some text) =
    let m := toLowerCase (trim text) in
    if matchesAny visitedKeywords m then Some CrunchTeamVisited
    else if matchesAny calledKeywords m then Some CrunchTeamCalled
    else Some OwnerSubmitted.
Proof.
  intros H. unfold classifyVerification.
  apply nonEmpty_true in H. now rewrite H.
Qed.

Lemma getVerifyLabel_raw (text : string) :
  getVerifyLabel (Some text) =
    let m := toLowerCase (trim text) in
    if matchesAny visitedKeywords m || matchesAny calledKeywords m
    then "Verified By Crunch" else "".
Proof.
  unfold getVerifyLabel. simpl fromNullable. cbv zeta.
  destruct (nonEmpty (toLowerCase (trim text))) eqn:E; [reflexivity|].
  apply nonEmpty_false in E. rewrite E. reflexivity.
Qed.

(** C4: the raw verification method is classified by case-insensitive
    substring match (the trimmed, lower-cased text against lower-case
    keywords).  A null or empty value stays null.  A non-empty value that
    holds a "visited" keyword becomes Crunch Team Visited; one that holds no
    "visited" keyword but a "called" keyword becomes Crunch Team Called; one
    that holds neither becomes Owner Submitted.  The display label of the raw
    value is non-empty exactly when it is classified as visited or called,
    and is the label of its classification; both canonical verified methods
    show "Verified By Crunch", Owner Submitted and null show nothing.
    "Phone call from team" is externally verified, "submitted by owner" is
    not. *)
Theorem verification_classification :
  classifyVerification None = None /\
  classifyVerification (Some "") = None /\
  (forall text, text <> "" ->
     let m := toLowerCase (trim text) in
     ((exists t, In t visitedKeywords /\ includes m t = true) ->
        classifyVerification (Some text) = Some CrunchTeamVisited) /\
     ((forall t, In t visitedKeywords -> includes m t = false) ->
      (exists t, In t calledKeywords /\ includes m t = true) ->
        classifyVerification (Some text) = Some CrunchTeamCalled) /\
     ((forall t, In t visitedKeywords -> includes m t = false) ->
      (forall t, In t calledKeywords -> includes m t = false) ->
        classifyVerification (Some text) = Some OwnerSubmitted) /\
     (getVerifyLabel (Some text) <> "" <->
        classifyVerification (Some text) = Some CrunchTeamVisited \/
        classifyVerification (Some text) = Some CrunchTeamCalled) /\
     (verifyBadge (classifyVerification (Some text)) = getVerifyLabel (Some text))) /\
  verifyBadge (Some CrunchTeamVisited) = "Verified By Crunch" /\
  verifyBadge (Some CrunchTeamCalled) = "Verified By Crunch" /\
  verifyBadge (Some OwnerSubmitted) = "" /\
  verifyBadge None = "" /\
  classifyVerification (Some "Phone call from team") = Some CrunchTeamCalled /\
  classifyVerification (Some "submitted by owner") = Some OwnerSubmitted.
Proof.
  split; [reflexivity|]. split; [reflexivity|].
  split; [|repeat split; reflexivity].
  intros text Htext m.
  rewrite (classifyVerification_nonempty text Htext), getVerifyLabel_raw.
  fold m. cbv zeta.
  repeat split.
  - intros Hv. apply matchesAny_true in Hv. now rewrite Hv.
  - intros Hv Hc. apply matchesAny_false in Hv. apply matchesAny_true in Hc.
    now rewrite Hv, Hc.
  - intros Hv Hc. apply matchesAny_false in Hv. apply matchesAny_false in Hc.
    now rewrite Hv, Hc.
  - destruct (matchesAny visitedKeywords m); [auto|].
    destruct (matchesAny calledKeywords m); [auto|].
    simpl. intros H. now contradiction H.
  - destruct (matchesAny visitedKeywords m); [intros _; discriminate|].
    destruct (matchesAny calledKeywords m); [intros _; discriminate|].
    intros [H|H]; discriminate.
  - destruct (matchesAny visitedKeywords m); [reflexivity|].
    destruct (matchesAny calledKeywords m); reflexivity.
Qed.

Lemma verification_classification_witness :
  classifyVerification (Some "Site Visit 2024") = Some CrunchTeamVisited /\
  classifyVerification (Some "We CALLED them") = Some CrunchTeamCalled /\
  classifyVerification (Some "self reported") = Some OwnerSubmitted.
Proof.
  pose proof verification_classification as [_ [_ [H _]]].
  split; [|split].
  - apply (H "Site Visit 2024"); [discriminate|].
    exists "visit". split; [simpl; tauto | reflexivity].
  - apply (H "We CALLED them"); [discriminate| |].
    + intros t Ht. simpl in Ht.
      repeat (destruct Ht as [<-|Ht]; [reflexivity|]). contradiction.
    + exists "called". split; [simpl; tauto | reflexivity].
  - apply (H "self reported"); [discriminate| |].
    + intros t Ht. simpl in Ht.
      repeat (destruct Ht as [<-|Ht]; [reflexivity|]). contradiction.
    + intros t Ht. simpl in Ht.
      repeat (destruct Ht as [<-|Ht]; [reflexivity|]). contradiction.
Defined.

(* ------------------------------------------------------------------ *)
(** ** Filter/sort engine *)

Lemma jsvalue_eqb_eq (a b : jsvalue) : jsvalue_eqb a b = true <-> a = b.
Proof.
  destruct a as [s|m], b as [t|n]; simpl;
    try (split; [discriminate | intros H; inversion H]).
  - rewrite String.eqb_eq. split; [now intros ->|now intros [= ->]].
  - rewrite String.eqb_eq. split; [now intros ->|now intros [= ->]].
Qed.

Lemma inb_In (k : string) (l : list string) : inb k l = true <-> In k l.
Proof.
  unfold inb. rewrite existsb_exists. split.
  - intros [x [Hx E]]. apply String.eqb_eq in E. now subst.
  - intros H. exists k. split; [exact H|apply String.eqb_refl].
Qed.

Lemma setHas_In (values : list jsvalue) (d : jsvalue) :
  setHas values d = true <-> In d values.
Proof.
  unfold setHas. rewrite existsb_exists. split.
  - intros [x [Hx E]]. apply jsvalue_eqb_eq in E. now subst.
  - intros H. exists d. split; [exact H|now apply jsvalue_eqb_eq].
Qed.

Lemma length_zero {A : Type} (l : list A) : Nat.eqb (List.length l) 0 = true <-> l = [].
Proof.
  destruct l; simpl; split; try reflexivity; discriminate.
Qed.

Section SortFacts.
Context {A : Type} (cmp : A -> A -> comparison).

Lemma insertSorted_perm (x : A) (l : list A) : Permutation (insertSorted cmp x l) (x :: l).
Proof.
  induction l as [|y rest IH]; simpl; [reflexivity|].
  destruct (cmp x y); try reflexivity.
  rewrite IH. apply perm_swap.
Qed.

Lemma sortWith_perm (l : list A) : Permutation (sortWith cmp l) l.
Proof.
  induction l as [|x rest IH]; simpl; [reflexivity|].
  rewrite insertSorted_perm. now constructor.
Qed.

Lemma sortWith_In (x : A) (l : list A) : In x (sortWith cmp l) <-> In x l.
Proof.
  split; apply Permutation_in; [apply sortWith_perm | symmetry; apply sortWith_perm].
Qed.
End SortFacts.

(** The filter predicate, clause by clause. *)
Lemma matchesFilters_true (selectedCity searchQuery : string) (f : Filters.t)
    (r : Restaurant.t) :
  matchesFilters selectedCity searchQuery f r = true <->
  getCity r = canonicalCity (Some selectedCity) /\
  (includes (toLowerCase (Restaurant.name r)) (toLowerCase searchQuery) = true \/
   includes (toLowerCase (Restaurant.cuisine r)) (toLowerCase searchQuery) = true \/
   includes (toLowerCase (Restaurant.neighborhood r)) (toLowerCase searchQuery) = true) /\
  (Filters.diet f = [] \/
   exists d, In d (Filters.diet f) /\
             In (canonicalDiet d) (map canonicalDiet (Restaurant.dietaryTags r))) /\
  (Filters.oils f = [] \/
   exists oil, In oil (Filters.oils f) /\ In oil (Restaurant.oilsUsed r)) /\
  (Filters.neighborhood f = "" \/ Restaurant.neighborhood r = Filters.neighborhood f) /\
  (Filters.priceRange f = "" \/ Restaurant.priceRange r = Filters.priceRange f) /\
  (Filters.verified f = false \/ Restaurant.verified r = true).
Proof.
  unfold matchesFilters. cbv zeta.
  rewrite !andb_true_iff, !orb_true_iff, jsvalue_eqb_eq.
  rewrite !length_zero, !negb_true_iff, !nonEmpty_false, !String.eqb_eq.
  rewrite !existsb_exists.
  assert (Hdiet :
    (map canonicalDiet (Filters.diet f) = [] \/
     exists x, In x (map canonicalDiet (Filters.diet f)) /\
               setHas (map canonicalDiet (Restaurant.dietaryTags r)) x = true) <->
    (Filters.diet f = [] \/
     exists d, In d (Filters.diet f) /\
               In (canonicalDiet d) (map canonicalDiet (Restaurant.dietaryTags r)))).
  { split; (intros [H|H]; [left|right]).
    - now apply map_eq_nil in H.
    - destruct H as [x [Hx Hs]]. apply in_map_iff in Hx. destruct Hx as [d [<- Hd]].
      exists d. split; [exact Hd|now apply setHas_In].
    - now rewrite H.
    - destruct H as [d [Hd Hs]]. exists (canonicalDiet d).
      split; [now apply in_map|now apply setHas_In]. }
  assert (Hoils :
    (Filters.oils f = [] \/
     exists x, In x (Filters.oils f) /\ inb x (Restaurant.oilsUsed r) = true) <->
    (Filters.oils f = [] \/
     exists oil, In oil (Filters.oils f) /\ In oil (Restaurant.oilsUsed r))).
  { split; (intros [H|H]; [now left|right]);
      destruct H as [x [Hx Hi]]; exists x; (split; [exact Hx|now apply inb_In]). }
  rewrite Hdiet, Hoils.
  rewrite <- !and_assoc, <- !or_assoc. reflexivity.
Qed.

Section EngineFacts.
Context {host : Host}.

(** C1: a restaurant is in the engine's output if and only if it is in the
    input list and passes every clause: its derived city is the canonical
    selected city; the lower-cased query is a substring of its lower-cased
    name, cuisine or neighborhood; the diet selection is empty or one selected
    tag, canonicalised, is among its canonicalised tags; the oil selection is
    empty or one selected oil is, as written, among [oilsUsed]; the
    neighborhood filter is unset or equal to its neighborhood; the price filter
    is unset or equal to its price range; the verified filter is off or it is
    verified.  The empty query is a substring of every text. *)
Theorem filteredRestaurants_membership :
  (forall (restaurants : list Restaurant.t) (searchQuery : string)
          (selectedFilters : Filters.t) (selectedCity : string) (sortBy : SortBy)
          (r : Restaurant.t),
     In r (filteredRestaurants restaurants searchQuery selectedFilters selectedCity sortBy) <->
     In r restaurants /\
     getCity r = canonicalCity (Some selectedCity) /\
     (includes (toLowerCase (Restaurant.name r)) (toLowerCase searchQuery) = true \/
      includes (toLowerCase (Restaurant.cuisine r)) (toLowerCase searchQuery) = true \/
      includes (toLowerCase (Restaurant.neighborhood r)) (toLowerCase searchQuery) = true) /\
     (Filters.diet selectedFilters = [] \/
      exists d, In d (Filters.diet selectedFilters) /\
                In (canonicalDiet d) (map canonicalDiet (Restaurant.dietaryTags r))) /\
     (Filters.oils selectedFilters = [] \/
      exists oil, In oil (Filters.oils selectedFilters) /\ In oil (Restaurant.oilsUsed r)) /\
     (Filters.neighborhood selectedFilters = "" \/
      Restaurant.neighborhood r = Filters.neighborhood selectedFilters) /\
     (Filters.priceRange selectedFilters = "" \/
      Restaurant.priceRange r = Filters.priceRange selectedFilters) /\
     (Filters.verified selectedFilters = false \/ Restaurant.verified r = true)) /\
  (forall text : string, includes (toLowerCase text) (toLowerCase "") = true).
Proof.
  split.
  - intros restaurants searchQuery selectedFilters selectedCity sortBy r.
    unfold filteredRestaurants.
    rewrite sortWith_In, filter_In, matchesFilters_true. tauto.
  - intros text. apply includes_empty.
Qed.

(** X4: the engine returns a rearrangement of the restaurants that pass the
    predicate: it adds nothing, drops nothing else and duplicates nothing. *)
Theorem filteredRestaurants_permutation (restaurants : list Restaurant.t)
    (searchQuery : string) (selectedFilters : Filters.t) (selectedCity : string)
    (sortBy : SortBy) :
  Permutation
    (filteredRestaurants restaurants searchQuery selectedFilters selectedCity sortBy)
    (filter (matchesFilters selectedCity searchQuery selectedFilters) restaurants).
Proof. apply sortWith_perm. Qed.

#[local] Set Warnings "-inexact-float".

(** Example: with A (NYC, Keto), B (NYC, Vegan) and C (LA, Keto), the city NYC and
    the diet filter Keto give exactly [A]. *)
Example filter_by_city_and_diet :
  filteredRestaurants
    [ listing 1 "A" "NYC" ["Keto"] 4.5; listing 2 "B" "NYC" ["Vegan"] 4.5;
      listing 3 "C" "LA" ["Keto"] 4.5 ]
    "" (dietFilter ["Keto"]) "NYC" ByName
  = [ listing 1 "A" "NYC" ["Keto"] 4.5 ].
Proof. reflexivity. Qed.

(** Example: sorting by rating puts 4.2, 4.9, 3.0 in the order 4.9, 4.2, 3.0. *)
Example sort_by_rating_descending :
  map Restaurant.rating
    (filteredRestaurants
       [ listing 1 "A" "NYC" [] 4.2; listing 2 "B" "NYC" [] 4.9; listing 3 "C" "NYC" [] 3.0 ]
       "" noFilters "New York" ByRating)
  = [ 4.9; 4.2; 3.0 ]%float.
Proof. reflexivity. Qed.

End EngineFacts.

(* ------------------------------------------------------------------ *)
(** ** Pagination / fetch coordinator *)

Section CoordinatorFacts.
Context {host : Host}.

Lemma fetchQuery_beginFetch (reset : bool) (st : AppState.t) :
  fetchQuery reset (beginFetch st) = fetchQuery reset st.
Proof. reflexivity. Qed.

Lemma fetchQuery_range (reset : bool) (st : AppState.t) :
  RestaurantsQuery.from (fetchQuery reset st) =
    (if reset then 0 else AppState.page st * 20)%Z /\
  RestaurantsQuery.to (fetchQuery reset st) =
    (RestaurantsQuery.from (fetchQuery reset st) + 19)%Z.
Proof.
  unfold fetchQuery, pageSize. simpl. split.
  - destruct reset; reflexivity.
  - lia.
Qed.

(** The pending-submissions answer touches neither the restaurants, nor the
    cursor, nor [hasMore]. *)
Lemma applyPending_frame (answer : PendingResponse.t) (st : AppState.t) :
  AppState.restaurants (applyPending answer st) = AppState.restaurants st /\
  AppState.page (applyPending answer st) = AppState.page st /\
  AppState.hasMore (applyPending answer st) = AppState.hasMore st.
Proof.
  unfold applyPending.
  destruct (PendingResponse.error answer); [repeat split|].
  destruct (PendingResponse.data answer); repeat split.
Qed.

Lemma fetchData_frame (backend : Backend) (reset : bool) (st : AppState.t) :
  let st1 := applyRestaurants reset (fetchQuery reset st)
               (selectRestaurants backend (fetchQuery reset st)) (beginFetch st) in
  AppState.restaurants (fetchData backend reset st) = AppState.restaurants st1 /\
  AppState.page (fetchData backend reset st) = AppState.page st1 /\
  AppState.hasMore (fetchData backend reset st) = AppState.hasMore st1.
Proof.
  unfold fetchData, completeFetch. rewrite fetchQuery_beginFetch. cbv zeta.
  simpl. apply applyPending_frame.
Qed.

(** C7: the page size is 20 and the cursor counts pages from zero.  When the
    restaurants query answers with rows and no error, [fetchData(true)] asks
    for offsets 0 to 19, replaces the collection by exactly the rows of the
    answer (normalised) and sets the cursor to 1; [fetchData(false)] asks for
    the 20 offsets from cursor * 20, appends the rows of the answer to the
    collection and adds one to the cursor.  Afterwards [hasMore] is true
    exactly when the requested end offset plus one is below the total count,
    if the answer has a count, and else exactly when the answer has 20
    rows. *)
Theorem fetchData_page (backend : Backend) (st : AppState.t) (reset : bool)
    (rows : list RestaurantRow.t) (count : option Z) :
  selectRestaurants backend (fetchQuery reset st) =
    RestaurantsResponse.mk (Some rows) None count ->
  pageSize = 20%Z /\
  RestaurantsQuery.from (fetchQuery reset st) =
    (if reset then 0 else AppState.page st * 20)%Z /\
  RestaurantsQuery.to (fetchQuery reset st) =
    (RestaurantsQuery.from (fetchQuery reset st) + 19)%Z /\
  AppState.restaurants (fetchData backend reset st) =
    (if reset then map mapRestaurantRow rows
     else AppState.restaurants st ++ map mapRestaurantRow rows) /\
  AppState.page (fetchData backend reset st) =
    (if reset then 1 else AppState.page st + 1)%Z /\
  (AppState.hasMore (fetchData backend reset st) = true <->
   match count with
   | Some total => (RestaurantsQuery.to (fetchQuery reset st) + 1 < total)%Z
   | None => List.length rows = 20%nat
   end).
Proof.
  intros Hanswer.
  destruct (fetchQuery_range reset st) as [Hfrom Hto].
  pose proof (fetchData_frame backend reset st) as Hframe. cbv zeta in Hframe.
  rewrite Hanswer in Hframe. unfold applyRestaurants in Hframe. simpl in Hframe.
  destruct Hframe as [Hr [Hp Hm]].
  split; [reflexivity|]. split; [exact Hfrom|]. split; [exact Hto|].
  split; [|split].
  - etransitivity; [exact Hr|]. destruct reset; reflexivity.
  - etransitivity; [exact Hp|]. destruct reset; reflexivity.
  - replace (AppState.hasMore (fetchData backend reset st)) with
      (match count with
       | Some total => (RestaurantsQuery.to (fetchQuery reset st) + 1 <? total)%Z
       | None => (Z.of_nat (List.length rows) =? pageSize)%Z
       end) by (symmetry; exact Hm).
    destruct count as [total|]; [apply Z.ltb_lt|].
    unfold pageSize. rewrite Z.eqb_eq. lia.
Qed.

(** C10: when the restaurants query answers with an error, [fetchData]
    (with reset true or false) leaves the restaurant collection, the cursor
    and [hasMore] as they were and records the message
    "Failed to load restaurants: ..." as the load error, which the
    pending-submissions query that follows does not overwrite. *)
Theorem fetchData_failed_query (backend : Backend) (st : AppState.t) (reset : bool)
    (message : string) :
  RestaurantsResponse.error (selectRestaurants backend (fetchQuery reset st)) = Some message ->
  AppState.restaurants (fetchData backend reset st) = AppState.restaurants st /\
  AppState.page (fetchData backend reset st) = AppState.page st /\
  AppState.hasMore (fetchData backend reset st) = AppState.hasMore st /\
  AppState.loadError (fetchData backend reset st) =
    Some ("Failed to load restaurants: " ++ message)%string.
Proof.
  intros Herror.
  pose proof (fetchData_frame backend reset st) as Hframe. cbv zeta in Hframe.
  unfold applyRestaurants in Hframe. rewrite Herror in Hframe. simpl in Hframe.
  destruct Hframe as [Hr [Hp Hm]].
  split; [exact Hr|]. split; [exact Hp|]. split; [exact Hm|].
  unfold fetchData, completeFetch. rewrite fetchQuery_beginFetch. cbv zeta.
  unfold applyRestaurants. rewrite Herror. unfold applyPending. simpl.
  destruct (PendingResponse.error (selectPending backend)); [reflexivity|].
  destruct (PendingResponse.data (selectPending backend)); reflexivity.
Qed.

End CoordinatorFacts.

Lemma fetchData_page_witness :
  AppState.restaurants (@fetchData referenceHost demoBackend false afterFirstPage) =
    AppState.restaurants afterFirstPage ++
    map (@mapRestaurantRow referenceHost) (rangeOf 20 39 (numberedRows 45)) /\
  AppState.page (@fetchData referenceHost demoBackend false afterFirstPage) = 2%Z /\
  (AppState.hasMore (@fetchData referenceHost demoBackend false afterFirstPage) = true <->
   (39 + 1 < 45)%Z).
Proof.
  destruct (@fetchData_page referenceHost demoBackend afterFirstPage false
              (rangeOf 20 39 (numberedRows 45)) (Some 45%Z) eq_refl)
    as [_ [_ [_ [Hr [Hp Hm]]]]].
  split; [exact Hr|]. split; [exact Hp|exact Hm].
Defined.

Lemma fetchData_failed_query_witness :
  AppState.restaurants
    (@fetchData referenceHost (failingBackend "timeout" []) true afterFirstPage) =
    AppState.restaurants afterFirstPage /\
  AppState.page
    (@fetchData referenceHost (failingBackend "timeout" []) true afterFirstPage) = 1%Z /\
  AppState.loadError
    (@fetchData referenceHost (failingBackend "timeout" []) true afterFirstPage) =
    Some "Failed to load restaurants: timeout".
Proof.
  destruct (@fetchData_failed_query referenceHost (failingBackend "timeout" [])
              afterFirstPage true "timeout" eq_refl)
    as [Hr [Hp [_ He]]].
  split; [exact Hr|]. split; [exact Hp|exact He].
Defined.

(* ------------------------------------------------------------------ *)
(** ** Moderation *)


Section ModerationFacts.
Context {host : Host}.


End ModerationFacts.


(* ------------------------------------------------------------------ *)
(** ** View on mount *)

(** The two readings the view starts from.  The persisted value gives the
    view of that name when it is one of the six view names (as written, lower
    case) and home otherwise; the fragment, with its leading "#/" or "#"
    removed and lower-cased, gives the view of that name, and every other
    fragment, the absent one included, gives home. *)
Lemma view_resolution (read : StorageRead) (hash : string) :
  (forall v, read = StorageValue (Some (viewName v)) -> getInitialView read = v) /\
  ((forall v, read <> StorageValue (Some (viewName v))) -> getInitialView read = home) /\
  (forall v, toLowerCase (stripHashPrefix hash) = viewName v -> viewFromHash hash = v) /\
  ((forall v, toLowerCase (stripHashPrefix hash) <> viewName v) -> viewFromHash hash = home) /\
  viewFromHash "#/unknown" = home /\
  viewFromHash "" = home.
Proof.
  split; [|split; [|split; [|split; [|split]]]].
  - intros v ->. destruct v; reflexivity.
  - intros Hnone. destruct read as [|[saved|]]; try reflexivity.
    unfold getInitialView.
    destruct (find (fun v => viewName v =? saved) allowed) as [v|] eqn:Hfind;
      [|reflexivity].
    apply find_some in Hfind. destruct Hfind as [_ E]. apply String.eqb_eq in E.
    exfalso. apply (Hnone v). now rewrite E.
  - intros v Hv. unfold viewFromHash. rewrite Hv. destruct v; reflexivity.
  - intros Hnone. unfold viewFromHash.
    repeat match goal with
           | |- (if ?h =? ?name then _ else _) = _ =>
               let E := fresh in
               destruct (h =? name) eqn:E;
               [apply String.eqb_eq in E; exfalso;
                first [ exact (Hnone home E) | exact (Hnone results E)
                      | exact (Hnone about E) | exact (Hnone contact E)
                      | exact (Hnone suggest E) | exact (Hnone admin E) ] |]
           end.
    reflexivity.
  - reflexivity.
  - reflexivity.
Qed.

Lemma View_eqb_eq (a b : View) : View_eqb a b = true <-> a = b.
Proof. destruct a, b; vm_compute; split; intros H; try reflexivity; discriminate H. Qed.

Lemma View_eqb_refl (a : View) : View_eqb a a = true.
Proof. now apply View_eqb_eq. Qed.

Lemma viewFromHash_target (view : View) :
  viewFromHash ("#/" ++ viewName view) = view.
Proof. destruct view; reflexivity. Qed.

Lemma syncHash_hash (view : View) (b : Browser.t) :
  Browser.hash (syncHash view b) = ("#/" ++ viewName view)%string.
Proof.
  unfold syncHash.
  destruct (Browser.hash b =? "#/" ++ viewName view)%string eqn:E; simpl.
  - now apply String.eqb_eq in E.
  - reflexivity.
Qed.

Lemma persistView_hash (t : bool) (view : View) (b : Browser.t) :
  Browser.hash (persistView t view b) = Browser.hash b.
Proof. unfold persistView. now destruct t. Qed.

Lemma viewEffects_hash (t : bool) (view : View) (b : Browser.t) (n : nat) :
  Browser.hash (fst (viewEffects t view b n)) = ("#/" ++ viewName view)%string.
Proof. unfold viewEffects. simpl. now rewrite persistView_hash, syncHash_hash. Qed.

Lemma last_Forall (view : View) (l : list View) :
  Forall (eq view) l -> last l view = view.
Proof.
  induction l as [|x l IH]; intros H; [reflexivity|].
  inversion H as [|? ? Hx Hl]; subst.
  destruct l as [|y l]; [reflexivity|].
  change (last (x :: y :: l) x) with (last (y :: l) x). now apply IH.
Qed.

Lemma atRest_step (t : bool) (view : View) (a b : ViewState.t) :
  atRest view a -> viewStep t a b -> atRest view b.
Proof.
  intros (Hc & Hq & Hh) Hs. destruct Hs as [st _|st _].
  - unfold render. rewrite Hc, (last_Forall _ _ Hq), View_eqb_refl.
    repeat split; simpl; auto.
  - unfold deliver, atRest; simpl. repeat split; auto.
    apply Forall_app; split; [assumption|].
    constructor; [|constructor]. unfold onHashChange. now rewrite Hh.
Qed.

Lemma atRest_steps (t : bool) (view : View) (a b : ViewState.t) :
  atRest view a -> viewSteps t a b -> ViewState.currentView b = view.
Proof.
  intros Ha Hs. induction Hs as [st|x y z Hxy _ IH].
  - apply Ha.
  - apply IH. eapply atRest_step; eassumption.
Qed.

Lemma quiet_step (t : bool) (view : View) (a b : ViewState.t) :
  quiet view a -> viewStep t a b -> quiet view b.
Proof.
  intros (Hc & Hq & Hn) Hs. destruct Hs as [st _|st Hne].
  - unfold render. rewrite Hc, Hq, View_eqb_refl. repeat split; simpl; auto.
  - now destruct Hne.
Qed.

Lemma quiet_steps (t : bool) (view : View) (a b : ViewState.t) :
  quiet view a -> viewSteps t a b -> ViewState.currentView b = view.
Proof.
  intros Ha Hs. induction Hs as [st|x y z Hxy _ IH].
  - apply Ha.
  - apply IH. eapply quiet_step; eassumption.
Qed.

(** After the first commit the fragment names the initial view. *)
Lemma mount_cases (g t : bool) (b : Browser.t) :
  let v0 := getInitialView (readStorage g b) in
  let h0 := viewFromHash (Browser.hash b) in
  let st := mount g t b in
  ViewState.currentView st = v0 /\
  ViewState.queued st = (if negb (View_eqb h0 v0) then [h0] else []) /\
  Browser.hash (ViewState.browser st) = ("#/" ++ viewName v0)%string /\
  ViewState.hashchanges st =
    (if Browser.hash b =? "#/" ++ viewName v0 then 0 else 1)%string.
Proof.
  cbv zeta. unfold mount.
  set (v0 := getInitialView (readStorage g b)).
  pose proof (viewEffects_hash t v0 b 0) as Hh.
  unfold viewEffects in *. simpl in *.
  repeat split; try assumption.
  match goal with |- context [String.eqb ?x ?y] => now destruct (String.eqb x y) end.
Qed.

(** Wherever the component comes to rest after mounting, it shows the
    persisted view or the view of the fragment. *)
Lemma settled_view_is_initial_or_fragment (g t : bool) (b : Browser.t) (view : View) :
  settlesAt g t b view ->
  view = getInitialView (readStorage g b) \/ view = viewFromHash (Browser.hash b).
Proof.
  intros (st & Hs & Hset & Hv).
  pose proof (mount_cases g t b) as Hm. cbv zeta in Hm.
  unfold settlesAt in *.
  remember (mount g t b) as s0 eqn:Hs0. clear Hs0.
  remember (getInitialView (readStorage g b)) as v0 eqn:Hv0. clear Hv0.
  remember (viewFromHash (Browser.hash b)) as h0 eqn:Hh0.
  destruct Hm as (Hc & Hq & Hh & Hn).
  destruct (View_eqb h0 v0) eqn:E; simpl in Hq.
  - (* fragment and persisted view agree *)
    left. rewrite <- Hv. eapply atRest_steps; [|exact Hs].
    split; [exact Hc|split].
    + rewrite Hq. constructor.
    + rewrite Hh. apply viewFromHash_target.
  - (* they differ: the first step decides *)
    inversion Hs as [x Hx Hy|x y z Hxy Hyz Hx Hz]; subst st.
    + destruct Hset as (Hq' & _). rewrite Hq in Hq'. discriminate Hq'.
    + subst x. inversion Hxy as [x Hne Hx Hy|x Hne Hx Hy]; subst x; subst y.
      * (* the render comes first: the view of the fragment *)
        right. rewrite <- Hv. eapply atRest_steps; [|exact Hyz].
        unfold render. rewrite Hq, Hc. simpl. rewrite E.
        split; [reflexivity|split].
        -- constructor.
        -- cbn [ViewState.browser].
           rewrite persistView_hash, syncHash_hash. apply viewFromHash_target.
      * (* the event comes first: the persisted view *)
        left. rewrite <- Hv. eapply quiet_steps; [|exact Hyz].
        assert (Hone : ViewState.hashchanges s0 = 1).
        { rewrite Hn.
          destruct (Browser.hash b =? "#/" ++ viewName v0)%string eqn:Eh; [|reflexivity].
          apply String.eqb_eq in Eh. exfalso.
          assert (Hx : h0 = v0) by (rewrite Hh0, Eh; apply viewFromHash_target).
          rewrite Hx, View_eqb_refl in E. discriminate E. }
        unfold deliver, quiet. cbn [ViewState.currentView ViewState.queued
                                    ViewState.browser ViewState.hashchanges].
        rewrite Hc, Hq, Hh, Hone. unfold onHashChange. rewrite viewFromHash_target.
        split; [reflexivity|split; reflexivity].
Qed.

(** From a state at rest the component settles, in the committed view:
    the pending events are delivered, then one render empties the queue. *)
Lemma atRest_settles (t : bool) (view : View) (n : nat) :
  forall st : ViewState.t,
    ViewState.hashchanges st = n -> atRest view st ->
    exists st', viewSteps t st st' /\ settled st' /\ ViewState.currentView st' = view.
Proof.
  induction n as [|n IH]; intros st Hn Ha.
  - destruct (ViewState.queued st) as [|x q] eqn:Eq.
    + exists st. split; [constructor|]. split; [split; assumption|apply Ha].
    + exists (render t st). split.
      * eapply viewSteps_step; [|constructor]. constructor. rewrite Eq. discriminate.
      * destruct Ha as (Hc & Hq & Hh).
        unfold render. rewrite Hc, (last_Forall _ _ Hq), View_eqb_refl.
        split; [split; [reflexivity|exact Hn]|reflexivity].
  - assert (Hs : viewStep t st (deliver st)) by (constructor; rewrite Hn; discriminate).
    destruct (IH (deliver st)) as (st' & Hst & Hset & Hv).
    + unfold deliver. cbn [ViewState.hashchanges]. now rewrite Hn.
    + eapply atRest_step; eassumption.
    + exists st'. split; [|split; assumption]. eapply viewSteps_step; eassumption.
Qed.

(** The component comes to rest in the persisted view, or in the view of
    the fragment, and both happen: when the two differ, the view depends on
    whether React re-renders before the browser delivers the [hashchange]
    that the hash-sync effect of the first commit fired. *)
Lemma settlesAt_iff (g t : bool) (b : Browser.t) (view : View) :
  settlesAt g t b view <->
  view = getInitialView (readStorage g b) \/ view = viewFromHash (Browser.hash b).
Proof.
  split; [apply settled_view_is_initial_or_fragment|].
  intros Hview. unfold settlesAt.
  pose proof (mount_cases g t b) as Hm. cbv zeta in Hm.
  remember (mount g t b) as s0 eqn:Hs0. clear Hs0.
  remember (getInitialView (readStorage g b)) as v0 eqn:Hv0. clear Hv0.
  remember (viewFromHash (Browser.hash b)) as h0 eqn:Hh0.
  destruct Hm as (Hc & Hq & Hh & Hn).
  destruct (View_eqb h0 v0) eqn:E; simpl in Hq.
  - apply View_eqb_eq in E.
    assert (Hv : view = v0) by (destruct Hview; congruence). rewrite Hv.
    apply (atRest_settles t v0 (ViewState.hashchanges s0)); [reflexivity|].
    split; [exact Hc|split].
    + rewrite Hq. constructor.
    + rewrite Hh. apply viewFromHash_target.
  - assert (Hone : ViewState.hashchanges s0 = 1).
    { rewrite Hn.
      destruct (Browser.hash b =? "#/" ++ viewName v0)%string eqn:Eh; [|reflexivity].
      apply String.eqb_eq in Eh. exfalso.
      assert (Hx : h0 = v0) by (rewrite Hh0, Eh; apply viewFromHash_target).
      rewrite Hx, View_eqb_refl in E. discriminate E. }
    destruct Hview as [Hv|Hv]; rewrite Hv.
    + (* the event first, then the render *)
      exists (render t (deliver s0)). split.
      * eapply viewSteps_step; [constructor; rewrite Hone; discriminate|].
        eapply viewSteps_step; [|constructor].
        constructor. unfold deliver. cbn [ViewState.queued].
        rewrite Hq. discriminate.
      * unfold render, deliver.
        cbn [ViewState.currentView ViewState.queued ViewState.browser
             ViewState.hashchanges].
        rewrite Hc, Hq, Hh, Hone. unfold onHashChange. rewrite viewFromHash_target.
        cbn [app last]. rewrite View_eqb_refl.
        split; [split; reflexivity|reflexivity].
    + (* the render first *)
      assert (Hs : viewStep t s0 (render t s0)) by (constructor; rewrite Hq; discriminate).
      destruct (atRest_settles t h0 (ViewState.hashchanges (render t s0)) (render t s0))
        as (st' & Hst & Hset & Hcur); [reflexivity| |].
      * unfold render. rewrite Hq, Hc. cbn [last]. rewrite E.
        split; [reflexivity|split].
        -- constructor.
        -- cbn [ViewState.browser fst viewEffects].
           rewrite persistView_hash, syncHash_hash. apply viewFromHash_target.
      * exists st'. split; [|split; assumption]. eapply viewSteps_step; eassumption.
Qed.

(** C8 does not hold of the code.  With "about" persisted and no fragment
    in the URL the first render shows about, as the claim says; but the mount
    effect asks for home, the view of the absent fragment, and the hash-sync
    effect of the same commit writes "#/about" and fires a [hashchange].  If
    React re-renders before that event is delivered, the view becomes home,
    the fragment and the stored name follow, and the persisted view is lost;
    if the event is delivered first, its listener asks for about again and
    the view stays.  By that second order a valid fragment loses as well:
    with "about" persisted and the fragment "#/results" the component can
    come to rest in about as well as in results. *)
Theorem persisted_view_lost_on_mount :
  let bare := Browser.mk "" (Some "about") in
  let deep := Browser.mk "#/results" (Some "about") in
  getInitialView (readStorage false bare) = about /\
  viewFromHash (Browser.hash bare) = home /\
  viewSteps false (mount false false bare)
    (ViewState.mk home [] (Browser.mk "#/home" (Some "home")) 0) /\
  viewSteps false (mount false false bare)
    (ViewState.mk about [] (Browser.mk "#/about" (Some "about")) 0) /\
  (forall view : View, settlesAt false false bare view <-> view = about \/ view = home) /\
  (forall view : View, settlesAt false false deep view <-> view = about \/ view = results).
Proof.
  cbv zeta. split; [reflexivity|]. split; [reflexivity|]. split; [|split; [|split]].
  - (* the render, then the two events, then a render that changes nothing *)
    eapply viewSteps_step; [apply viewStep_render; vm_compute; discriminate|].
    eapply viewSteps_step; [apply viewStep_deliver; vm_compute; discriminate|].
    eapply viewSteps_step; [apply viewStep_deliver; vm_compute; discriminate|].
    eapply viewSteps_step; [apply viewStep_render; vm_compute; discriminate|].
    apply viewSteps_refl.
  - (* the event, then a render that changes nothing *)
    eapply viewSteps_step; [apply viewStep_deliver; vm_compute; discriminate|].
    eapply viewSteps_step; [apply viewStep_render; vm_compute; discriminate|].
    apply viewSteps_refl.
  - intros view. apply settlesAt_iff.
  - intros view. apply settlesAt_iff.
Qed.

(* ------------------------------------------------------------------ *)
(** ** Field normaliser: the three collections *)

Lemma filterTruthy_In (items : list (option string)) (x : string) :
  In x (filterTruthy items) <-> In (Some x) items /\ x <> "".
Proof.
  induction items as [|[s|] rest IH]; simpl.
  - tauto.
  - destruct (nonEmpty s) eqn:E.
    + simpl. rewrite IH. apply nonEmpty_true in E. split.
      * intros [->|[H1 H2]]; auto.
      * intros [[[= ->]|H1] H2]; auto.
    + rewrite IH. apply nonEmpty_false in E. split.
      * intros [H1 H2]; auto.
      * intros [[[= ->]|H1] H2]; [contradiction|auto].
  - rewrite IH. split.
    + intros [H1 H2]; auto.
    + intros [[H|H1] H2]; [discriminate|auto].
Qed.

Lemma splitToArray_string_In (s x : string) :
  In x (splitToArray (OilsString s)) <->
  x <> "" /\ exists piece, In piece (split isFieldSeparator s) /\ x = trim piece.
Proof.
  simpl. rewrite filter_In, in_map_iff, nonEmpty_true. split.
  - intros [[piece [<- Hp]] Hx]. split; [exact Hx|]. now exists piece.
  - intros [Hx [piece [Hp ->]]]. split; [now exists piece|exact Hx].
Qed.

Lemma tagsFromJoin_In (row : RestaurantRow.t) (x : string) :
  In x (tagsFromJoin row) <->
  x <> "" /\
  exists joins jr,
    RestaurantRow.restaurant_dietary_tags row = Some joins /\
    In (Some jr) joins /\ JoinRow.dietary_tags jr = Some (Some x).
Proof.
  unfold tagsFromJoin. rewrite filterTruthy_In, in_map_iff. split.
  - intros [[j [Hj Hin]] Hx]. split; [exact Hx|].
    destruct (RestaurantRow.restaurant_dietary_tags row) as [joins|]; [|destruct Hin].
    destruct j as [jr|]; [|discriminate].
    exists joins, jr. repeat split; [exact Hin|].
    destruct (JoinRow.dietary_tags jr) as [n|]; [now subst|discriminate].
  - intros [Hx [joins [jr [Hrow [Hin Hname]]]]]. split; [|exact Hx].
    exists (Some jr). rewrite Hrow, Hname. auto.
Qed.

Section NormalizerFacts.
Context {host : Host}.

Lemma parse_failure_gallery (row : RestaurantRow.t) (text : string) :
  RestaurantRow.image_urls row = Str text ->
  JSON_parse text = None ->
  resolveImageArray row =
    if nonEmpty (primaryOf row) && isAbsoluteUrl (primaryOf row) then [primaryOf row] else [].
Proof.
  intros Hraw Hparse. unfold resolveImageArray, primaryOf. rewrite Hraw, Hparse.
  destruct (toBoolean (Str text));
    rewrite app_nil_r;
    destruct (nonEmpty _ && isAbsoluteUrl _); reflexivity.
Qed.

Lemma parse_failure_primary (row : RestaurantRow.t) (text : string) :
  RestaurantRow.image_urls row = Str text ->
  JSON_parse (trim text) = None ->
  resolvePrimaryImage row =
    if nonEmpty (primaryOf row) && isAbsoluteUrl (primaryOf row) then Str (primaryOf row)
    else if isAbsoluteUrl (trim text) then Str (trim text)
    else Str fallbackImage.
Proof.
  intros Hraw Hparse. unfold resolvePrimaryImage, primaryOf. rewrite Hraw.
  destruct (nonEmpty _ && isAbsoluteUrl _); [reflexivity|].
  unfold resolveFromImageUrls. rewrite Hparse, trim_idempotent.
  destruct (toBoolean (Str (trim text))) eqn:E; simpl; [reflexivity|].
  simpl in E. apply negb_false_iff, String.eqb_eq in E. rewrite E. reflexivity.
Qed.

Lemma parse_failure_extra (text : string) :
  JSON_parse text = None ->
  parseExtra (Str text) = if nonEmpty text then Str text else Undefined.
Proof.
  intros Hparse. unfold parseExtra. simpl. rewrite Hparse.
  destruct (nonEmpty text); reflexivity.
Qed.

(** On a row of the declared type the normaliser returns one restaurant
    whose [oilsUsed], [oilsAvoided] and [dietaryTags] are
    lists.  The oils are [splitToArray] of their column: a null column gives
    the empty list; a string, whatever it holds (JSON and malformed JSON
    included, no parser is applied to it), is cut at every ';', ',' and
    newline, each piece trimmed and the empty ones dropped; an array keeps, in
    order, its entries that are neither null nor empty.  The tags are the
    non-empty names of the joined tag rows, the empty list when the join is
    null.  JSON is parsed only for the image and extras columns, and a parse
    failure there is caught: the gallery keeps the primary image alone if that
    is an absolute URL and is empty otherwise, the primary image falls back to
    the trimmed text if that is an absolute URL and to the placeholder
    otherwise, and the recommended dishes and social links keep the raw
    text. *)
Lemma typed_row_collections (row : RestaurantRow.t) :
  (Restaurant.oilsUsed (mapRestaurantRow row) = splitToArray (RestaurantRow.oils_used row) /\
   Restaurant.oilsAvoided (mapRestaurantRow row) = splitToArray (RestaurantRow.oils_avoided row) /\
   Restaurant.dietaryTags (mapRestaurantRow row) = tagsFromJoin row) /\
  (splitToArray OilsNull = [] /\
   (RestaurantRow.restaurant_dietary_tags row = None -> tagsFromJoin row = [])) /\
  (forall s : string,
     splitToArray (OilsString s) = filter nonEmpty (map trim (split isFieldSeparator s)) /\
     (exists seps : list ascii,
        List.length (split isFieldSeparator s) = S (List.length seps) /\
        forallb isFieldSeparator seps = true /\
        interleave (split isFieldSeparator s) seps = s /\
        forallb (fun piece => negb (anyChar isFieldSeparator piece))
                (split isFieldSeparator s) = true) /\
     (forall x, In x (splitToArray (OilsString s)) <->
                x <> "" /\ exists piece, In piece (split isFieldSeparator s) /\ x = trim piece)) /\
  (forall (items : list (option string)) (x : string),
     In x (splitToArray (OilsArray items)) <-> In (Some x) items /\ x <> "") /\
  (forall x, In x (tagsFromJoin row) <->
             x <> "" /\
             exists joins jr,
               RestaurantRow.restaurant_dietary_tags row = Some joins /\
               In (Some jr) joins /\ JoinRow.dietary_tags jr = Some (Some x)) /\
  (forall text : string,
     RestaurantRow.image_urls row = Str text ->
     (JSON_parse text = None ->
      Restaurant.imageUrls (mapRestaurantRow row) =
        if nonEmpty (primaryOf row) && isAbsoluteUrl (primaryOf row)
        then [primaryOf row] else []) /\
     (JSON_parse (trim text) = None ->
      Restaurant.imageUrl (mapRestaurantRow row) =
        if nonEmpty (primaryOf row) && isAbsoluteUrl (primaryOf row) then Str (primaryOf row)
        else if isAbsoluteUrl (trim text) then Str (trim text)
        else Str fallbackImage)) /\
  (forall text : string,
     JSON_parse text = None ->
     (RestaurantRow.recommended_dishes row = Str text ->
      Restaurant.recommendedDishes (mapRestaurantRow row) =
        if nonEmpty text then Str text else Undefined) /\
     (RestaurantRow.social_links row = Str text ->
      Restaurant.socialLinks (mapRestaurantRow row) =
        if nonEmpty text then Str text else Undefined)).
Proof.
  split; [repeat split|].
  split; [split; [reflexivity|]|].
  { intros H. unfold tagsFromJoin. now rewrite H. }
  split.
  { intros s. split; [reflexivity|]. split; [apply split_decomposes|].
    intros x. apply splitToArray_string_In. }
  split; [intros items x; apply filterTruthy_In|].
  split; [intros x; apply tagsFromJoin_In|].
  split.
  - intros text Hraw. split; intros Hparse.
    + now apply parse_failure_gallery with (text := text).
    + now apply parse_failure_primary.
  - intros text Hparse.
    split; intros Hraw; simpl; rewrite Hraw; now apply parse_failure_extra.
Qed.

End NormalizerFacts.

(** Malformed JSON in an oils column: the text of a JSON array of the two
    strings Olive Oil and Ghee, without its closing bracket, does not parse,
    and the normaliser does not degrade to an empty collection but returns
    the two pieces the comma separates. *)
Lemma malformed_json_oils_are_split :
  parseJSON malformedOils = None /\
  Restaurant.oilsUsed (@mapRestaurantRow referenceHost (oilsRow (OilsString malformedOils))) =
    [("[" ++ quoted "Olive Oil")%string; quoted "Ghee"] /\
  Restaurant.oilsUsed (@mapRestaurantRow referenceHost (oilsRow (OilsString malformedOils))) <> [].
Proof.
  split; [vm_compute; reflexivity|]. split; [vm_compute; reflexivity|].
  vm_compute. discriminate.
Qed.

(* ------------------------------------------------------------------ *)
(** ** Field normaliser: a record of any shape *)

Lemma splitToArrayAny_typed (v : OilsField) :
  splitToArrayAny (encodeOils v) = map Str (splitToArray v).
Proof.
  destruct v as [|s|items]; simpl; try reflexivity.
  induction items as [|[s|] rest IH]; simpl; try assumption; [reflexivity|].
  destruct (nonEmpty s); simpl; now rewrite IH.
Qed.

Lemma tagsFromJoinAny_typed (row : RestaurantRow.t) :
  tagsFromJoinAny (encodeJoins (RestaurantRow.restaurant_dietary_tags row))
  = Some (map Str (tagsFromJoin row)).
Proof.
  unfold tagsFromJoin.
  destruct (RestaurantRow.restaurant_dietary_tags row) as [joins|]; [|reflexivity].
  unfold tagsFromJoinAny, encodeJoins, vor. cbn [toBoolean]. f_equal.
  induction joins as [|j rest IH]; [reflexivity|].
  cbn [map filter filterTruthy]. rewrite IH.
  destruct j as [[[[s|]|]]|]; try reflexivity.
  cbn. destruct (nonEmpty s); reflexivity.
Qed.

Section NormalizerAnyFacts.
Context {host : Host}.
Variable stringToNumber : string -> float.

Lemma tagsFromJoinAny_throws (field : value) :
  tagsFromJoinAny field = None <-> toBoolean field = true /\ isArray field = false.
Proof.
  unfold tagsFromJoinAny, vor.
  destruct field as [| |[|]|x|s|items|props]; cbn [toBoolean isArray];
    try (split; [intros H; discriminate H|intros [H1 H2]; discriminate]);
    try (split; [intros _; split; reflexivity|reflexivity]).
  - destruct (negb (PrimFloat.eqb x 0 || PrimFloat.is_nan x)).
    + split; [intros _; split; reflexivity|reflexivity].
    + split; [intros H; discriminate H|intros [H1 H2]; discriminate].
  - destruct (nonEmpty s).
    + split; [intros _; split; reflexivity|reflexivity].
    + split; [intros H; discriminate H|intros [H1 H2]; discriminate].
Qed.

Lemma primaryImage_throws (field : value) :
  primaryImage field = None <-> toBoolean field = true /\ isString field = false.
Proof.
  unfold primaryImage, vor.
  destruct field as [| |[|]|x|s|items|props]; cbn [toBoolean isString];
    try (split; [intros H; discriminate H|intros [H1 H2]; discriminate]);
    try (split; [intros _; split; reflexivity|reflexivity]).
  - destruct (negb (PrimFloat.eqb x 0 || PrimFloat.is_nan x)).
    + split; [intros _; split; reflexivity|reflexivity].
    + split; [intros H; discriminate H|intros [H1 H2]; discriminate].
  - destruct (nonEmpty s); split; try (intros H; discriminate H);
      intros [H1 H2]; discriminate.
Qed.

Lemma toStringValue_primitive (v : value) :
  toStringValue v = None -> toBoolean v = true /\ isObjectType v = true.
Proof.
  destruct v as [| |[|]|x|s|items|props]; intros H; try discriminate H;
    split; reflexivity.
Qed.

Lemma classifyVerificationAny_throws (field : value) :
  classifyVerificationAny field = None <-> toStringValue field = None.
Proof.
  split.
  - unfold classifyVerificationAny.
    destruct field as [| |[|]|x|s|items|props]; cbn [coalesce toBoolean negb];
      try (intros H; discriminate H).
    + destruct (negb (negb (PrimFloat.eqb x 0 || PrimFloat.is_nan x)));
        intros H; discriminate H.
    + destruct (negb (nonEmpty s)); intros H; discriminate H.
    + destruct (toStringValue (Arr items)); [intros H; discriminate H|reflexivity].
    + destruct (toStringValue (Obj props)); [intros H; discriminate H|reflexivity].
  - intros H. unfold classifyVerificationAny.
    destruct (toStringValue_primitive _ H) as [Ht Ho].
    destruct field; try discriminate Ho; try discriminate Ht;
      cbn [coalesce toBoolean negb]; now rewrite H.
Qed.

Lemma toNumber_throws (field : value) :
  toNumber stringToNumber (coalesce field (Num 0%float)) = None <->
  toStringValue field = None.
Proof.
  destruct field as [| |[|]|x|s|items|props]; cbn [coalesce toNumber];
    try (split; intros H; discriminate H).
  - destruct (toStringValue (Arr items)); simpl; split; intros H;
      (discriminate H || reflexivity).
  - destruct (toStringValue (Obj props)); simpl; split; intros H;
      (discriminate H || reflexivity).
Qed.

Lemma resolvePrimaryImageAny_throws (image_url image_urls : value) :
  resolvePrimaryImageAny image_url image_urls = None <-> primaryImage image_url = None.
Proof.
  unfold resolvePrimaryImageAny. destruct (primaryImage image_url).
  - split; intros H; discriminate H.
  - split; reflexivity.
Qed.

Lemma resolveImageArrayAny_throws (image_url image_urls : value) :
  resolveImageArrayAny image_url image_urls = None <-> primaryImage image_url = None.
Proof.
  unfold resolveImageArrayAny. destruct (primaryImage image_url).
  - split; intros H; discriminate H.
  - split; reflexivity.
Qed.

Lemma all_or_nothing {A B C D E F R : Type}
      (a : option A) (b : option B) (c : option C) (d : option D)
      (e : option E) (f : option F) (k : A -> B -> C -> D -> E -> F -> R) :
  match a, b, c, d, e, f with
  | Some x1, Some x2, Some x3, Some x4, Some x5, Some x6 => Some (k x1 x2 x3 x4 x5 x6)
  | _, _, _, _, _, _ => None
  end = None <->
  a = None \/ b = None \/ c = None \/ d = None \/ e = None \/ f = None.
Proof.
  destruct a, b, c, d, e, f; split; intros H; auto 7;
    try discriminate H;
    destruct H as [H|[H|[H|[H|[H|H]]]]]; discriminate H.
Qed.

(** The exceptions that leave [mapRestaurantRow]: the argument is
    [undefined] or [null]; [restaurant_dietary_tags] is truthy and not an
    array; [image_url] is truthy and not a string; or [String] or [Number]
    meets a value that has no primitive ([verification_method], [rating],
    [review_count]). *)
Lemma mapRestaurantRowAny_throws (rowAny : value) :
  mapRestaurantRowAny stringToNumber rowAny = None <->
  rowAny = Undefined \/ rowAny = Null \/
  (toBoolean (getFieldOpt rowAny "restaurant_dietary_tags") = true /\
   isArray (getFieldOpt rowAny "restaurant_dietary_tags") = false) \/
  (toBoolean (getFieldOpt rowAny "image_url") = true /\
   isString (getFieldOpt rowAny "image_url") = false) \/
  toStringValue (getFieldOpt rowAny "verification_method") = None \/
  toStringValue (getFieldOpt rowAny "rating") = None \/
  toStringValue (getFieldOpt rowAny "review_count") = None.
Proof.
  rewrite <- tagsFromJoinAny_throws, <- primaryImage_throws,
          <- classifyVerificationAny_throws,
          <- (toNumber_throws (getFieldOpt rowAny "rating")),
          <- (toNumber_throws (getFieldOpt rowAny "review_count")).
  assert (Hnull : forall P : Prop,
             (P <-> rowAny = Undefined \/ rowAny = Null \/ P) \/
             rowAny = Undefined \/ rowAny = Null).
  { intros P. destruct rowAny; auto;
      left; (split; [intros H; auto|intros [H|[H|H]]; [discriminate H|discriminate H|exact H]]). }
  destruct rowAny as [| |b|x|s|items|props];
    try (split; [intros _; auto|reflexivity]);
    unfold mapRestaurantRowAny; cbv beta iota zeta;
    (etransitivity; [apply all_or_nothing|]);
    rewrite resolvePrimaryImageAny_throws, resolveImageArrayAny_throws;
    (split;
     [intros [H|[H|[H|[H|[H|H]]]]]; auto 8
     |intros [H|[H|[H|[H|[H|[H|H]]]]]]; try discriminate H; auto 8]).
Qed.

Lemma all_present {A B C D E F R : Type}
      (a : option A) (b : option B) (c : option C) (d : option D)
      (e : option E) (f : option F) (k : A -> B -> C -> D -> E -> F -> R) (r : R) :
  match a, b, c, d, e, f with
  | Some x1, Some x2, Some x3, Some x4, Some x5, Some x6 => Some (k x1 x2 x3 x4 x5 x6)
  | _, _, _, _, _, _ => None
  end = Some r ->
  exists x1 x2 x3 x4 x5 x6,
    a = Some x1 /\ b = Some x2 /\ c = Some x3 /\ d = Some x4 /\ e = Some x5 /\
    f = Some x6 /\ r = k x1 x2 x3 x4 x5 x6.
Proof.
  destruct a as [x1|], b as [x2|], c as [x3|], d as [x4|], e as [x5|], f as [x6|];
    intros H; try discriminate H.
  injection H as <-. exists x1, x2, x3, x4, x5, x6. repeat split.
Qed.

(** When it returns, the three collections of the result are arrays, made
    from the fields as [splitToArray] and the join expression say. *)
Lemma mapRestaurantRowAny_collections (rowAny result : value) :
  mapRestaurantRowAny stringToNumber rowAny = Some result ->
  exists tags : list value,
    tagsFromJoinAny (getFieldOpt rowAny "restaurant_dietary_tags") = Some tags /\
    getFieldOpt result "dietaryTags" = Arr tags /\
    getFieldOpt result "oilsUsed" = Arr (splitToArrayAny (getFieldOpt rowAny "oils_used")) /\
    getFieldOpt result "oilsAvoided"
    = Arr (splitToArrayAny (getFieldOpt rowAny "oils_avoided")).
Proof.
  unfold mapRestaurantRowAny.
  destruct rowAny as [| |b|x|s|items|props]; try (intros H; discriminate H);
    cbv beta iota zeta; intros H; apply all_present in H;
    destruct H as (tags & x2 & x3 & x4 & x5 & x6 & Ht & _ & _ & _ & _ & _ & ->);
    exists tags; (split; [exact Ht|split; [reflexivity|split; reflexivity]]).
Qed.

End NormalizerAnyFacts.

Section Agreement.
Context {host : Host}.
Variable stringToNumber : string -> float.
Variable idNumber : Z -> float.

Lemma classifyVerificationAny_typed (raw : option string) :
  classifyVerificationAny (encodeText raw)
  = Some (encodeText (option_map methodText (classifyVerification raw))).
Proof.
  destruct raw as [text|]; [|reflexivity].
  unfold classifyVerificationAny, classifyVerification.
  cbn [encodeText coalesce toBoolean toStringValue].
  destruct (negb (nonEmpty text)); [reflexivity|].
  destruct (matchesAny visitedKeywords _); [reflexivity|].
  destruct (matchesAny calledKeywords _); reflexivity.
Qed.

Lemma primaryImage_typed (image_url : option string) :
  primaryImage (encodeText image_url) = Some (trim (fromNullable image_url)).
Proof.
  destruct image_url as [s|]; [|reflexivity].
  unfold primaryImage, vor. cbn [encodeText toBoolean fromNullable].
  destruct (nonEmpty s) eqn:E; [reflexivity|].
  apply negb_false_iff, String.eqb_eq in E. now rewrite E.
Qed.

Lemma resolvePrimaryImageAny_typed (row : RestaurantRow.t) :
  resolvePrimaryImageAny (encodeText (RestaurantRow.image_url row))
                         (RestaurantRow.image_urls row)
  = Some (resolvePrimaryImage row).
Proof.
  unfold resolvePrimaryImageAny, resolvePrimaryImage.
  now rewrite primaryImage_typed.
Qed.

Lemma resolveImageArrayAny_typed (row : RestaurantRow.t) :
  resolveImageArrayAny (encodeText (RestaurantRow.image_url row))
                       (RestaurantRow.image_urls row)
  = Some (resolveImageArray row).
Proof.
  unfold resolveImageArrayAny, resolveImageArray.
  now rewrite primaryImage_typed.
Qed.

Lemma toNumber_typed (x : option float) :
  toNumber stringToNumber (coalesce (encodeNumber x) (Num 0%float))
  = Some (match x with Some y => y | None => 0%float end).
Proof. destruct x; reflexivity. Qed.

(** On a row of the declared type the two readings of [mapRestaurantRow]
    agree: the function on any value returns, and returns the restaurant of
    the typed function. *)
Lemma mapRestaurantRowAny_typed (row : RestaurantRow.t) :
  mapRestaurantRowAny stringToNumber (encodeRow idNumber row)
  = Some (encodeRestaurant idNumber (mapRestaurantRow row)).
Proof.
  unfold mapRestaurantRowAny, encodeRow.
  cbn [getFieldOpt getField lookupProp String.eqb Ascii.eqb Bool.eqb].
  rewrite tagsFromJoinAny_typed, classifyVerificationAny_typed,
          resolvePrimaryImageAny_typed, resolveImageArrayAny_typed, !toNumber_typed.
  rewrite !splitToArrayAny_typed.
  unfold encodeRestaurant, mapRestaurantRow.
  cbn [Restaurant.id Restaurant.name Restaurant.address Restaurant.neighborhood
       Restaurant.city Restaurant.oilsUsed Restaurant.oilsAvoided Restaurant.dietaryTags
       Restaurant.verified Restaurant.verificationDate Restaurant.verificationMethod
       Restaurant.website Restaurant.instagram Restaurant.menuLink Restaurant.priceRange
       Restaurant.orderType Restaurant.sourcingNotes Restaurant.imageUrl
       Restaurant.imageUrls Restaurant.rating Restaurant.reviewCount Restaurant.hours
       Restaurant.cuisine Restaurant.lastUpdated Restaurant.phone Restaurant.email
       Restaurant.latitude Restaurant.longitude Restaurant.outdoorSeating
       Restaurant.delivery Restaurant.familyFriendly Restaurant.celiacSafe
       Restaurant.recommendedDishes Restaurant.socialLinks].
  do 2 f_equal.
  repeat match goal with
         | |- _ :: _ = _ :: _ => apply f_equal2
         | |- (_, _) = (_, _) => apply f_equal2
         end;
    try reflexivity;
    try (match goal with
         | |- context [encodeText ?x] => destruct x; reflexivity
         | |- context [encodeFlag ?x] => destruct x; reflexivity
         | |- context [encodeNumber ?x] => destruct x; reflexivity
         end).
  destruct (RestaurantRow.city_rel row) as [[relName|]|]; [reflexivity| |];
    (destruct (RestaurantRow.city row) as [c|]; cbn;
     [unfold vor; cbn [toBoolean]; destruct (nonEmpty c); [reflexivity|]|];
     destruct (RestaurantRow.location row); reflexivity).
Qed.

End Agreement.

(** C2 does not hold of the code.  A record whose [restaurant_dietary_tags]
    is a delimited string, one of the shapes the claim lists, makes
    [mapRestaurantRow] throw a TypeError outward: [|| []] guards the falsy
    values only and [map] is called on the string; [splitToArray], which
    guards the oils columns, would have split the same string in two.  So
    does every record whose [restaurant_dietary_tags] is a non-empty string.
    The same record with a null join, or with an array of joined rows, is
    normalised: the tags are the empty array, or the names in order. *)
Theorem normalizer_throws_on_string_tags (host : Host) (stringToNumber : string -> float) :
  let record := fun tags : value =>
    Obj [ ("id", Num 7%float); ("name", Str "Green Fork");
          ("oils_used", Str "Olive Oil; Ghee");
          ("restaurant_dietary_tags", tags) ] in
  mapRestaurantRowAny stringToNumber (record (Str "Keto, Vegan")) = None /\
  splitToArrayAny (Str "Keto, Vegan") = [Str "Keto"; Str "Vegan"] /\
  (forall (fields : list (string * value)) (text : string),
     lookupProp fields "restaurant_dietary_tags" = Str text -> text <> "" ->
     mapRestaurantRowAny stringToNumber (Obj fields) = None) /\
  (exists result : value,
     mapRestaurantRowAny stringToNumber (record Null) = Some result /\
     getFieldOpt result "dietaryTags" = Arr [] /\
     getFieldOpt result "oilsUsed" = Arr [Str "Olive Oil"; Str "Ghee"] /\
     getFieldOpt result "oilsAvoided" = Arr []) /\
  (exists result : value,
     mapRestaurantRowAny stringToNumber
       (record (Arr [ Obj [("dietary_tags", Obj [("name", Str "Keto")])];
                      Obj [("dietary_tags", Null)];
                      Obj [("dietary_tags", Obj [("name", Str "Vegan")])] ]))
     = Some result /\
     getFieldOpt result "dietaryTags" = Arr [Str "Keto"; Str "Vegan"]).
Proof.
  cbv zeta. split; [reflexivity|]. split; [reflexivity|]. split; [|split].
  - intros fields text Hfield Htext.
    apply mapRestaurantRowAny_throws. right. right. left.
    unfold getFieldOpt, getField. rewrite Hfield. split; [|reflexivity].
    simpl. unfold nonEmpty. apply negb_true_iff. now apply String.eqb_neq.
  - eexists. split; [reflexivity|]. repeat split.
  - eexists. split; [reflexivity|]. reflexivity.
Qed.

(* ------------------------------------------------------------------ *)
(** ** Field normaliser: the primary image *)

(** C3 fails on the code for an array of objects whose first entry with a
    [url] or [src] text is not an absolute URL: the code examines that entry
    alone, and a later entry that is an absolute URL is not found.  For the
    primary field "not-a-url" and the secondary field
    [{url: not-a-url}, {url: https://x/b.jpg}], given as a parsed array or
    as its JSON text, the resolved image is the placeholder, although the
    gallery, which examines every entry, holds https://x/b.jpg. *)
Theorem first_object_decides_primary_image :
  (forall host : Host,
     @resolvePrimaryImage host
       (imageRow (Some "not-a-url")
          (Arr [ Obj [("url", Str "not-a-url")]; Obj [("url", Str "https://x/b.jpg")] ]))
     = Str fallbackImage) /\
  parseJSON twoObjects =
    Some (Arr [ Obj [("url", Str "not-a-url")]; Obj [("url", Str "https://x/b.jpg")] ]) /\
  @resolvePrimaryImage referenceHost (imageRow (Some "not-a-url") (Str twoObjects))
    = Str fallbackImage /\
  @resolveImageArray referenceHost (imageRow (Some "not-a-url") (Str twoObjects))
    = ["https://x/b.jpg"].
Proof.
  split; [intros host; reflexivity|].
  repeat split; vm_compute; reflexivity.
Qed.

Section ImageFacts.
Context {host : Host}.

Lemma find_absolute_string (items : list value) (v : value) :
  find isAbsoluteUrlString items = Some v -> testAbsoluteUrl v = true.
Proof.
  intros H. apply find_some in H. destruct H as [_ H].
  destruct v; try discriminate. exact H.
Qed.

Lemma resolveFromImageUrls_passes (iu v : value) :
  resolveFromImageUrls iu = Some v -> testAbsoluteUrl v = true.
Proof.
  unfold resolveFromImageUrls.
  destruct (match iu with Str text => JSON_parse text | _ => Some iu end)
    as [parsed|]; [|no_result].
  destruct parsed as [| |b|x|s|items|props]; try no_result.
  - destruct (isAbsoluteUrl s) eqn:E; [|no_result].
    intros [= <-]. exact E.
  - destruct (find isAbsoluteUrlString items) as [fromString|] eqn:Hs.
    + intros [= <-]. now apply find_absolute_string with (items := items).
    + match goal with
      | |- context [find ?p items] => destruct (find p items) as [fromObj|]; [|no_result]
      end.
      destruct (testAbsoluteUrl (urlOrSrc fromObj)) eqn:E; [|no_result].
      intros [= <-]. exact E.
  - destruct (isAbsoluteUrlString (urlOrSrc (Obj props))) eqn:Hd.
    + intros [= <-]. destruct (urlOrSrc (Obj props)); try discriminate Hd. exact Hd.
    + destruct (lookupProp props "images") as [| | | | |images|]; try no_result.
      match goal with
      | |- context [find ?p images] => destruct (find p images) as [cand|] eqn:Hc; [|no_result]
      end.
      destruct cand as [| |b|x|s|items|ps];
        try (destruct (testAbsoluteUrl (urlOrSrc _)) eqn:E; [|no_result];
             intros [= <-]; exact E).
      intros [= <-]. apply find_some in Hc. destruct Hc as [_ Hc].
      simpl in Hc. rewrite !andb_false_r, orb_false_r in Hc. exact Hc.
Qed.

(** X2: whatever [resolvePrimaryImage] returns passes the URL test of the
    code: converted to a string it starts with http:// or https://, in any
    letter case. *)
Theorem resolvePrimaryImage_passes_url_test (row : RestaurantRow.t) :
  testAbsoluteUrl (resolvePrimaryImage row) = true.
Proof.
  unfold resolvePrimaryImage.
  destruct (nonEmpty _ && isAbsoluteUrl _) eqn:Hp.
  - apply andb_true_iff in Hp. exact (proj2 Hp).
  - match goal with
    | |- context [toBoolean ?x] => set (iu := x)
    end.
    destruct (toBoolean iu); simpl; [|reflexivity].
    destruct (resolveFromImageUrls iu) as [url|] eqn:Hr.
    + now apply resolveFromImageUrls_passes with (iu := iu).
    + destruct iu; try reflexivity.
      destruct (isAbsoluteUrl (trim s)) eqn:E; [exact E|reflexivity].
Qed.

(** The primary image field, trimmed, wins when it is an absolute
    URL. *)
Theorem primary_image_first (row : RestaurantRow.t) :
  isAbsoluteUrl (primaryOf row) = true ->
  resolvePrimaryImage row = Str (primaryOf row).
Proof.
  intros H. unfold resolvePrimaryImage, primaryOf in *. rewrite H.
  destruct (trim (fromNullable (RestaurantRow.image_url row))); [discriminate H|reflexivity].
Qed.

(** X3: when the primary field is not an absolute URL and the secondary
    field is a text that parses to an array, the array's first string that is
    an absolute URL is the resolved image. *)
Theorem array_of_strings_first_absolute (row : RestaurantRow.t) (text : string)
    (items : list value) (url : value) :
  isAbsoluteUrl (primaryOf row) = false ->
  RestaurantRow.image_urls row = Str text ->
  trim text <> "" ->
  JSON_parse (trim text) = Some (Arr items) ->
  find isAbsoluteUrlString items = Some url ->
  resolvePrimaryImage row = url.
Proof.
  intros Hp Hraw Hnonempty Hparse Hfind. unfold resolvePrimaryImage, primaryOf in *.
  rewrite Hp, andb_false_r, Hraw.
  apply nonEmpty_true in Hnonempty. simpl. rewrite Hnonempty. simpl.
  unfold resolveFromImageUrls. now rewrite Hparse, Hfind.
Qed.

End ImageFacts.

Lemma primary_image_first_witness :
  @resolvePrimaryImage referenceHost
    (imageRow (Some " HTTPS://x/main.jpg ") (Str twoStrings)) = Str "HTTPS://x/main.jpg".
Proof.
  exact (@primary_image_first referenceHost
           (imageRow (Some " HTTPS://x/main.jpg ") (Str twoStrings)) eq_refl).
Defined.

(** The example of the specification: primary "not-a-url", secondary the
    JSON array of https://x/a.jpg and not-a-url. *)
Lemma array_of_strings_first_absolute_witness :
  @resolvePrimaryImage referenceHost (imageRow (Some "not-a-url") (Str twoStrings))
    = Str "https://x/a.jpg".
Proof.
  apply (@array_of_strings_first_absolute referenceHost
           (imageRow (Some "not-a-url") (Str twoStrings)) twoStrings
           [Str "https://x/a.jpg"; Str "not-a-url"]).
  - reflexivity.
  - reflexivity.
  - discriminate.
  - vm_compute. reflexivity.
  - reflexivity.
Defined.

(* ------------------------------------------------------------------ *)
(** ** Sorting: order and stability *)

Section SortLocalFacts.
Context {A : Type} (cmp : A -> A -> comparison).
Hypothesis cmp_antisym : forall a b, cmp a b = Gt -> cmp b a <> Gt.

Let ordered (a b : A) : Prop := cmp a b <> Gt.

Lemma insertSorted_locally_sorted (x : A) (l : list A) :
  Sorted ordered l -> Sorted ordered (insertSorted cmp x l).
Proof.
  induction l as [|y rest IH]; intros Hs; simpl.
  - repeat constructor.
  - destruct (cmp x y) eqn:E.
    + constructor; [exact Hs|]. constructor. unfold ordered. congruence.
    + constructor; [exact Hs|]. constructor. unfold ordered. congruence.
    + inversion Hs as [|? ? Hrest Hhd]; subst.
      constructor; [apply IH; exact Hrest|].
      destruct rest as [|z rest']; simpl.
      * constructor. unfold ordered. now apply cmp_antisym.
      * destruct (cmp x z) eqn:Ez.
        -- constructor. unfold ordered. now apply cmp_antisym.
        -- constructor. unfold ordered. now apply cmp_antisym.
        -- inversion Hhd; subst. now constructor.
Qed.

Lemma sortWith_locally_sorted (l : list A) : Sorted ordered (sortWith cmp l).
Proof.
  induction l as [|x rest IH]; simpl; [constructor|].
  apply insertSorted_locally_sorted. exact IH.
Qed.

End SortLocalFacts.

(** The sign of a difference of binary64 numbers: [y - x] and [x - y] are
    never both positive. *)
Lemma binary_round_negative (p e : Z) (m : positive) (ex : Z) :
  SFltb (S754_zero false) (binary_round p e true m ex) = false.
Proof.
  unfold binary_round, binary_round_aux.
  destruct (shl_align m ex _) as [mz ez].
  destruct (shr_fexp p e (Z.pos mz) ez loc_Exact) as [mrs' e'].
  destruct (shr_fexp p e _ e' loc_Exact) as [mrs'' e''].
  destruct (shr_m mrs''); [reflexivity| |reflexivity].
  destruct (e'' <=? e - p)%Z; reflexivity.
Qed.

Lemma SFsub_positive_antisym (p e : Z) (a b : spec_float) :
  SFltb (S754_zero false) (SFsub p e a b) = true ->
  SFltb (S754_zero false) (SFsub p e b a) = false.
Proof.
  destruct a as [sa|sa| |sa ma ea], b as [sb|sb| |sb mb eb]; simpl;
    try (destruct sa; try destruct sb; simpl; intros H; first [reflexivity|discriminate H]);
    try (destruct sb; simpl; intros H; first [reflexivity|discriminate H]);
    try (intros H; discriminate H).
  change (IntDef.Z.min eb ea) with (Z.min eb ea).
  change (IntDef.Z.min ea eb) with (Z.min ea eb).
  rewrite (Z.min_comm eb ea).
  set (ez := Z.min ea eb).
  set (x := cond_Zopp sa (Z.pos (fst (shl_align ma ea ez)))).
  set (y := cond_Zopp sb (Z.pos (fst (shl_align mb eb ez)))).
  destruct (x - y)%Z as [|d|d] eqn:E; simpl.
  - discriminate.
  - intros _. replace (y - x)%Z with (Z.neg d) by lia. simpl.
    apply binary_round_negative.
  - rewrite binary_round_negative. discriminate.
Qed.

Lemma signOfFloat_Gt (x : float) : signOfFloat x = Gt <-> PrimFloat.ltb 0 x = true.
Proof.
  unfold signOfFloat.
  destruct (PrimFloat.ltb x 0) eqn:E1, (PrimFloat.ltb 0 x) eqn:E2;
    split; try discriminate; try reflexivity.
  intros _. rewrite ltb_spec in E1, E2. unfold SFltb in *.
  replace (Prim2SF 0) with (S754_zero false) in * by reflexivity.
  destruct (Prim2SF x) as [s|s| |s m e]; simpl in *; try discriminate;
    destruct s; discriminate.
Qed.

Lemma difference_antisym (x y : float) :
  signOfFloat (y - x) = Gt -> signOfFloat (x - y) <> Gt.
Proof.
  rewrite !signOfFloat_Gt, !ltb_spec, !sub_spec.
  replace (Prim2SF 0) with (S754_zero false) by reflexivity.
  unfold SF64sub. intros H. rewrite (SFsub_positive_antisym _ _ _ _ H). discriminate.
Qed.

Section SortKeyFacts.
Context {A : Type} (key : A -> Z) (cmp : A -> A -> comparison).
Hypothesis cmp_key : forall a b, cmp a b = (key a ?= key b)%Z.

Let le (a b : A) : Prop := (key a <= key b)%Z.

Lemma insertSorted_In (x y : A) (l : list A) :
  In y (insertSorted cmp x l) <-> y = x \/ In y l.
Proof.
  split.
  - intros H. apply (Permutation_in _ (insertSorted_perm cmp x l)) in H.
    destruct H as [H|H]; [left; now symmetry|now right].
  - intros H. apply (Permutation_in _ (Permutation_sym (insertSorted_perm cmp x l))).
    destruct H as [H|H]; [left; now symmetry|now right].
Qed.

Lemma insertSorted_sorted (x : A) (l : list A) :
  StronglySorted le l -> StronglySorted le (insertSorted cmp x l).
Proof.
  induction l as [|y rest IH]; intros Hs; simpl.
  - constructor; constructor.
  - inversion Hs as [|? ? Hrest Hall]; subst.
    rewrite cmp_key. destruct (key x ?= key y)%Z eqn:E.
    + constructor; [exact Hs|]. constructor.
      * unfold le. apply Z.compare_eq in E. lia.
      * apply Forall_forall. intros z Hz. rewrite Forall_forall in Hall.
        specialize (Hall z Hz). unfold le in *. apply Z.compare_eq in E. lia.
    + constructor; [exact Hs|]. constructor.
      * unfold le. pose proof (proj1 (Z.compare_lt_iff _ _) E). lia.
      * apply Forall_forall. intros z Hz. rewrite Forall_forall in Hall.
        specialize (Hall z Hz). unfold le in *.
        pose proof (proj1 (Z.compare_lt_iff _ _) E). lia.
    + constructor; [apply IH; exact Hrest|].
      apply Forall_forall. intros z Hz. apply insertSorted_In in Hz.
      destruct Hz as [->|Hz].
      * unfold le. pose proof (proj1 (Z.compare_gt_iff _ _) E). lia.
      * rewrite Forall_forall in Hall. exact (Hall z Hz).
Qed.

Lemma sortWith_sorted (l : list A) : StronglySorted le (sortWith cmp l).
Proof.
  induction l as [|x rest IH]; simpl; [constructor|].
  apply insertSorted_sorted. exact IH.
Qed.

(** Stability: the entries of one key keep their order. *)
Lemma insertSorted_stable (n : Z) (x : A) (l : list A) :
  filter (fun a => (key a =? n)%Z) (insertSorted cmp x l) =
  filter (fun a => (key a =? n)%Z) (x :: l).
Proof.
  induction l as [|y rest IH]; simpl; [reflexivity|].
  rewrite cmp_key. destruct (key x ?= key y)%Z eqn:E; try reflexivity.
  simpl. rewrite IH. simpl.
  pose proof (proj1 (Z.compare_gt_iff _ _) E) as Hgt.
  destruct (key x =? n)%Z eqn:Ex, (key y =? n)%Z eqn:Ey; try reflexivity.
  apply Z.eqb_eq in Ex, Ey. lia.
Qed.

Lemma sortWith_stable (n : Z) (l : list A) :
  filter (fun a => (key a =? n)%Z) (sortWith cmp l) =
  filter (fun a => (key a =? n)%Z) l.
Proof.
  induction l as [|x rest IH]; simpl; [reflexivity|].
  rewrite insertSorted_stable. simpl. now rewrite IH.
Qed.

(** A list sorted on a key that takes two values is the entries of the
    lower one followed by the entries of the higher one. *)
Lemma sorted_two_keys (p : A -> bool) (l : list A) :
  (forall a, key a = if p a then 0%Z else 1%Z) ->
  StronglySorted le l ->
  l = filter p l ++ filter (fun a => negb (p a)) l.
Proof.
  intros Hkey Hs. induction Hs as [|a l Hs IH Hall]; [reflexivity|].
  simpl. destruct (p a) eqn:Ea; simpl.
  - now rewrite <- IH.
  - assert (filter p l = []) as Hnone.
    { clear IH Hs. induction l as [|b l IHl]; [reflexivity|].
      inversion Hall as [|? ? Hab Hall']; subst. simpl.
      unfold le in Hab. rewrite (Hkey a), (Hkey b), Ea in Hab.
      destruct (p b); [lia|]. now apply IHl. }
    rewrite Hnone in *. simpl in *. now rewrite <- IH.
Qed.

End SortKeyFacts.

Lemma sortWith_constant {A : Type} (l : list A) :
  sortWith (fun _ _ => Eq) l = l.
Proof.
  unfold sortWith. induction l as [|x rest IH]; simpl; [reflexivity|].
  rewrite IH. destruct rest; reflexivity.
Qed.

Lemma signOfZ_sub (a b : Z) : signOfZ (a - b) = (a ?= b)%Z.
Proof. unfold signOfZ. symmetry. apply Z.compare_sub. Qed.

Lemma StronglySorted_impl {A : Type} (R1 R2 : A -> A -> Prop) (l : list A) :
  (forall a b, R1 a b -> R2 a b) -> StronglySorted R1 l -> StronglySorted R2 l.
Proof.
  intros Himpl Hs. induction Hs as [|a l Hs IH Hall]; constructor; [exact IH|].
  apply Forall_forall. intros b Hb. rewrite Forall_forall in Hall. auto.
Qed.

Lemma bool_eq_iff (a b : bool) : (a = true <-> b = true) -> a = b.
Proof.
  destruct a, b; intros [H1 H2]; try reflexivity.
  - symmetry. now apply H1.
  - now apply H2.
Qed.

(** The predicate looks at the selected tags and oils as sets. *)
Lemma matchesFilters_same_selection (selectedCity searchQuery : string)
    (f g : Filters.t) (r : Restaurant.t) :
  (forall d, In d (Filters.diet f) <-> In d (Filters.diet g)) ->
  (forall o, In o (Filters.oils f) <-> In o (Filters.oils g)) ->
  Filters.neighborhood f = Filters.neighborhood g ->
  Filters.priceRange f = Filters.priceRange g ->
  Filters.verified f = Filters.verified g ->
  matchesFilters selectedCity searchQuery f r = matchesFilters selectedCity searchQuery g r.
Proof.
  intros Hd Ho Hn Hp Hv. apply bool_eq_iff.
  rewrite !matchesFilters_true, Hn, Hp, Hv.
  assert (Hnil : forall (A : Type) (l l' : list A),
             (forall x, In x l <-> In x l') -> (l = [] <-> l' = [])).
  { intros A l l' H. split; intros ->.
    - destruct l' as [|x t]; [reflexivity|]. destruct (proj2 (H x) (or_introl eq_refl)).
    - destruct l as [|x t]; [reflexivity|]. destruct (proj1 (H x) (or_introl eq_refl)). }
  rewrite (Hnil _ _ _ Hd), (Hnil _ _ _ Ho).
  assert ((exists d, In d (Filters.diet f) /\
                     In (canonicalDiet d) (map canonicalDiet (Restaurant.dietaryTags r))) <->
          (exists d, In d (Filters.diet g) /\
                     In (canonicalDiet d) (map canonicalDiet (Restaurant.dietaryTags r)))) as H1.
  { split; intros [d [H H']]; exists d; (split; [now apply Hd|exact H']). }
  assert ((exists oil, In oil (Filters.oils f) /\ In oil (Restaurant.oilsUsed r)) <->
          (exists oil, In oil (Filters.oils g) /\ In oil (Restaurant.oilsUsed r))) as H2.
  { split; intros [d [H H']]; exists d; (split; [now apply Ho|exact H']). }
  rewrite H1, H2. tauto.
Qed.

Lemma nextArr_In (arr : list string) (strVal x : string) :
  In x (nextArr arr strVal) <->
  (In strVal arr /\ In x arr /\ x <> strVal) \/ (~ In strVal arr /\ (In x arr \/ x = strVal)).
Proof.
  unfold nextArr. destruct (inb strVal arr) eqn:E.
  - apply inb_In in E. rewrite filter_In, negb_true_iff, String.eqb_neq. tauto.
  - assert (~ In strVal arr) as Hn.
    { intros H. apply inb_In in H. congruence. }
    rewrite in_app_iff. simpl. intuition.
Qed.

Lemma nextArr_twice (arr : list string) (strVal x : string) :
  In x (nextArr (nextArr arr strVal) strVal) <-> In x arr.
Proof.
  rewrite nextArr_In, !nextArr_In.
  destruct (string_dec x strVal) as [->|Hne];
    destruct (in_dec string_dec strVal arr); tauto.
Qed.

Lemma matchesFilters_cleared (selectedCity : string) (r : Restaurant.t) :
  matchesFilters selectedCity (snd clearFilters) (fst clearFilters) r =
  jsvalue_eqb (getCity r) (canonicalCity (Some selectedCity)).
Proof.
  unfold matchesFilters, clearFilters. simpl.
  rewrite includes_empty. simpl. now rewrite !andb_true_r.
Qed.

Lemma inCity_In (restaurants : list Restaurant.t) (selectedCity : string) (r : Restaurant.t) :
  In r (inCity restaurants selectedCity) <->
  In r restaurants /\ getCity r = canonicalCity (Some selectedCity).
Proof. unfold inCity. now rewrite filter_In, jsvalue_eqb_eq. Qed.

Section EngineOrderFacts.
Context {host : Host}.

(** X6: the sort keys 'name' and 'recent' have no case in the comparator: the
    engine returns the restaurants that pass the filter in the order of the
    collection, neither by name nor by date. *)
Theorem name_and_recent_keep_collection_order (restaurants : list Restaurant.t)
    (searchQuery : string) (selectedFilters : Filters.t) (selectedCity : string) :
  filteredRestaurants restaurants searchQuery selectedFilters selectedCity ByName =
    filter (matchesFilters selectedCity searchQuery selectedFilters) restaurants /\
  filteredRestaurants restaurants searchQuery selectedFilters selectedCity ByRecent =
    filter (matchesFilters selectedCity searchQuery selectedFilters) restaurants.
Proof.
  unfold filteredRestaurants. simpl. split; apply sortWith_constant.
Qed.

(** X7: sorting by price orders the result by the length of the price range,
    shortest first, and keeps restaurants of one length in the order of the
    collection. *)
Theorem price_sort_ascending_and_stable (restaurants : list Restaurant.t)
    (searchQuery : string) (selectedFilters : Filters.t) (selectedCity : string) :
  let width (r : Restaurant.t) := String.length (Restaurant.priceRange r) in
  let listed :=
    filteredRestaurants restaurants searchQuery selectedFilters selectedCity ByPrice in
  StronglySorted (fun a b => width a <= width b) listed /\
  forall n : nat,
    filter (fun r => Nat.eqb (width r) n) listed =
    filter (fun r => Nat.eqb (width r) n)
           (filter (matchesFilters selectedCity searchQuery selectedFilters) restaurants).
Proof.
  intros width listed. subst listed. unfold filteredRestaurants.
  set (passing := filter _ restaurants).
  assert (Hcmp : forall a b, compareBy ByPrice a b =
                             (Z.of_nat (width a) ?= Z.of_nat (width b))%Z).
  { intros a b. simpl. apply signOfZ_sub. }
  split.
  - apply (StronglySorted_impl
             (fun a b => (Z.of_nat (width a) <= Z.of_nat (width b))%Z)).
    + intros a b H. lia.
    + apply (sortWith_sorted (fun r => Z.of_nat (width r)) _ Hcmp).
  - intros n.
    pose proof (sortWith_stable (fun r => Z.of_nat (width r)) _ Hcmp (Z.of_nat n) passing)
      as Hst.
    assert (Hpq : forall r, Nat.eqb (width r) n =
                            (Z.of_nat (width r) =? Z.of_nat n)%Z).
    { intros r.
      destruct (Nat.eqb_spec (width r) n), (Z.eqb_spec (Z.of_nat (width r)) (Z.of_nat n));
        try reflexivity; lia. }
    rewrite !(filter_ext _ _ Hpq). exact Hst.
Qed.

(** X8: sorting by 'verified' lists the verified restaurants that pass the
    filter, in the order of the collection, followed by the unverified ones,
    in the order of the collection. *)
Theorem verified_sort_puts_verified_first (restaurants : list Restaurant.t)
    (searchQuery : string) (selectedFilters : Filters.t) (selectedCity : string) :
  let passing :=
    filter (matchesFilters selectedCity searchQuery selectedFilters) restaurants in
  filteredRestaurants restaurants searchQuery selectedFilters selectedCity ByVerified =
    filter Restaurant.verified passing ++
    filter (fun r => negb (Restaurant.verified r)) passing.
Proof.
  intros passing. unfold filteredRestaurants. fold passing.
  set (key := fun r : Restaurant.t => (1 - boolToZ (Restaurant.verified r))%Z).
  assert (Hcmp : forall a b, compareBy ByVerified a b = (key a ?= key b)%Z).
  { intros a b. unfold key. simpl.
    destruct (Restaurant.verified a), (Restaurant.verified b); reflexivity. }
  assert (Hkey : forall a, key a = if Restaurant.verified a then 0%Z else 1%Z).
  { intros a. unfold key. destruct (Restaurant.verified a); reflexivity. }
  rewrite (sorted_two_keys key Restaurant.verified _ Hkey
             (sortWith_sorted key _ Hcmp passing)) at 1.
  f_equal.
  - assert (Hpq : forall r, Restaurant.verified r = (key r =? 0)%Z).
    { intros r. rewrite Hkey. destruct (Restaurant.verified r); reflexivity. }
    rewrite !(filter_ext _ _ Hpq). apply (sortWith_stable key _ Hcmp).
  - assert (Hpq : forall r, negb (Restaurant.verified r) = (key r =? 1)%Z).
    { intros r. rewrite Hkey. destruct (Restaurant.verified r); reflexivity. }
    rewrite !(filter_ext _ _ Hpq). apply (sortWith_stable key _ Hcmp).
Qed.

(** X10: after "Clear All Filters" the engine lists every restaurant of the
    selected city, and as many as the home page counts for that city. *)
Theorem clearFilters_lists_the_city (restaurants : list Restaurant.t)
    (selectedCity : string) (sortBy : SortBy) (coverageCities : list string)
    (verifiedInSelectedCity : nat) :
  let listed :=
    filteredRestaurants restaurants (snd clearFilters) (fst clearFilters)
                        selectedCity sortBy in
  listed = sortWith (compareBy sortBy) (inCity restaurants selectedCity) /\
  (forall r, In r listed <->
             In r restaurants /\ getCity r = canonicalCity (Some selectedCity)) /\
  List.length listed =
    HomeStats.totalInCity
      (homeStats restaurants selectedCity coverageCities verifiedInSelectedCity).
Proof.
  intros listed.
  assert (listed = sortWith (compareBy sortBy) (inCity restaurants selectedCity)) as E.
  { subst listed. unfold filteredRestaurants, inCity. f_equal.
    apply filter_ext. intros r. apply matchesFilters_cleared. }
  split; [exact E|]. rewrite E. split.
  - intros r. rewrite sortWith_In. apply inCity_In.
  - simpl. apply Permutation_length, sortWith_perm.
Qed.

(** X11: toggling the same diet tag, or the same oil, twice gives back the same
    results, whatever the selection held before. *)
Theorem toggling_twice_restores_results (f : Filters.t) (tag : string) :
  (exists f1 f2,
     handleFilterChange KeyDiet (StringValue tag) f = Some f1 /\
     handleFilterChange KeyDiet (StringValue tag) f1 = Some f2 /\
     forall restaurants searchQuery selectedCity sortBy,
       filteredRestaurants restaurants searchQuery f2 selectedCity sortBy =
       filteredRestaurants restaurants searchQuery f selectedCity sortBy) /\
  (exists f1 f2,
     handleFilterChange KeyOils (StringValue tag) f = Some f1 /\
     handleFilterChange KeyOils (StringValue tag) f1 = Some f2 /\
     forall restaurants searchQuery selectedCity sortBy,
       filteredRestaurants restaurants searchQuery f2 selectedCity sortBy =
       filteredRestaurants restaurants searchQuery f selectedCity sortBy).
Proof.
  split; eexists; eexists; (split; [reflexivity|]); (split; [reflexivity|]);
    intros restaurants searchQuery selectedCity sortBy;
    unfold filteredRestaurants; f_equal; apply filter_ext; intros r;
    apply matchesFilters_same_selection; simpl; try reflexivity;
    intros x; (apply nextArr_twice || reflexivity).
Qed.

End EngineOrderFacts.

Section RatingOrder.
Context {host : Host}.

(** X9: sorted by rating, no restaurant is followed by one the comparator puts
    before it: for consecutive [a], [b] the difference [b.rating - a.rating]
    is not positive.  Stated for ratings that are numbers, where the
    comparator is consistent. *)
Theorem rating_sort_is_descending (restaurants : list Restaurant.t)
    (searchQuery : string) (selectedFilters : Filters.t) (selectedCity : string) :
  (forall r, In r restaurants -> PrimFloat.is_nan (Restaurant.rating r) = false) ->
  Sorted (fun a b => PrimFloat.ltb 0 (Restaurant.rating b - Restaurant.rating a) = false)
         (filteredRestaurants restaurants searchQuery selectedFilters selectedCity ByRating) /\
  Sorted (fun a b => PrimFloat.ltb 0 (Restaurant.rating b - Restaurant.rating a) = false)
         (homeFeatured restaurants selectedCity).
Proof.
  intros _.
  assert (Hanti : forall a b : Restaurant.t,
            compareBy ByRating a b = Gt -> compareBy ByRating b a <> Gt).
  { intros a b. simpl. apply difference_antisym. }
  assert (Himpl : forall l,
            Sorted (fun a b => compareBy ByRating a b <> Gt) l ->
            Sorted (fun a b : Restaurant.t =>
                      PrimFloat.ltb 0 (Restaurant.rating b - Restaurant.rating a) = false) l).
  { intros l Hs. induction Hs as [|a l Hs IH Hhd]; constructor; [exact IH|].
    destruct Hhd as [|b l' Hab]; constructor.
    simpl in Hab. rewrite signOfFloat_Gt in Hab.
    now destruct (PrimFloat.ltb 0 (Restaurant.rating b - Restaurant.rating a)). }
  split.
  - apply Himpl. unfold filteredRestaurants.
    apply (sortWith_locally_sorted _ Hanti).
  - apply Himpl. unfold homeFeatured. cbv zeta.
    set (sorted := sortWith _ _).
    assert (Sorted (fun a b => compareBy ByRating a b <> Gt) sorted) as Hs
      by apply (sortWith_locally_sorted _ Hanti).
    clearbody sorted. revert Hs. generalize 3%nat.
    induction sorted as [|a l IH]; intros n Hs; destruct n; simpl; try constructor.
    + apply IH. now inversion Hs.
    + inversion Hs as [|? ? Hl Hhd]; subst.
      destruct Hhd as [|b l' Hab]; destruct n; simpl; constructor. exact Hab.
Qed.

End RatingOrder.

Lemma rating_sort_is_descending_witness :
  Sorted (fun a b => PrimFloat.ltb 0 (Restaurant.rating b - Restaurant.rating a) = false)
         (@filteredRestaurants referenceHost
            [ listing 1 "A" "NYC" [] 4.5%float; listing 2 "B" "NYC" [] 5%float;
              listing 3 "C" "NYC" [] 3%float ]
            "" noFilters "New York" ByRating).
Proof.
  apply (@rating_sort_is_descending referenceHost
           [ listing 1 "A" "NYC" [] 4.5%float; listing 2 "B" "NYC" [] 5%float;
             listing 3 "C" "NYC" [] 3%float ]
           "" noFilters "New York").
  intros r [<-|[<-|[<-|[]]]]; reflexivity.
Defined.

(* ------------------------------------------------------------------ *)
(** ** Home page: derived cities, featured list, diet selection *)

Lemma setAdd_In (set : list jsvalue) (c x : jsvalue) :
  In x (setAdd set c) <-> In x set \/ x = c.
Proof.
  unfold setAdd. destruct (setHas set c) eqn:E.
  - apply setHas_In in E. split; [tauto|]. intros [H| ->]; assumption.
  - rewrite in_app_iff. simpl. intuition.
Qed.

Lemma setAdd_NoDup (set : list jsvalue) (c : jsvalue) :
  NoDup set -> NoDup (setAdd set c).
Proof.
  intros Hnd. unfold setAdd. destruct (setHas set c) eqn:E; [exact Hnd|].
  assert (~ In c set) as Hnot.
  { intros H. apply setHas_In in H. congruence. }
  apply NoDup_app; [exact Hnd|repeat constructor; simpl; tauto|].
  intros x Hx [<-|[]]. contradiction.
Qed.

Lemma dbCities_fold (restaurants : list Restaurant.t) (acc : list jsvalue) :
  let step := fun set r => let c := getCity r in if truthy c then setAdd set c else set in
  (NoDup acc -> NoDup (fold_left step restaurants acc)) /\
  (forall c, In c (fold_left step restaurants acc) <->
             In c acc \/ (truthy c = true /\ exists r, In r restaurants /\ getCity r = c)).
Proof.
  intros step. revert acc.
  induction restaurants as [|r rest IH]; intros acc; simpl.
  - split; [auto|]. intros c. split; [auto|]. intros [H|[_ [r [[] _]]]]. exact H.
  - destruct (IH (step acc r)) as [IHnd IHin]. split.
    + intros Hnd. apply IHnd. unfold step. simpl.
      destruct (truthy (getCity r)); [now apply setAdd_NoDup|exact Hnd].
    + intros c. rewrite IHin. unfold step at 1. simpl.
      destruct (truthy (getCity r)) eqn:Et.
      * rewrite setAdd_In. split.
        -- intros [[H| ->]|[Hc [r' [Hr' E]]]]; [now left| |].
           ++ right. split; [exact Et|]. exists r. auto.
           ++ right. split; [exact Hc|]. exists r'. auto.
        -- intros [H|[Hc [r' [[<-|Hr'] E]]]]; [now left; left| |].
           ++ left. right. now symmetry.
           ++ right. split; [exact Hc|]. exists r'. auto.
      * split.
        -- intros [H|[Hc [r' [Hr' E]]]]; [now left|].
           right. split; [exact Hc|]. exists r'. auto.
        -- intros [H|[Hc [r' [[<-|Hr'] E]]]]; [now left| |].
           ++ rewrite E in Et. congruence.
           ++ right. split; [exact Hc|]. exists r'. auto.
Qed.

(** X13: the cities derived from the loaded restaurants: each one once, none
    blank, and exactly the derived cities of the restaurants. *)
Theorem dbCities_distinct_derived_cities (restaurants : list Restaurant.t) :
  NoDup (dbCities restaurants) /\
  forall c, In c (dbCities restaurants) <->
            truthy c = true /\ exists r, In r restaurants /\ getCity r = c.
Proof.
  destruct (dbCities_fold restaurants []) as [Hnd Hin]. split.
  - apply Hnd. constructor.
  - intros c. unfold dbCities. rewrite Hin. simpl. tauto.
Qed.

(** X14: the featured list of the home page holds restaurants of the selected
    city only, each taken from the collection without repetition, and three
    of them whenever the city has three. *)
Theorem homeFeatured_three_of_the_city (restaurants : list Restaurant.t)
    (selectedCity : string) :
  List.length (homeFeatured restaurants selectedCity) =
    Nat.min 3 (List.length (inCity restaurants selectedCity)) /\
  (forall r, In r (homeFeatured restaurants selectedCity) ->
             In r restaurants /\ getCity r = canonicalCity (Some selectedCity)) /\
  exists others,
    Permutation (homeFeatured restaurants selectedCity ++ others)
                (inCity restaurants selectedCity).
Proof.
  unfold homeFeatured. cbv zeta.
  set (cmp := fun a b : Restaurant.t => signOfFloat _).
  split; [|split].
  - rewrite length_firstn. f_equal. apply Permutation_length, sortWith_perm.
  - intros r Hr. apply inCity_In. apply (sortWith_In cmp).
    rewrite <- (firstn_skipn 3). apply in_or_app. now left.
  - exists (skipn 3 (sortWith cmp (inCity restaurants selectedCity))).
    rewrite firstn_skipn. apply sortWith_perm.
Qed.

Section DietFacts.
Context {host : Host}.

(** X12: selected diet tags are alternatives.  Selecting a tag that was not
    selected: with no tag selected before, the results become those that
    carry the tag; with some tag selected before, the results grow by the
    restaurants that carry the new tag and pass the other filters. *)
Theorem diet_tags_are_alternatives (f : Filters.t) (tag : string)
    (restaurants : list Restaurant.t) (searchQuery selectedCity : string)
    (sortBy : SortBy) (r : Restaurant.t) :
  ~ In tag (Filters.diet f) ->
  exists f',
    handleFilterChange KeyDiet (StringValue tag) f = Some f' /\
    let carries :=
      In (canonicalDiet tag) (map canonicalDiet (Restaurant.dietaryTags r)) in
    let listed g := In r (filteredRestaurants restaurants searchQuery g selectedCity sortBy) in
    (Filters.diet f = [] -> (listed f' <-> listed f /\ carries)) /\
    (Filters.diet f <> [] ->
     (listed f' <-> listed f \/ (listed (clearAllDietFilters f) /\ carries))).
Proof.
  intros Hnew. eexists. split; [reflexivity|]. cbv zeta.
  unfold filteredRestaurants. rewrite !sortWith_In, !filter_In, !matchesFilters_true.
  simpl.
  assert (Hnext : forall x, In x (nextArr (Filters.diet f) tag) <->
                            In x (Filters.diet f) \/ x = tag).
  { intros x. rewrite nextArr_In. tauto. }
  assert (Hnonnil : nextArr (Filters.diet f) tag <> []).
  { intros E. assert (In tag (nextArr (Filters.diet f) tag)) as H by (apply Hnext; auto).
    rewrite E in H. destruct H. }
  assert (Hex : (exists d, In d (nextArr (Filters.diet f) tag) /\
                   In (canonicalDiet d) (map canonicalDiet (Restaurant.dietaryTags r))) <->
                (exists d, In d (Filters.diet f) /\
                   In (canonicalDiet d) (map canonicalDiet (Restaurant.dietaryTags r))) \/
                In (canonicalDiet tag) (map canonicalDiet (Restaurant.dietaryTags r))).
  { split.
    - intros [d [Hd Hc]]. apply Hnext in Hd. destruct Hd as [Hd| ->]; [left; eauto|now right].
    - intros [[d [Hd Hc]]|Hc]; [exists d|exists tag]; (split; [apply Hnext; auto|exact Hc]). }
  rewrite Hex.
  set (carries := In (canonicalDiet tag) (map canonicalDiet (Restaurant.dietaryTags r))).
  set (some := exists d, In d (Filters.diet f) /\ _).
  set (listedIn := In r restaurants).
  set (city := getCity r = _).
  set (search := _ \/ _ \/ _).
  match goal with
  | |- context [?o /\ ?n /\ ?p /\ (Filters.verified f = false \/ ?v)] =>
      set (others := o /\ n /\ p /\ (Filters.verified f = false \/ v))
  end.
  assert (Hempty : Filters.diet f = [] -> ~ some).
  { intros Hnil [d [Hd _]]. rewrite Hnil in Hd. destruct Hd. }
  clearbody carries some listedIn city search others.
  split.
  - intros Hnil. split.
    + intros [Hin [Hcity [Hs [[E|[Hsome|Hc]] Hrest]]]].
      * contradiction.
      * destruct (Hempty Hnil Hsome).
      * repeat split; auto.
    + intros [[Hin [Hcity [Hs [_ Hrest]]]] Hc]. repeat split; auto.
  - intros Hsome. split.
    + intros [Hin [Hcity [Hs [[E|[Hd|Hc]] Hrest]]]].
      * contradiction.
      * left. repeat split; auto.
      * right. repeat split; auto.
    + intros [[Hin [Hcity [Hs [[E|Hd] Hrest]]]]|[[Hin [Hcity [Hs [_ Hrest]]]] Hc]].
      * contradiction.
      * repeat split; auto.
      * repeat split; auto.
Qed.

End DietFacts.

Lemma diet_tags_are_alternatives_witness :
  In (listing 2 "B" "NYC" ["Vegan"] 4.5%float)
     (@filteredRestaurants referenceHost
        [ listing 1 "A" "NYC" ["Keto"] 4.5%float; listing 2 "B" "NYC" ["Vegan"] 4.5%float ]
        "" (dietFilter ["Keto"; "vegan"]) "NYC" ByName).
Proof.
  destruct (@diet_tags_are_alternatives referenceHost (dietFilter ["Keto"]) "vegan"
              [ listing 1 "A" "NYC" ["Keto"] 4.5%float; listing 2 "B" "NYC" ["Vegan"] 4.5%float ]
              "" "NYC" ByName (listing 2 "B" "NYC" ["Vegan"] 4.5%float))
    as [f' [Hf' [_ Hunion]]].
  - simpl. intros [H|[]]. discriminate H.
  - injection Hf' as <-. apply Hunion; [discriminate|].
    right. split; [|simpl; tauto].
    vm_compute. tauto.
Defined.

(* ------------------------------------------------------------------ *)
(** ** Home page counters *)



Section CounterFacts.
Context {host : Host}.


End CounterFacts.

Lemma addName_In (set : list string) (n x : string) :
  In x (addName set n) <-> In x set \/ x = n.
Proof.
  unfold addName. destruct (inb n set) eqn:E.
  - apply inb_In in E. split; [tauto|]. intros [H| ->]; assumption.
  - rewrite in_app_iff. simpl. intuition.
Qed.

Lemma addName_NoDup (set : list string) (n : string) :
  NoDup set -> NoDup (addName set n).
Proof.
  intros Hnd. unfold addName. destruct (inb n set) eqn:E; [exact Hnd|].
  assert (~ In n set) as Hnot.
  { intros H. apply inb_In in H. congruence. }
  apply NoDup_app; [exact Hnd|repeat constructor; simpl; tauto|].
  intros x Hx [<-|[]]. contradiction.
Qed.

Lemma coverage_fold (rows : list (option CoverageRow.t)) (acc : list string) :
  let step := fun (set : list string) (row : option CoverageRow.t) =>
                match row with
                | Some (CoverageRow.mk (Some (Some n))) =>
                    if nonEmpty n then addName set n else set
                | _ => set
                end in
  (NoDup acc -> NoDup (fold_left step rows acc)) /\
  (forall n, In n (fold_left step rows acc) <->
             In n acc \/ exists row, In row rows /\ coverageName row = Some n).
Proof.
  intros step. revert acc.
  induction rows as [|row rest IH]; intros acc; simpl.
  - split; [auto|]. intros n. split; [auto|]. intros [H|[row [[] _]]]. exact H.
  - destruct (IH (step acc row)) as [IHnd IHin]. split.
    + intros Hnd. apply IHnd. unfold step.
      destruct row as [[[[n|]|]]|]; try exact Hnd.
      destruct (nonEmpty n); [now apply addName_NoDup|exact Hnd].
    + intros n. rewrite IHin.
      assert (Hstep : In n (step acc row) <-> In n acc \/ coverageName row = Some n).
      { unfold step, coverageName.
        destruct row as [[[[m|]|]]|];
          try (split; [auto|intros [H|H]; [exact H|discriminate H]]).
        destruct (nonEmpty m).
        - rewrite addName_In. split; (intros [H|H]; [now left|right; congruence]).
        - split; [auto|intros [H|H]; [exact H|discriminate H]]. }
      rewrite Hstep. split.
      * intros [[H|H]|[row' [Hr E]]]; [now left| |].
        -- right. exists row. auto.
        -- right. exists row'. auto.
      * intros [H|[row' [[<-|Hr] E]]]; [now left; left| |].
        -- left. now right.
        -- right. exists row'. auto.
Qed.

Lemma String_compare_antisym_Gt (a b : string) :
  String.compare a b = Gt -> String.compare b a <> Gt.
Proof.
  intros H. rewrite String.compare_antisym, H. discriminate.
Qed.

(** X18: the coverage list holds each city name of the answer once, none blank,
    in strictly ascending code-unit order; a failed answer leaves the list as
    it was.  The home page shows its length, and the number of cities derived
    from the loaded restaurants while it is empty. *)
Theorem coverage_cities_sorted_distinct (rows : list (option CoverageRow.t))
    (previous : list string) (restaurants : list Restaurant.t) (selectedCity : string)
    (verifiedInSelectedCity : nat) :
  let listed := refreshCoverageCities (CoverageResponse.mk (Some rows) None) previous in
  Sorted (fun a b => String.compare a b = Lt) listed /\
  (forall n, In n listed <->
             n <> "" /\
             exists row, In row rows /\ row = Some (CoverageRow.mk (Some (Some n)))) /\
  (forall data message,
     refreshCoverageCities (CoverageResponse.mk data (Some message)) previous = previous) /\
  HomeStats.citiesCovered
    (homeStats restaurants selectedCity listed verifiedInSelectedCity) =
    (if Nat.eqb (List.length listed) 0 then List.length (dbCities restaurants)
     else List.length listed).
Proof.
  cbv zeta. unfold refreshCoverageCities. simpl.
  destruct (coverage_fold rows []) as [Hnd Hin]. cbv zeta in Hnd, Hin.
  set (set := fold_left _ rows []) in *.
  specialize (Hnd (NoDup_nil _)).
  split; [|split; [|split]].
  - assert (Hnd' : NoDup (sortWith String.compare set)).
    { apply (Permutation_NoDup (Permutation_sym (sortWith_perm String.compare set))).
      exact Hnd. }
    pose proof (sortWith_locally_sorted String.compare String_compare_antisym_Gt set) as Hs.
    induction Hs as [|a l Hs IH Hhd]; constructor.
    + apply IH. now inversion Hnd'.
    + destruct Hhd as [|b l' Hab]; constructor.
      destruct (String.compare a b) eqn:E; [|reflexivity|contradiction].
      apply String.compare_eq_iff in E. subst.
      inversion Hnd' as [|? ? Hnot _]; subst. destruct Hnot. now left.
  - intros n. rewrite sortWith_In, Hin. simpl. split.
    + intros [[]|[row [Hrow E]]]. unfold coverageName in E.
      destruct row as [[[[m|]|]]|]; try discriminate E.
      destruct (nonEmpty m) eqn:Em; [|discriminate E]. injection E as ->.
      split; [now apply nonEmpty_true|]. eauto.
    + intros [Hne [row [Hrow ->]]]. right. eexists. split; [exact Hrow|].
      simpl. apply nonEmpty_true in Hne. now rewrite Hne.
  - reflexivity.
  - reflexivity.
Qed.

(* ------------------------------------------------------------------ *)
(** ** City aliases and the derived city *)

Lemma ownProperty_In (table : list (string * string)) (k v : string) :
  ownProperty table k = Some v -> In (k, v) table.
Proof.
  induction table as [|[k' v'] rest IH]; simpl; [discriminate|].
  destruct (k =? k') eqn:E.
  - apply String.eqb_eq in E. intros [= ->]. left. now subst.
  - intros H. right. now apply IH.
Qed.

Lemma canonicalCity_text (s c : string) :
  canonicalCity (Some s) = Text c ->
  ownProperty cityMap (cityKey s) = Some c \/
  (ownProperty cityMap (cityKey s) = None /\ trim s = c).
Proof.
  unfold canonicalCity, getProperty. simpl fromNullable. cbv zeta.
  destruct (ownProperty cityMap (cityKey s)) as [v|] eqn:Hown.
  - unfold orElse. rewrite (cityMap_values_truthy _ _ Hown). intros [= ->]. now left.
  - destruct (inb (cityKey s) objectPrototypeNames); simpl; [discriminate|].
    intros [= ->]. now right.
Qed.

(** X16: the alias list and the synonym table agree: for each of the five known
    cities, the inputs that [canonicalCity] maps to it are exactly those whose
    key (trimmed, lower-cased) is the lower-cased form of one of its
    aliases. *)
Theorem cityAliases_agree_with_canonicalCity (canon s : string) :
  In canon knownCities ->
  (canonicalCity (Some s) = Text canon <->
   exists a, In a (cityAliases canon) /\ cityKey s = toLowerCase a).
Proof.
  intros Hknown. split.
  - intros Hc. apply canonicalCity_text in Hc. destruct Hc as [Hown|[Hown Htrim]].
    + apply ownProperty_In in Hown. unfold cityMap in Hown. simpl in Hown.
      repeat (destruct Hown as [Hown|Hown];
              [injection Hown as Hk <-; rewrite <- Hk; pick_alias|]).
      destruct Hown.
    + exfalso. unfold cityKey in Hown. rewrite Htrim in Hown.
      simpl in Hknown.
      repeat (destruct Hknown as [<-|Hknown]; [discriminate Hown|]). destruct Hknown.
  - intros [a [Ha Hkey]]. simpl in Hknown.
    repeat (destruct Hknown as [<-|Hknown];
            [simpl in Ha;
             repeat (destruct Ha as [<-|Ha];
                     [apply canonicalCity_known; rewrite Hkey; reflexivity|]);
             destruct Ha|]).
    destruct Hknown.
Qed.

Lemma cityAliases_agree_with_canonicalCity_witness :
  canonicalCity (Some "  new york CITY ") = Text "New York".
Proof.
  apply (proj2 (cityAliases_agree_with_canonicalCity "New York" "  new york CITY "
                  (or_introl eq_refl))).
  exists "New York City". split; [simpl; tauto|reflexivity].
Defined.

Lemma canonicalCity_twice (s : string) :
  inb (cityKey s) objectPrototypeNames = false ->
  canonicalCityOfValue (canonicalCity (Some s)) = Some (canonicalCity (Some s)).
Proof.
  intros Hplain.
  destruct (ownProperty cityMap (cityKey s)) as [v|] eqn:Hown.
  - rewrite (canonicalCity_known _ _ Hown). simpl. f_equal.
    exact (cityMap_values _ _ Hown).
  - rewrite (canonicalCity_unknown _ Hown Hplain). simpl. f_equal.
    rewrite canonicalCity_unknown; rewrite ?cityKey_trim; auto.
    now rewrite trim_idempotent.
Qed.

(** X15: the derived city is canonical: [canonicalCity] maps it to itself, so
    comparing it with the canonical selected city is meaningful.  When the
    city field is blank, it is the empty string or one of the five known
    names, decided by the synonym list alone: the loop over the known names
    that follows never finds a city the synonyms missed. *)
Theorem getCity_is_canonical (r : Restaurant.t) :
  inb (cityKey (Restaurant.city r)) objectPrototypeNames = false ->
  canonicalCityOfValue (getCity r) = Some (getCity r) /\
  (trim (Restaurant.city r) = "" ->
   let src := toLowerCase (Restaurant.address r ++ " " ++ Restaurant.neighborhood r) in
   (getCity r = Text "" \/ exists c, In c knownCities /\ getCity r = Text c) /\
   getCity r =
     match find (fun entry => includes src (fst entry)) syns with
     | Some (_, cityName) => Text cityName
     | None => Text ""
     end).
Proof.
  intros Hplain.
  assert (Hblank :
    nonEmpty (Restaurant.city r) && nonEmpty (trim (Restaurant.city r)) = false ->
    let src := toLowerCase (Restaurant.address r ++ " " ++ Restaurant.neighborhood r) in
    (getCity r = Text "" \/ exists c, In c knownCities /\ getCity r = Text c) /\
    getCity r =
      match find (fun entry => includes src (fst entry)) syns with
      | Some (_, cityName) => Text cityName
      | None => Text ""
      end).
  { intros Hb src. unfold getCity. rewrite Hb. fold src.
    destruct (find (fun entry => includes src (fst entry)) syns) as [[needle cityName]|]
      eqn:Efind.
    - split; [|reflexivity]. right. exists cityName. split; [|reflexivity].
      apply find_some in Efind. destruct Efind as [Hin _].
      unfold syns in Hin. simpl in Hin.
      repeat (destruct Hin as [Hin|Hin]; [injection Hin as _ <-; simpl; tauto|]).
      destruct Hin.
    - assert (find (fun c => includes src (toLowerCase c)) knownCities = None) as ->.
      { destruct (find (fun c => includes src (toLowerCase c)) knownCities) as [c|] eqn:Ek;
          [|reflexivity].
        apply find_some in Ek. destruct Ek as [Hin Hinc].
        assert (forall needle cityName, In (needle, cityName) syns ->
                                        includes src needle = false) as Hnone.
        { intros needle cityName Hn.
          apply (find_none _ _ Efind (needle, cityName) Hn). }
        simpl in Hin.
        destruct Hin as [<-|[<-|[<-|[<-|[<-|[]]]]]].
        - change (toLowerCase "New York") with "new york" in Hinc.
          rewrite (Hnone "new york" "New York") in Hinc; [discriminate Hinc|simpl; tauto].
        - change (toLowerCase "Los Angeles") with "los angeles" in Hinc.
          rewrite (Hnone "los angeles" "Los Angeles") in Hinc;
            [discriminate Hinc|simpl; tauto].
        - change (toLowerCase "San Francisco") with "san francisco" in Hinc.
          rewrite (Hnone "san francisco" "San Francisco") in Hinc;
            [discriminate Hinc|simpl; tauto].
        - change (toLowerCase "Houston") with "houston" in Hinc.
          rewrite (Hnone "houston" "Houston") in Hinc; [discriminate Hinc|simpl; tauto].
        - change (toLowerCase "Austin") with "austin" in Hinc.
          rewrite (Hnone "austin" "Austin") in Hinc; [discriminate Hinc|simpl; tauto]. }
      split; [now left|reflexivity]. }
  destruct (nonEmpty (Restaurant.city r) && nonEmpty (trim (Restaurant.city r))) eqn:Eb.
  - split.
    + unfold getCity. rewrite Eb. now apply canonicalCity_twice.
    + intros Ht. rewrite Ht in Eb. rewrite andb_false_r in Eb. discriminate Eb.
  - destruct (Hblank eq_refl) as [Hrange Hsyn]. split.
    + destruct Hrange as [->|[c [Hc ->]]]; [reflexivity|].
      simpl in Hc. destruct Hc as [<-|[<-|[<-|[<-|[<-|[]]]]]]; reflexivity.
    + intros _. exact (Hblank eq_refl).
Qed.

Lemma getCity_is_canonical_witness :
  getCity (listing 1 "A" " nyc " [] 4.5%float) = Text "New York" /\
  canonicalCityOfValue (getCity (listing 1 "A" " nyc " [] 4.5%float)) =
    Some (Text "New York").
Proof.
  split; [reflexivity|].
  exact (proj1 (getCity_is_canonical (listing 1 "A" " nyc " [] 4.5%float) eq_refl)).
Defined.

(* ------------------------------------------------------------------ *)
(** ** Gallery and paging *)

Lemma dedupe_In (seen l : list string) (x : string) :
  In x (dedupe seen l) <-> In x l /\ ~ In x seen.
Proof.
  revert seen. induction l as [|y rest IH]; intros seen; simpl; [tauto|].
  destruct (inb y seen) eqn:E.
  - apply inb_In in E. rewrite IH. split; [tauto|].
    intros [[<-|H] Hn]; [contradiction|tauto].
  - assert (~ In y seen) as Hy by (intros H; apply inb_In in H; congruence).
    simpl. rewrite IH. simpl. split.
    + intros [<-|[H Hn]]; [tauto|]. split; [tauto|]. intros Hs. apply Hn. now right.
    + intros [[<-|H] Hn]; [now left|].
      destruct (string_dec y x) as [->|Hne]; [now left|].
      right. split; [exact H|]. intros [Hs|Hs]; [contradiction|contradiction].
Qed.

Lemma dedupe_NoDup (seen l : list string) : NoDup (dedupe seen l).
Proof.
  revert seen. induction l as [|y rest IH]; intros seen; simpl; [constructor|].
  destruct (inb y seen); [apply IH|].
  constructor; [|apply IH].
  rewrite dedupe_In. simpl. tauto.
Qed.

Lemma galleryUrls_absolute (items : list value) (u : string) :
  In u (galleryUrls items) -> isAbsoluteUrl u = true.
Proof.
  unfold galleryUrls. rewrite in_flat_map. intros [x [_ Hu]].
  match type of Hu with
  | In u (match ?url with _ => _ end) => destruct url as [| | | |s| |]; try destruct Hu
  end.
  destruct (isAbsoluteUrl s) eqn:E; [|destruct Hu].
  destruct Hu as [<-|[]]. exact E.
Qed.

Section GalleryFacts.
Context {host : Host}.

(** X5: the gallery of a restaurant never repeats a URL and holds absolute
    http(s) URLs only, whatever the row and however its images field parses;
    when the primary image field is an absolute URL, it opens the gallery and
    is the card's image as well. *)
Theorem gallery_distinct_absolute (row : RestaurantRow.t) :
  NoDup (resolveImageArray row) /\
  (forall u, In u (resolveImageArray row) -> isAbsoluteUrl u = true) /\
  (let primary := trim (fromNullable (RestaurantRow.image_url row)) in
   isAbsoluteUrl primary = true ->
   hd_error (resolveImageArray row) = Some primary /\
   resolvePrimaryImage row = Str primary).
Proof.
  unfold resolveImageArray. cbv zeta.
  set (primary := trim (fromNullable (RestaurantRow.image_url row))).
  set (fromUrls := if toBoolean (RestaurantRow.image_urls row) then _ else _).
  assert (Hurls : forall u, In u fromUrls -> isAbsoluteUrl u = true).
  { subst fromUrls. intros u.
    destruct (toBoolean (RestaurantRow.image_urls row)); [|intros []].
    match goal with
    | |- In u (match ?parsed with _ => _ end) -> _ =>
        destruct parsed as [[| | | | |items|props]|]; try (intros []);
          [apply galleryUrls_absolute|]
    end.
    destruct (lookupProp props "images"); try (intros []). apply galleryUrls_absolute. }
  split; [apply dedupe_NoDup|]. split.
  - intros u Hu. apply dedupe_In in Hu. destruct Hu as [Hu _].
    apply in_app_or in Hu. destruct Hu as [Hu|Hu]; [|now apply Hurls].
    destruct (nonEmpty primary && isAbsoluteUrl primary) eqn:E; [|destruct Hu].
    destruct Hu as [<-|[]]. now apply andb_true_iff in E.
  - intros Habs.
    assert (nonEmpty primary = true) as Hne.
    { apply nonEmpty_true. intros E. rewrite E in Habs. discriminate Habs. }
    rewrite Hne, Habs. simpl. split; [reflexivity|].
    unfold resolvePrimaryImage. cbv zeta. fold primary. now rewrite Hne, Habs.
Qed.

End GalleryFacts.

Lemma firstn_plus {A : Type} (a b : nat) (l : list A) :
  firstn (a + b) l = firstn a l ++ firstn b (skipn a l).
Proof.
  revert l. induction a as [|a IH]; intros l; simpl; [reflexivity|].
  destruct l as [|x l]; simpl; [now rewrite firstn_nil|]. now rewrite IH.
Qed.

Section PagingFacts.
Context {host : Host}.

Lemma fetchData_keeps_city (backend : Backend) (reset : bool) (st : AppState.t) :
  AppState.selectedCity (fetchData backend reset st) = AppState.selectedCity st /\
  AppState.cityOptions (fetchData backend reset st) = AppState.cityOptions st.
Proof.
  unfold fetchData, completeFetch, applyPending, applyRestaurants. cbv zeta.
  destruct (RestaurantsResponse.error _); simpl.
  - destruct (PendingResponse.error _); simpl; [auto|].
    destruct (PendingResponse.data _); simpl; auto.
  - destruct (RestaurantsResponse.data _); simpl;
      (destruct (PendingResponse.error _); simpl; [auto|]);
      destruct (PendingResponse.data _); simpl; auto.
Qed.

Lemma fetchQuery_same (reset : bool) (st st' : AppState.t) :
  AppState.page st' = AppState.page st ->
  AppState.selectedCity st' = AppState.selectedCity st ->
  AppState.cityOptions st' = AppState.cityOptions st ->
  fetchQuery reset st' = fetchQuery reset st.
Proof. intros Hp Hc Ho. unfold fetchQuery. now rewrite Hp, Hc, Ho. Qed.

Lemma fetchQuery_city (reset reset' : bool) (st st' : AppState.t) :
  AppState.selectedCity st' = AppState.selectedCity st ->
  AppState.cityOptions st' = AppState.cityOptions st ->
  RestaurantsQuery.cityFilter (fetchQuery reset' st') =
  RestaurantsQuery.cityFilter (fetchQuery reset st).
Proof. intros Hc Ho. unfold fetchQuery. simpl. now rewrite Hc, Ho. Qed.

(** X19: pages are contiguous and a failed load does not move the cursor.  After
    a load that answered with rows, "Load more" asks for the 20 offsets right
    after the range just loaded, with the same city clause; after a load that
    answered with an error, or with neither rows nor error, "Load more" asks
    what it would have asked before that load (so a failed "Load more" is
    asked again as it was). *)
Theorem next_page_follows_loaded_range (backend : Backend) (reset : bool)
    (st : AppState.t) :
  let asked := fetchQuery reset st in
  let next := fetchQuery false (fetchData backend reset st) in
  (RestaurantsResponse.error (selectRestaurants backend asked) = None ->
   RestaurantsResponse.data (selectRestaurants backend asked) <> None ->
   RestaurantsQuery.from next = (RestaurantsQuery.to asked + 1)%Z /\
   RestaurantsQuery.to next = (RestaurantsQuery.to asked + 20)%Z /\
   RestaurantsQuery.cityFilter next = RestaurantsQuery.cityFilter asked) /\
  (RestaurantsResponse.error (selectRestaurants backend asked) <> None \/
   RestaurantsResponse.data (selectRestaurants backend asked) = None ->
   next = fetchQuery false st).
Proof.
  cbv zeta.
  destruct (fetchData_keeps_city backend reset st) as [Hcity Hopts].
  pose proof (fetchData_frame backend reset st) as Hframe. cbv zeta in Hframe.
  destruct Hframe as [_ [Hpage _]].
  unfold applyRestaurants in Hpage.
  split.
  - intros Herr Hdata.
    destruct (fetchQuery_range false (fetchData backend reset st)) as [Hfrom Hto].
    destruct (fetchQuery_range reset st) as [Hfrom0 Hto0].
    rewrite Hto, Hfrom, Hto0, Hfrom0, Hpage, Herr.
    destruct (RestaurantsResponse.data (selectRestaurants backend (fetchQuery reset st)))
      as [rows|]; [|contradiction].
    split; [|split].
    + destruct reset; simpl; lia.
    + destruct reset; simpl; lia.
    + now apply fetchQuery_city.
  - intros Hfail. apply fetchQuery_same; [|exact Hcity|exact Hopts].
    rewrite Hpage.
    destruct (RestaurantsResponse.error (selectRestaurants backend (fetchQuery reset st)));
      [reflexivity|].
    destruct (RestaurantsResponse.data (selectRestaurants backend (fetchQuery reset st)));
      [|reflexivity].
    destruct Hfail as [H|H]; [now contradiction H|discriminate H].
Qed.

(** X20: against a backend that serves ranges of one ordered table, a first load
    followed by [n] presses of "Load more" shows the first [20 * (n + 1)]
    rows of the table, normalised, each once and in order, and leaves the
    cursor at [n + 1]. *)
Theorem paging_shows_table_prefix (backend : Backend) (table : list RestaurantRow.t)
    (st : AppState.t) (n : nat) :
  (forall q,
     RestaurantsResponse.error (selectRestaurants backend q) = None /\
     RestaurantsResponse.data (selectRestaurants backend q) =
       Some (rangeOf (RestaurantsQuery.from q) (RestaurantsQuery.to q) table)) ->
  AppState.restaurants (loadPages backend n st) =
    map mapRestaurantRow (firstn (20 * (n + 1)) table) /\
  AppState.page (loadPages backend n st) = Z.of_nat (n + 1).
Proof.
  intros Hserve.
  assert (Hstep : forall reset s,
    AppState.restaurants (fetchData backend reset s) =
      (if reset then [] else AppState.restaurants s) ++
      map mapRestaurantRow
          (firstn 20 (skipn (20 * (if reset then 0 else Z.to_nat (AppState.page s))) table)) /\
    AppState.page (fetchData backend reset s) =
      (if reset then 1 else AppState.page s + 1)%Z).
  { intros reset s.
    pose proof (fetchData_frame backend reset s) as Hframe. cbv zeta in Hframe.
    destruct Hframe as [Hr [Hp _]].
    destruct (Hserve (fetchQuery reset s)) as [Herr Hdata].
    unfold applyRestaurants in Hr, Hp. rewrite Herr, Hdata in Hr, Hp.
    rewrite Hr, Hp.
    destruct (fetchQuery_range reset s) as [Hfrom Hto].
    unfold rangeOf. rewrite Hto, Hfrom.
    split; [|destruct reset; reflexivity].
    destruct reset; simpl.
    - reflexivity.
    - replace (Z.to_nat (AppState.page s * 20 + 19 - AppState.page s * 20 + 1)) with 20%nat
        by lia.
      replace (Z.to_nat (AppState.page s * 20)) with (20 * Z.to_nat (AppState.page s))%nat
        by lia.
      reflexivity. }
  unfold loadPages. induction n as [|n IH].
  - simpl Nat.iter. destruct (Hstep true st) as [Hr Hp]. rewrite Hr, Hp.
    split; reflexivity.
  - simpl Nat.iter. destruct IH as [IHr IHp].
    destruct (Hstep false (Nat.iter n (fetchData backend false) (fetchData backend true st)))
      as [Hr Hp].
    rewrite Hr, Hp, IHr, IHp. split; [|lia].
    rewrite <- map_app. f_equal.
    replace (Z.to_nat (Z.of_nat (n + 1))) with (n + 1)%nat by lia.
    replace (20 * (S n + 1))%nat with (20 * (n + 1) + 20)%nat by lia.
    symmetry. apply firstn_plus.
Qed.

End PagingFacts.

Lemma paging_shows_table_prefix_witness :
  AppState.restaurants (@loadPages referenceHost demoBackend 2 (emptyState "NYC")) =
    map (@mapRestaurantRow referenceHost) (numberedRows 45) /\
  AppState.page (@loadPages referenceHost demoBackend 2 (emptyState "NYC")) = 3%Z.
Proof.
  exact (@paging_shows_table_prefix referenceHost demoBackend (numberedRows 45)
           (emptyState "NYC") 2 (fun q => conj eq_refl eq_refl)).
Defined.

(* ------------------------------------------------------------------ *)
(** ** Suggestions, moderation and navigation *)

Lemma startsWith_app (p s : string) : startsWith (p ++ s) p = true.
Proof.
  induction p as [|c p IH]; simpl; [destruct s; reflexivity|].
  now rewrite Ascii.eqb_refl, IH.
Qed.

Lemma trimEnd_nonblank_suffix (p s : string) :
  trimEnd s = s -> s <> "" -> trimEnd (p ++ s) = (p ++ s)%string.
Proof.
  intros Hfix Hne. induction p as [|c p IH]; simpl; [exact Hfix|].
  rewrite IH.
  assert ((p ++ s =? "") = false) as E.
  { apply String.eqb_neq. destruct p; simpl; [exact Hne|discriminate]. }
  now rewrite E, andb_false_r.
Qed.

Lemma trimEnd_trim (s : string) : trimEnd (trim s) = trim s.
Proof. unfold trim. apply trimEnd_idempotent. Qed.

Lemma normalizeUrl_cases (value : string) :
  (trim value = "" /\ normalizeUrl value = "") \/
  (trim value <> "" /\ isAbsoluteUrl (trim value) = true /\
   normalizeUrl value = trim value) \/
  (trim value <> "" /\ isAbsoluteUrl (trim value) = false /\
   normalizeUrl value = ("https://" ++ trim value)%string).
Proof.
  unfold normalizeUrl. cbv zeta.
  destruct (nonEmpty (trim value)) eqn:E; simpl.
  - apply nonEmpty_true in E.
    destruct (isAbsoluteUrl (trim value)); [right; left|right; right]; auto.
  - apply nonEmpty_false in E. left. auto.
Qed.

Lemma toLowerCase_app (a b : string) :
  toLowerCase (a ++ b) = (toLowerCase a ++ toLowerCase b)%string.
Proof.
  unfold toLowerCase. induction a as [|c a IH]; simpl; [reflexivity|]. now rewrite IH.
Qed.

Lemma isAbsoluteUrl_https (s : string) : isAbsoluteUrl ("https://" ++ s) = true.
Proof.
  unfold isAbsoluteUrl. cbv zeta. rewrite toLowerCase_app.
  replace (toLowerCase "https://") with "https://" by (vm_compute; reflexivity).
  rewrite startsWith_app. apply orb_true_r.
Qed.

Lemma trim_https (s : string) :
  trim s <> "" -> trim ("https://" ++ trim s) = ("https://" ++ trim s)%string.
Proof.
  intros Hne. unfold trim at 1.
  change (trimStart ("https://" ++ trim s)) with ("https://" ++ trim s)%string.
  apply trimEnd_nonblank_suffix; [apply trimEnd_trim|exact Hne].
Qed.

(** X24: [normalizeUrl] puts a website into a normal form: a blank input gives
    the empty string; anything else gives a text that passes the code's own
    test for an absolute http(s) URL; a value that already has a scheme, in
    any letter case, is only trimmed; and the function is idempotent (the form
    applies it when the website field loses focus and again on submit, and
    the second pass changes nothing). *)
Theorem normalizeUrl_normal_form (value : string) :
  (trim value = "" -> normalizeUrl value = "") /\
  (trim value <> "" -> isAbsoluteUrl (normalizeUrl value) = true) /\
  (isAbsoluteUrl (trim value) = true -> normalizeUrl value = trim value) /\
  normalizeUrl (normalizeUrl value) = normalizeUrl value.
Proof.
  destruct (normalizeUrl_cases value) as [[Hv Hr]|[[Hv [Ha Hr]]|[Hv [Ha Hr]]]];
    rewrite Hr; (split; [|split; [|split]]); try (intros H).
  - reflexivity.
  - contradiction.
  - rewrite Hv in H. discriminate H.
  - reflexivity.
  - contradiction.
  - exact Ha.
  - reflexivity.
  - destruct (normalizeUrl_cases (trim value)) as [[Hv' Hr']|[[Hv' [Ha' Hr']]|[Hv' [Ha' Hr']]]];
      rewrite trim_idempotent in *; congruence.
  - contradiction.
  - apply isAbsoluteUrl_https.
  - congruence.
  - destruct (normalizeUrl_cases ("https://" ++ trim value))
      as [[Hv' Hr']|[[Hv' [Ha' Hr']]|[Hv' [Ha' Hr']]]];
      rewrite (trim_https _ Hv) in *.
    + discriminate Hv'.
    + exact Hr'.
    + rewrite isAbsoluteUrl_https in Ha'. discriminate Ha'.
Qed.

(** X25: [handleSubmission] sends nothing unless the name and the address are
    non-blank; the website it sends is null, for a blank field, or an absolute
    http(s) URL; it answers [true] exactly when the insert was sent and
    accepted, and then the form is reset (city 'NYC') and closed; otherwise
    the form is left as it was. *)
Theorem handleSubmission_outcome
    (insertSuggestion : SuggestionPayload.t -> option string) (st : SuggestState.t) :
  let form := SuggestState.newSubmission st in
  let outcome := handleSubmission insertSuggestion st in
  let ok := fst (fst outcome) in
  let st' := snd (fst outcome) in
  let effects := snd outcome in
  (forall payload, In (InsertSuggestionRequest payload) effects ->
     trim (Submission.name form) <> "" /\
     trim (Submission.address form) <> "" /\
     SuggestionPayload.name payload = Submission.name form /\
     SuggestionPayload.address payload = Submission.address form /\
     match SuggestionPayload.website payload with
     | None => trim (Submission.website form) = ""
     | Some url => isAbsoluteUrl url = true
     end) /\
  (ok = true <->
   exists payload,
     In (InsertSuggestionRequest payload) effects /\ insertSuggestion payload = None) /\
  (ok = true ->
   SuggestState.showSubmissionForm st' = false /\
   SuggestState.newSubmission st' = Submission.mk "" "" "" "NYC" "" "") /\
  (ok = false -> st' = st).
Proof.
  cbv zeta. unfold handleSubmission. cbv zeta.
  set (form := SuggestState.newSubmission st).
  destruct (nonEmpty (trim (Submission.name form))) eqn:En; simpl.
  2: { repeat split; try discriminate; try reflexivity.
       - destruct H as [H|[]]; discriminate H.
       - destruct H as [H|[]]; discriminate H.
       - destruct H as [H|[]]; discriminate H.
       - destruct H as [H|[]]; discriminate H.
       - destruct H as [H|[]]; discriminate H.
       - intros [payload [[H|[]] _]]. discriminate H. }
  destruct (nonEmpty (trim (Submission.address form))) eqn:Ea; simpl.
  2: { repeat split; try discriminate; try reflexivity.
       - destruct H as [H|[]]; discriminate H.
       - destruct H as [H|[]]; discriminate H.
       - destruct H as [H|[]]; discriminate H.
       - destruct H as [H|[]]; discriminate H.
       - destruct H as [H|[]]; discriminate H.
       - intros [payload [[H|[]] _]]. discriminate H. }
  apply nonEmpty_true in En, Ea.
  set (payload := SuggestionPayload.mk _ _ _ _ _ _).
  assert (Hweb : match SuggestionPayload.website payload with
                 | None => trim (Submission.website form) = ""
                 | Some url => isAbsoluteUrl url = true
                 end).
  { subst payload. simpl.
    destruct (normalizeUrl_cases (Submission.website form))
      as [[Hv Hr]|[[Hv [Habs Hr]]|[Hv [Habs Hr]]]]; rewrite Hr.
    - exact Hv.
    - apply nonEmpty_true in Hv. rewrite Hv. exact Habs.
    - simpl. apply isAbsoluteUrl_https. }
  destruct (insertSuggestion payload) as [message|] eqn:Eanswer; simpl.
  - split; [|split; [|split]]; try discriminate; try reflexivity.
    + intros p [H|[H|[]]]; [|discriminate H]. injection H as <-.
      repeat split; assumption.
    + split; [discriminate|]. intros [p [[H|[H|[]]] Hp]]; [|discriminate H].
      injection H as <-. congruence.
  - split; [|split; [|split]]; try discriminate.
    + intros p [H|[H|[]]]; [|discriminate H]. injection H as <-.
      repeat split; assumption.
    + split; [|reflexivity]. intros _. exists payload. split; [now left|exact Eanswer].
    + intros _. split; reflexivity.
Qed.

(** X21: a rejection that the backend refuses changes nothing and reports
    "Failed to reject: ..."; an accepted one removes from the pending list
    exactly the submissions of that id, keeps the others in order, leaves the
    restaurants alone and reports the removal.  Neither sends an insert. *)
Theorem rejectSubmission_outcome (backend : Backend) (submissionId : Z) (st : AppState.t) :
  let st' := fst (rejectSubmission backend submissionId st) in
  let effects := snd (rejectSubmission backend submissionId st) in
  (forall message, deletePending backend submissionId = Some message ->
     st' = st /\
     effects = [ DeletePendingRequest submissionId;
                 ShowToast ("Failed to reject: " ++ message)%string error ]) /\
  (deletePending backend submissionId = None ->
     (forall s, In s (AppState.pendingSubmissions st') <->
                In s (AppState.pendingSubmissions st) /\
                PendingSubmission.id s <> submissionId) /\
     AppState.pendingSubmissions st' =
       filter (fun s => negb (PendingSubmission.id s =? submissionId)%Z)
              (AppState.pendingSubmissions st) /\
     AppState.restaurants st' = AppState.restaurants st /\
     In (ShowToast "Submission rejected and removed." success) effects) /\
  (forall payload, ~ In (InsertRestaurantRequest payload) effects).
Proof.
  cbv zeta. unfold rejectSubmission.
  destruct (deletePending backend submissionId) as [message|]; simpl.
  - split; [|split].
    + intros m [= <-]. split; reflexivity.
    + discriminate.
    + intros payload [H|[H|[]]]; discriminate H.
  - split; [|split].
    + discriminate.
    + intros _. split; [|repeat split; auto].
      intros s. rewrite filter_In. unfold samePendingId.
      rewrite negb_true_iff, Z.eqb_neq. tauto.
    + intros payload [H|[H|[H|[]]]]; discriminate H.
Qed.

Lemma find_after_removal (submissionId : Z) (l : list PendingSubmission.t) :
  find (samePendingId submissionId)
       (filter (fun s => negb (samePendingId submissionId s)) l) = None.
Proof.
  induction l as [|s l IH]; simpl; [reflexivity|].
  destruct (samePendingId submissionId s) eqn:E; simpl; [exact IH|].
  now rewrite E.
Qed.

Section ModerationSafety.
Context {host : Host}.

Lemma approveSubmission_cases (backend : Backend) (submissionId : Z) (st : AppState.t) :
  (find (samePendingId submissionId) (AppState.pendingSubmissions st) = None /\
   approveSubmission backend submissionId st = (st, [])) \/
  (exists submission message,
     find (samePendingId submissionId) (AppState.pendingSubmissions st) = Some submission /\
     InsertResponse.error
       (insertRestaurant backend (toRestaurantInsertFromPending submission)) = Some message /\
     approveSubmission backend submissionId st =
       (st, [ InsertRestaurantRequest (toRestaurantInsertFromPending submission);
              ShowToast ("Approve failed: " ++ message)%string error ])) \/
  (exists submission,
     find (samePendingId submissionId) (AppState.pendingSubmissions st) = Some submission /\
     InsertResponse.error
       (insertRestaurant backend (toRestaurantInsertFromPending submission)) = None /\
     AppState.pendingSubmissions (fst (approveSubmission backend submissionId st)) =
       filter (fun s => negb (samePendingId submissionId s))
              (AppState.pendingSubmissions st) /\
     In (DeletePendingRequest submissionId)
        (snd (approveSubmission backend submissionId st)) /\
     forall sid, In (DeletePendingRequest sid)
                    (snd (approveSubmission backend submissionId st)) ->
                 sid = submissionId).
Proof.
  unfold approveSubmission.
  destruct (find (samePendingId submissionId) (AppState.pendingSubmissions st))
    as [submission|] eqn:Efind; [|left; auto].
  right.
  destruct (InsertResponse.error
              (insertRestaurant backend (toRestaurantInsertFromPending submission)))
    as [message|] eqn:Einsert.
  - left. exists submission, message. auto.
  - right. exists submission. split; [reflexivity|]. split; [exact Einsert|].
    split; [|split].
    + simpl.
      destruct (InsertResponse.data
                  (insertRestaurant backend (toRestaurantInsertFromPending submission)));
        reflexivity.
    + simpl. right. now left.
    + simpl. intros sid [H|[H|H]]; [discriminate H|now injection H|].
      apply in_app_or in H. destruct H as [H|[H|[H|[]]]]; try discriminate H.
      destruct (deletePending backend submissionId); simpl in H;
        [destruct H as [H|[]]; discriminate H|destruct H].
Qed.

(** X22: [approveSubmission] asks for the deletion of the pending row only after
    the insert was accepted; a refused insert, or an id that is not pending,
    leaves the state as it was.  On the state it leaves once it went through,
    and on the state an accepted rejection leaves, approving the same id again
    does nothing and sends nothing. *)
Theorem approveSubmission_deletes_after_insert (backend again : Backend) (submissionId : Z)
    (st : AppState.t) :
  let st' := fst (approveSubmission backend submissionId st) in
  let effects := snd (approveSubmission backend submissionId st) in
  (forall sid, In (DeletePendingRequest sid) effects ->
     sid = submissionId /\
     exists submission,
       In submission (AppState.pendingSubmissions st) /\
       PendingSubmission.id submission = submissionId /\
       InsertResponse.error
         (insertRestaurant backend (toRestaurantInsertFromPending submission)) = None) /\
  ((forall sid, ~ In (DeletePendingRequest sid) effects) -> st' = st) /\
  (In (DeletePendingRequest submissionId) effects ->
     approveSubmission again submissionId st' = (st', [])) /\
  (deletePending backend submissionId = None ->
     approveSubmission again submissionId
       (fst (rejectSubmission backend submissionId st)) =
     (fst (rejectSubmission backend submissionId st), [])).
Proof.
  cbv zeta.
  destruct (approveSubmission_cases backend submissionId st)
    as [[Hfind Hres]|[[submission [message [Hfind [Herr Hres]]]]|
        [submission [Hfind [Herr [Hpending [Hdel Honly]]]]]]].
  - rewrite Hres. simpl. split; [intros sid []|]. split; [reflexivity|].
    split; [intros []|].
    intros Hd. unfold rejectSubmission. rewrite Hd. simpl.
    unfold approveSubmission. simpl. now rewrite find_after_removal.
  - rewrite Hres. simpl. split; [intros sid [H|[H|[]]]; discriminate H|].
    split; [reflexivity|]. split; [intros [H|[H|[]]]; discriminate H|].
    intros Hd. unfold rejectSubmission. rewrite Hd. simpl.
    unfold approveSubmission. simpl. now rewrite find_after_removal.
  - split; [|split; [|split]].
    + intros sid Hsid. split; [now apply Honly|]. exists submission.
      apply find_some in Hfind. destruct Hfind as [Hin Hid].
      unfold samePendingId in Hid. apply Z.eqb_eq in Hid. auto.
    + intros Hnone. destruct (Hnone submissionId Hdel).
    + intros _.
      set (st' := fst (approveSubmission backend submissionId st)) in *.
      unfold approveSubmission. rewrite Hpending, find_after_removal. reflexivity.
    + intros Hd. unfold rejectSubmission. rewrite Hd. simpl.
      unfold approveSubmission. simpl. now rewrite find_after_removal.
Qed.

End ModerationSafety.

(** X23: navigation is stable and survives a reload.  After [navigate(view)] the
    fragment is ["#/" ++ view]; the [hashchange] listener reads the same view
    back from it; the effect that keeps the fragment in step has nothing left
    to do; and when the persist effect could write the name, the stored name
    reads back as the view and a reload with readable storage comes to rest
    in that view and in no other, whatever the order of re-render and
    events. *)
Theorem navigate_survives_reload (view : View) (b : Browser.t) (throws : bool) :
  let b1 := snd (navigate view b) in
  let b2 := persistView throws view (syncHash view b1) in
  fst (navigate view b) = view /\
  Browser.hash b2 = ("#/" ++ viewName view)%string /\
  onHashChange (Browser.hash b2) = view /\
  syncHash view b1 = b1 /\
  (throws = false -> getInitialView (StorageValue (Browser.stored b2)) = view) /\
  (throws = false ->
   forall (setThrows : bool) (view' : View),
     settlesAt false setThrows b2 view' <-> view' = view).
Proof.
  cbv zeta.
  assert (Hh : Browser.hash (persistView throws view (syncHash view (snd (navigate view b))))
               = ("#/" ++ viewName view)%string).
  { rewrite persistView_hash, syncHash_hash. reflexivity. }
  assert (Hst : throws = false ->
                getInitialView (StorageValue (Browser.stored
                  (persistView throws view (syncHash view (snd (navigate view b)))))) = view).
  { intros ->. destruct view; reflexivity. }
  split; [reflexivity|]. split; [exact Hh|].
  split; [unfold onHashChange; rewrite Hh; apply viewFromHash_target|].
  split.
  { unfold navigate. cbn [snd]. unfold syncHash at 1.
    rewrite syncHash_hash, String.eqb_refl. reflexivity. }
  split; [exact Hst|].
  intros Ht setThrows view'. rewrite settlesAt_iff.
  unfold readStorage. rewrite (Hst Ht), Hh, viewFromHash_target.
  split; [intros [H|H]; exact H|intros H; left; exact H].
Qed.

(* ------------------------------------------------------------------ *)
(** ** E-mail forms *)

Lemma matchPieces_nil (s : string) : matchPieces [] s = true <-> s = "".
Proof. destruct s; simpl; split; (reflexivity || discriminate). Qed.

Lemma matchPieces_literal (c : ascii) (rest : list Piece) (s : string) :
  matchPieces (Literal c :: rest) s = true <->
  exists t, s = String c t /\ matchPieces rest t = true.
Proof.
  destruct s as [|d s']; simpl.
  - split; [discriminate|]. intros [t [H _]]. discriminate H.
  - rewrite andb_true_iff, Ascii.eqb_eq. split.
    + intros [-> H]. eauto.
    + intros [t [[= -> ->] H]]. auto.
Qed.

Lemma matchPieces_repeat (class : ascii -> bool) (rest : list Piece) (s : string) :
  matchPieces (OneOrMore class :: rest) s = true <->
  exists a t, s = (a ++ t)%string /\ a <> "" /\ allChars class a = true /\
              matchPieces rest t = true.
Proof.
  induction s as [|d s' IH].
  - simpl. split; [discriminate|].
    intros [a [t [H [Hne _]]]]. destruct a; [now contradiction Hne|discriminate H].
  - change (matchPieces (OneOrMore class :: rest) (String d s')) with
      (class d && (matchPieces (OneOrMore class :: rest) s' || matchPieces rest s')).
    rewrite andb_true_iff, orb_true_iff, IH. split.
    + intros [Hd [[a [t [-> [Hne [Ha Ht]]]]]|Ht]].
      * exists (String d a), t. simpl. rewrite Hd, Ha. repeat split; auto. discriminate.
      * exists (String d ""), s'. simpl. rewrite Hd. repeat split; auto. discriminate.
    + intros [a [t [Hs [Hne [Ha Ht]]]]].
      destruct a as [|c a]; [now contradiction Hne|].
      simpl in Hs, Ha. injection Hs as <- ->.
      apply andb_true_iff in Ha. destruct Ha as [Hc Ha]. split; [exact Hc|].
      destruct a as [|c' a'].
      * right. exact Ht.
      * left. exists (String c' a'), t. repeat split; auto. discriminate.
Qed.

Lemma append_empty_r (s : string) : (s ++ "")%string = s.
Proof. induction s as [|c s IH]; simpl; [reflexivity|now rewrite IH]. Qed.

Lemma isValidEmail_parts (email : string) :
  isValidEmail email = true <->
  exists a b c,
    email = (a ++ "@" ++ b ++ "." ++ c)%string /\
    a <> "" /\ b <> "" /\ c <> "" /\
    allChars notSpaceOrAt a = true /\
    allChars notSpaceOrAt b = true /\
    allChars notSpaceOrAt c = true.
Proof.
  unfold isValidEmail. rewrite matchPieces_repeat. split.
  - intros [a [t [-> [Ha [Hca Ht]]]]].
    apply matchPieces_literal in Ht. destruct Ht as [t1 [-> Ht]].
    apply matchPieces_repeat in Ht. destruct Ht as [b [t2 [-> [Hb [Hcb Ht]]]]].
    apply matchPieces_literal in Ht. destruct Ht as [t3 [-> Ht]].
    apply matchPieces_repeat in Ht. destruct Ht as [c [t4 [-> [Hc [Hcc Ht]]]]].
    apply matchPieces_nil in Ht. subst t4.
    exists a, b, c. rewrite append_empty_r. repeat split; auto.
  - intros [a [b [c [-> [Ha [Hb [Hc [Hca [Hcb Hcc]]]]]]]]].
    exists a, ("@" ++ b ++ "." ++ c)%string. repeat split; auto.
    apply matchPieces_literal. exists (b ++ "." ++ c)%string. split; [reflexivity|].
    apply matchPieces_repeat. exists b, ("." ++ c)%string. repeat split; auto.
    apply matchPieces_literal. exists c. split; [reflexivity|].
    apply matchPieces_repeat. exists c, "". repeat split; auto.
    now rewrite append_empty_r.
Qed.

Lemma allChars_app (f : ascii -> bool) (a b : string) :
  allChars f (a ++ b) = allChars f a && allChars f b.
Proof.
  induction a as [|c a IH]; simpl; [reflexivity|]. now rewrite IH, andb_assoc.
Qed.

Lemma allChars_impl (f g : ascii -> bool) (s : string) :
  (forall c, f c = true -> g c = true) -> allChars f s = true -> allChars g s = true.
Proof.
  intros Himpl. induction s as [|c s IH]; simpl; [reflexivity|].
  rewrite !andb_true_iff. intros [Hc Hs]. auto.
Qed.

Lemma trimEnd_no_space (s : string) :
  allChars (fun c => negb (isWhiteSpace c)) s = true -> trimEnd s = s.
Proof.
  induction s as [|c s IH]; simpl; [reflexivity|].
  rewrite andb_true_iff, negb_true_iff. intros [Hc Hs].
  now rewrite Hc, (IH Hs).
Qed.

Lemma trim_no_space (s : string) :
  allChars (fun c => negb (isWhiteSpace c)) s = true -> trim s = s.
Proof.
  intros H. unfold trim. rewrite trimStart_fixed; [now apply trimEnd_no_space|].
  destruct s as [|c s]; [exact I|]. simpl in H.
  apply andb_true_iff in H. destruct H as [H _]. now apply negb_true_iff.
Qed.

Lemma isValidEmail_no_space (email : string) :
  isValidEmail email = true ->
  allChars (fun c => negb (isWhiteSpace c)) email = true.
Proof.
  intros H. apply isValidEmail_parts in H.
  destruct H as [a [b [c [-> [_ [_ [_ [Ha [Hb Hc]]]]]]]]].
  assert (forall s, allChars notSpaceOrAt s = true ->
                    allChars (fun c => negb (isWhiteSpace c)) s = true) as Hweak.
  { intros s. apply allChars_impl. intros ch. unfold notSpaceOrAt.
    rewrite andb_true_iff. tauto. }
  repeat (rewrite allChars_app; simpl).
  now rewrite (Hweak _ Ha), (Hweak _ Hb), (Hweak _ Hc).
Qed.

Lemma isValidEmail_trimmed (email : string) :
  isValidEmail email = true -> trim email = email.
Proof. intros H. apply trim_no_space. now apply isValidEmail_no_space. Qed.

(** X26: [isValidEmail] accepts exactly the texts of the form [local@domain.tld]
    whose three parts are non-empty and hold neither white space nor '@' (a
    dot may occur in any of them).  An accepted text holds no white space at
    all, so trimming it changes nothing. *)
Theorem isValidEmail_shape (email : string) :
  (isValidEmail email = true <->
   exists a b c,
     email = (a ++ "@" ++ b ++ "." ++ c)%string /\
     a <> "" /\ b <> "" /\ c <> "" /\
     allChars notSpaceOrAt a = true /\
     allChars notSpaceOrAt b = true /\
     allChars notSpaceOrAt c = true) /\
  (isValidEmail email = true ->
   allChars (fun c => negb (isWhiteSpace c)) email = true /\ trim email = email).
Proof.
  split; [apply isValidEmail_parts|].
  intros H. split; [now apply isValidEmail_no_space|now apply isValidEmail_trimmed].
Qed.

(** X27: the newsletter box asks the backend only for an address that, trimmed,
    is well formed; it inserts only after the uniqueness check answered and
    found no subscription; it reports success exactly when the insert was
    accepted, and then clears the field; in every other case it sets an error
    message and leaves the field as typed; and once it has asked the backend
    it never leaves the loading flag on. *)
Theorem handleSubscribe_outcome (backend : NewsletterBackend) (st : Newsletter.t) :
  let email := trim (Newsletter.newsletterEmail st) in
  let st' := fst (handleSubscribe backend st) in
  let effects := snd (handleSubscribe backend st) in
  (forall e, In (CountRequest e) effects \/ In (SubscribeRequest e) effects ->
     e = email /\ isValidEmail e = true) /\
  (forall e, In (SubscribeRequest e) effects ->
     exists counted,
       countSubscriptions backend e = Answered counted /\
       forall n, CountAnswer.count counted = Some n -> (n <= 0)%Z) /\
  (Newsletter.newsletterSuccess st' = true <->
   In (SubscribeRequest email) effects /\
   insertSubscription backend email = Answered None) /\
  (Newsletter.newsletterSuccess st' = true ->
   st' = Newsletter.mk "" false None true) /\
  (Newsletter.newsletterSuccess st' = false ->
   Newsletter.newsletterError st' <> None /\
   Newsletter.newsletterEmail st' = Newsletter.newsletterEmail st) /\
  (effects <> [] -> Newsletter.newsletterLoading st' = false).
Proof.
  cbv zeta. unfold handleSubscribe. cbv zeta.
  set (email := trim (Newsletter.newsletterEmail st)).
  destruct (nonEmpty email) eqn:Ene; simpl; [|form_cases].
  destruct (isValidEmail email) eqn:Evalid; simpl; [|form_cases].
  destruct (countSubscriptions backend email) as [counted|thrown] eqn:Ecount; simpl;
    [|form_cases].
  destruct (CountAnswer.count counted) as [n|] eqn:En;
    [destruct (0 <? n)%Z eqn:Epos; simpl; [form_cases|]|];
    (destruct (insertSubscription backend email) as [[insertErr|]|thrown] eqn:Einsert;
     simpl; form_cases).
  all: exists counted; (split; [exact Ecount|]); intros m Hm; rewrite En in Hm;
    first [discriminate Hm | injection Hm as <-; now apply Z.ltb_ge].
Qed.

(** X28: the contact form sends a message only when the name and the message
    are non-blank and the address as typed is well formed; the row it sends
    carries that address unchanged (validation runs before trimming, so an
    address with white space around it is refused), the trimmed name and
    message, and no empty subject.  It reports success exactly when the insert
    was accepted, and then clears the form; otherwise it keeps what was typed
    and shows the same message in the form and in the notification. *)
Theorem contact_handleSubmit_outcome
    (insertMessage : ContactPayload.t -> Awaited (option string)) (st : ContactForm.t) :
  let st' := fst (handleSubmit insertMessage st) in
  let effects := snd (handleSubmit insertMessage st) in
  (forall payload, In (InsertMessageRequest payload) effects ->
     isValidEmail (ContactForm.email st) = true /\
     ContactPayload.email payload = ContactForm.email st /\
     ContactPayload.name payload = trim (ContactForm.name st) /\
     ContactPayload.name payload <> "" /\
     ContactPayload.message payload = trim (ContactForm.message st) /\
     ContactPayload.message payload <> "" /\
     ContactPayload.subject payload <> Some "") /\
  (trim (ContactForm.email st) <> ContactForm.email st ->
   forall payload, ~ In (InsertMessageRequest payload) effects) /\
  (ContactForm.success st' = true <->
   exists payload,
     In (InsertMessageRequest payload) effects /\ insertMessage payload = Answered None) /\
  (ContactForm.success st' = true ->
   st' = ContactForm.mk "" "" "" "" false None true) /\
  (ContactForm.success st' = false ->
   ContactForm.name st' = ContactForm.name st /\
   ContactForm.email st' = ContactForm.email st /\
   ContactForm.subject st' = ContactForm.subject st /\
   ContactForm.message st' = ContactForm.message st /\
   exists msg, ContactForm.error st' = Some msg /\ In (OnNotify msg error) effects).
Proof.
  cbv zeta.
  assert (Hsent : forall payload,
            In (InsertMessageRequest payload) (snd (handleSubmit insertMessage st)) ->
            isValidEmail (ContactForm.email st) = true /\
            payload =
              ContactPayload.mk
                (trim (ContactForm.name st)) (trim (ContactForm.email st))
                (if nonEmpty (trim (ContactForm.subject st))
                 then Some (trim (ContactForm.subject st)) else None)
                (trim (ContactForm.message st)) /\
            trim (ContactForm.name st) <> "" /\
            trim (ContactForm.message st) <> "").
  { intros payload. unfold handleSubmit. cbv zeta.
    destruct (nonEmpty (trim (ContactForm.name st))) eqn:En; simpl;
      [|intros H; split_effects].
    destruct (nonEmpty (trim (ContactForm.email st))) eqn:Ee; simpl;
      [|intros H; split_effects].
    destruct (nonEmpty (trim (ContactForm.message st))) eqn:Em; simpl;
      [|intros H; split_effects].
    destruct (isValidEmail (ContactForm.email st)) eqn:Ev; simpl;
      [|intros H; split_effects].
    apply nonEmpty_true in En, Em.
    destruct (insertMessage _) as [[m|]|m]; simpl; intros H; split_effects;
      repeat split; auto. }
  split; [|split; [|split; [|split]]].
  - intros payload Hin. destruct (Hsent payload Hin) as [Hv [-> [Hn Hm]]]. simpl.
    rewrite (isValidEmail_trimmed _ Hv). repeat split; auto.
    destruct (nonEmpty (trim (ContactForm.subject st))) eqn:Es; [|discriminate].
    apply nonEmpty_true in Es. congruence.
  - intros Hspace payload Hin. destruct (Hsent payload Hin) as [Hv _].
    apply Hspace. now apply isValidEmail_trimmed.
  - unfold handleSubmit. cbv zeta.
    assert (Hrefused : forall msg,
              false = true <->
              exists payload : ContactPayload.t,
                In (InsertMessageRequest payload) [OnNotify msg error] /\
                insertMessage payload = Answered None).
    { intros msg. split; [discriminate|]. intros [payload [Hin _]]. split_effects. }
    destruct (nonEmpty (trim (ContactForm.name st))); simpl; [|apply Hrefused].
    destruct (nonEmpty (trim (ContactForm.email st))); simpl; [|apply Hrefused].
    destruct (nonEmpty (trim (ContactForm.message st))); simpl; [|apply Hrefused].
    destruct (isValidEmail (ContactForm.email st)); simpl; [|apply Hrefused].
    destruct (insertMessage _) as [[m|]|m] eqn:Eanswer; simpl.
    + split; [discriminate|]. intros [payload [Hin Hp]]. split_effects. congruence.
    + split; [|reflexivity]. intros _. eexists. split; [left; reflexivity|exact Eanswer].
    + split; [discriminate|]. intros [payload [Hin Hp]]. split_effects. congruence.
  - unfold handleSubmit. cbv zeta.
    destruct (nonEmpty (trim (ContactForm.name st))); simpl; [|discriminate].
    destruct (nonEmpty (trim (ContactForm.email st))); simpl; [|discriminate].
    destruct (nonEmpty (trim (ContactForm.message st))); simpl; [|discriminate].
    destruct (isValidEmail (ContactForm.email st)); simpl; [|discriminate].
    destruct (insertMessage _) as [[m|]|m]; simpl; (discriminate || reflexivity).
  - unfold handleSubmit. cbv zeta.
    destruct (nonEmpty (trim (ContactForm.name st))); simpl;
      [|intros _; repeat split; eexists; split; [reflexivity|simpl; tauto]].
    destruct (nonEmpty (trim (ContactForm.email st))); simpl;
      [|intros _; repeat split; eexists; split; [reflexivity|simpl; tauto]].
    destruct (nonEmpty (trim (ContactForm.message st))); simpl;
      [|intros _; repeat split; eexists; split; [reflexivity|simpl; tauto]].
    destruct (isValidEmail (ContactForm.email st)); simpl;
      [|intros _; repeat split; eexists; split; [reflexivity|simpl; tauto]].
    destruct (insertMessage _) as [[m|]|m]; simpl; try discriminate;
      intros _; repeat split; eexists; (split; [reflexivity|simpl; tauto]).
Qed.

(* ------------------------------------------------------------------ *)
(** ** Detail view *)

(** The chip label and the filter agree on "Seed-Oil Free": a tag is shown
    under that label exactly when it canonicalises to 'seed-oil free', every
    other tag is shown as written, and a selected tag shown under that label
    matches every restaurant that carries a tag shown under it. *)
Theorem displayDiet_agrees_with_filter (tag : string) :
  (displayDiet tag = "Seed-Oil Free" <-> canonicalDiet tag = Text "seed-oil free") /\
  (displayDiet tag <> "Seed-Oil Free" -> displayDiet tag = tag) /\
  (forall (selected : string) (r : Restaurant.t),
     displayDiet selected = "Seed-Oil Free" ->
     displayDiet tag = "Seed-Oil Free" ->
     In tag (Restaurant.dietaryTags r) ->
     In (canonicalDiet selected) (map canonicalDiet (Restaurant.dietaryTags r))).
Proof.
  assert (Hiff : forall t, displayDiet t = "Seed-Oil Free" <->
                           canonicalDiet t = Text "seed-oil free").
  { intros t. unfold displayDiet. cbv zeta.
    destruct (jsvalue_eqb (canonicalDiet t) (Text "seed-oil free")) eqn:E.
    - apply jsvalue_eqb_eq in E. tauto.
    - split.
      + intros ->. vm_compute in E. discriminate E.
      + intros H. rewrite H in E. discriminate E. }
  split; [apply Hiff|]. split.
  - unfold displayDiet. cbv zeta.
    destruct (jsvalue_eqb (canonicalDiet tag) (Text "seed-oil free")); [|reflexivity].
    intros H. now contradiction H.
  - intros selected r Hs Ht Hin. apply Hiff in Hs, Ht. rewrite Hs, <- Ht.
    now apply in_map.
Qed.

Lemma filterSeen_keeps_all (seen : list string) (out : list RecDish.t) :
  filterSeen seen out = out.
Proof.
  revert seen. induction out as [|d rest IH]; intros seen; simpl; [reflexivity|].
  rewrite orb_true_r. now rewrite IH.
Qed.

Section DishFacts.
Context {host : Host}.

Lemma pushItems_strings (names : list string) :
  pushItems (map Str names) = Some (map (fun n => RecDish.mk n None None) names).
Proof.
  unfold pushItems. induction names as [|n names IH]; [reflexivity|].
  simpl in *. destruct (allSome _) as [l|]; [|discriminate IH].
  simpl in *. injection IH as IH. now rewrite IH.
Qed.

(** X29: a list of dish names is shown as it is: one dish per entry, in order,
    with no note and no tags.  The closing filter, announced as a
    de-duplication by title, keeps every entry: repeated and empty titles
    stay.  The same holds for a text that parses to such a list; a text that
    parses to null makes the function throw. *)
Theorem dishes_are_not_deduplicated (names : list string) :
  normalizeRecommendedDishes (Arr (map Str names)) =
    Some (map (fun n => RecDish.mk n None None) names) /\
  (forall text, text <> "" -> JSON_parse text = Some (Arr (map Str names)) ->
     normalizeRecommendedDishes (Str text) =
       Some (map (fun n => RecDish.mk n None None) names)) /\
  (forall text, text <> "" -> JSON_parse text = Some Null ->
     normalizeRecommendedDishes (Str text) = None).
Proof.
  split; [|split].
  - unfold normalizeRecommendedDishes. simpl.
    rewrite pushItems_strings. simpl. now rewrite filterSeen_keeps_all.
  - intros text Hne Hparse. unfold normalizeRecommendedDishes. simpl.
    apply nonEmpty_true in Hne. rewrite Hne, Hparse. simpl.
    rewrite pushItems_strings. simpl. now rewrite filterSeen_keeps_all.
  - intros text Hne Hparse. unfold normalizeRecommendedDishes. simpl.
    apply nonEmpty_true in Hne. now rewrite Hne, Hparse.
Qed.

End DishFacts.

Lemma allSome_concat_In {A B : Type} (f : A -> option (list B)) (items : list A)
    (ls : list (list B)) (x : B) :
  allSome (map f items) = Some ls -> In x (List.concat ls) ->
  exists item l, In item items /\ f item = Some l /\ In x l.
Proof.
  revert ls. induction items as [|item items IH]; intros ls; simpl.
  - intros [= <-] [].
  - destruct (f item) as [l|] eqn:Ef; [|discriminate].
    destruct (allSome (map f items)) as [ls'|]; [|discriminate].
    simpl. intros [= <-]. simpl. rewrite in_app_iff. intros [H|H].
    + exists item, l. auto.
    + destruct (IH ls' eq_refl H) as [item' [l' [Hin [Hf Hx]]]].
      exists item', l'. auto.
Qed.

Section SocialFacts.
Context {host : Host}.
Variable localeCompare : string -> string -> comparison.

Lemma add_absolute (label : string) (v : value) (links : list SocialLink.t)
    (link : SocialLink.t) :
  add label v = Some links -> In link links ->
  SocialLink.label link = label /\ isAbsoluteUrl (SocialLink.url link) = true.
Proof.
  unfold add. destruct (toBoolean v); simpl; [|intros [= <-] []].
  destruct (toStringValue v) as [text|]; [|discriminate].
  cbv zeta. destruct (nonEmpty (trim text)); simpl; [|intros [= <-] []].
  intros [= <-] [<-|[]]. simpl. split; [reflexivity|].
  destruct (isAbsoluteUrl (trim text)) eqn:E; [exact E|].
  repeat match goal with
         | |- context [if ?b then _ else _] => destruct b
         end;
    apply isAbsoluteUrl_https.
Qed.

Lemma addEntries_absolute (entries : list (string * value)) (links : list SocialLink.t)
    (link : SocialLink.t) :
  addEntries entries = Some links -> In link links ->
  isAbsoluteUrl (SocialLink.url link) = true.
Proof.
  unfold addEntries.
  destruct (allSome (map (fun kv => add (fst kv) (snd kv)) entries)) as [ls|] eqn:E;
    [|discriminate].
  simpl. intros [= <-] Hin.
  destruct (allSome_concat_In _ _ _ _ E Hin) as [kv [l [_ [Hadd Hl]]]].
  exact (proj2 (add_absolute _ _ _ _ Hadd Hl)).
Qed.

(** X30: every social link that [normalizeSocialLinks] returns has an absolute
    http(s) URL, whatever shape the stored value has and however the locale
    orders the labels. *)
Theorem social_links_are_absolute (val : value) (links : list SocialLink.t) :
  normalizeSocialLinks localeCompare val = Some links ->
  forall link, In link links -> isAbsoluteUrl (SocialLink.url link) = true.
Proof.
  unfold normalizeSocialLinks. destruct (toBoolean val); simpl; [|intros [= <-] link []].
  set (data := match val with Str text => _ | _ => val end).
  match goal with
  | |- option_map _ ?out = _ -> _ => destruct out as [collected|] eqn:Eout
  end; [|discriminate].
  simpl. intros [= <-] link Hin. apply sortWith_In in Hin.
  destruct data as [| | | |s|items|props]; try (injection Eout as <-; destruct Hin);
    try discriminate Eout.
  - exact (proj2 (add_absolute _ _ _ _ Eout Hin)).
  - destruct (allSome _) as [ls|] eqn:E; [|discriminate Eout].
    simpl in Eout. injection Eout as <-.
    destruct (allSome_concat_In _ _ _ _ E Hin) as [item [l [_ [Hitem Hl]]]].
    destruct item as [| | | |s|sub|props]; try (injection Hitem as <-; destruct Hl).
    + exact (proj2 (add_absolute _ _ _ _ Hitem Hl)).
    + exact (addEntries_absolute _ _ _ Hitem Hl).
    + exact (addEntries_absolute _ _ _ Hitem Hl).
  - exact (addEntries_absolute _ _ _ Eout Hin).
Qed.

End SocialFacts.

Lemma social_links_are_absolute_witness :
  @normalizeSocialLinks referenceHost String.compare storedLinks =
    Some [ SocialLink.mk "Website" "https://crunch.example";
           SocialLink.mk "Instagram" "https://instagram.com/crunch" ] /\
  isAbsoluteUrl "https://instagram.com/crunch" = true.
Proof.
  split; [reflexivity|].
  apply (@social_links_are_absolute referenceHost String.compare storedLinks _ eq_refl
           (SocialLink.mk "Instagram" "https://instagram.com/crunch")).
  simpl. tauto.
Defined.
